(** * The candle-driven exchange simulator of [bots/backtest_bot.py]

    A shallow embedding of [BacktestBot]: the per-candle exchange step
    ([execute_exchange_logic]), the driver loop ([start_websocket]) and the
    two entry points of the strategy ([create_orders], [cancel_orders]).

    Numbers are IEEE binary64 values, as the [types.float64] fields of the
    source; orders are objects of a store, so that the in-place update of a
    partially filled order and the removal of the collected orders act on the
    very objects the book holds. *)

From Stdlib Require Import ZArith String List Bool Lia.
From Stdlib Require Import PrimFloat SpecFloat FloatOps Uint63.
From Stdlib Require FloatAxioms.
From stdpp Require Import base list.

Local Open Scope string_scope.
Local Open Scope list_scope.

(** ** Python floats *)

(** The comparison operators of Python on floats: every one of them is false
    on NaN, except [!=]. *)
Module F.
Definition lt (x y : float) : bool :=
  match PrimFloat.compare x y with FLt => true | _ => false end.
Definition le (x y : float) : bool :=
  match PrimFloat.compare x y with FLt | FEq => true | _ => false end.
Definition gt (x y : float) : bool :=
  match PrimFloat.compare x y with FGt => true | _ => false end.
Definition ge (x y : float) : bool :=
  match PrimFloat.compare x y with FGt | FEq => true | _ => false end.
Definition eq (x y : float) : bool :=
  match PrimFloat.compare x y with FEq => true | _ => false end.
Definition ne (x y : float) : bool := negb (eq x y).

(** [np.floor]: below 2^52 in magnitude, adding and subtracting 2^52 rounds
    to an integer, which is one too high when it exceeds the argument;
    from 2^52 on every float is an integer. *)
Definition floor (x : float) : float :=
  if lt (abs x) 0x1p52%float then
    let r := if lt x 0%float then ((x - 0x1p52) + 0x1p52)%float
             else ((x + 0x1p52) - 0x1p52)%float in
    if lt x r then (r - 1)%float else r
  else x.

(** Conversion of an [int64] to a float, as in a mixed expression such as
    [order.timestamp + self.latency]. *)
Definition of_int64 (z : Z) : float :=
  if (z =? - 2 ^ 63)%Z then (- 0x1p63)%float
  else if (z <? 0)%Z then (- of_uint63 (Uint63.of_Z (- z)))%float
  else of_uint63 (Uint63.of_Z z).

(** Storing a float into an [int64] field truncates toward zero; a value
    that has no [int64] (NaN, infinities, out of range) is stored as the
    least [int64]. *)
Definition to_int64 (x : float) : Z :=
  match Prim2SF x with
  | S754_zero _ => 0%Z
  | S754_finite s m e =>
      let mag := Z.shiftl (Z.pos m) e in
      let v := if s then (- mag)%Z else mag in
      if ((- 2 ^ 63 <=? v) && (v <? 2 ^ 63))%Z then v else (- 2 ^ 63)%Z
  | _ => (- 2 ^ 63)%Z
  end.

(** [np.average] of a list: the sum from left to right over the length. *)
Definition average (l : list float) : float :=
  (fold_left PrimFloat.add l 0 / of_int64 (Z.of_nat (length l)))%float.
End F.

(** ** Data model *)

(** Modelled from the spec: the tags that the bot imports from
    [definitions/order.py], which is not part of the sources at hand. The
    fields that hold them are strings; each constant is given its own name as
    value, which makes them pairwise distinct. *)
Definition LONG : string := "LONG".
Definition SHORT : string := "SHORT".
Definition BUY : string := "BUY".
Definition SELL : string := "SELL".
Definition MARKET : string := "MARKET".
Definition LIMIT : string := "LIMIT".
Definition TP : string := "TP".
Definition SL : string := "SL".
Definition CALCULATED : string := "CALCULATED".
Definition NEW : string := "NEW".
Definition PARTIALLY_FILLED : string := "PARTIALLY_FILLED".
Definition FILLED : string := "FILLED".
Definition CANCELED : string := "CANCELED".
Definition LQ : string := "LIQUIDATION".

Infix "==" := String.eqb (at level 70, no associativity) : string_scope.

Module Candle.
(** Modelled from the spec: [definitions/candle.py] is not part of the
    sources at hand. [Candle(open, high, low, close, volume)], as
    [prepare_candle] builds it and the step reads it. *)
Record t : Set := mk {
  open : float;
  high : float;
  low : float;
  close : float;
  volume : float
}.
End Candle.

Module Order.
(** Modelled from the spec: [definitions/order.py] is not part of the sources
    at hand. [Order(symbol, client_id, price, stop_price, qty, type, side,
    timestamp, action, position_side)], in the order of the constructor calls
    of the liquidation branch; an order is mutable, and [copy()] gives a new
    order with the same fields. *)
Record t : Set := mk {
  symbol : string;
  client_id : Z;
  price : float;
  stop_price : float;
  qty : float;
  type : string;
  side : string;
  timestamp : Z;
  action : string;
  position_side : string
}.

Definition set_symbol (o : t) (v : string) : t :=
  mk v (client_id o) (price o) (stop_price o) (qty o) (type o) (side o)
     (timestamp o) (action o) (position_side o).
Definition set_price (o : t) (v : float) : t :=
  mk (symbol o) (client_id o) v (stop_price o) (qty o) (type o) (side o)
     (timestamp o) (action o) (position_side o).
Definition set_qty (o : t) (v : float) : t :=
  mk (symbol o) (client_id o) (price o) (stop_price o) v (type o) (side o)
     (timestamp o) (action o) (position_side o).
Definition set_timestamp (o : t) (v : Z) : t :=
  mk (symbol o) (client_id o) (price o) (stop_price o) (qty o) (type o)
     (side o) v (action o) (position_side o).
Definition set_action (o : t) (v : string) : t :=
  mk (symbol o) (client_id o) (price o) (stop_price o) (qty o) (type o)
     (side o) (timestamp o) v (position_side o).

(** What reading through a reference to no object yields; Python has no
    such reference. *)
Definition none : t := mk "" 0 0 0 0 "" "" 0 "" "".
End Order.

Module Position.
(** Modelled from the spec: [definitions/position.py] is not part of the
    sources at hand. [Position(symbol, size, price, liquidation_price, upnl,
    leverage, position_side)], in the order of the constructor calls of the
    liquidation branch. The source reads the quantity as [size] in the
    margin checks and as [qty] in the matching loops; the position of the
    specification has one quantity, which both names denote here. *)
Record t : Set := mk {
  symbol : string;
  size : float;
  price : float;
  liquidation_price : float;
  upnl : float;
  leverage : float;
  position_side : string
}.

Definition qty (p : t) : float := size p.

Definition set_qty_price (p : t) (qp : float * float) : t :=
  mk (symbol p) (fst qp) (snd qp) (liquidation_price p) (upnl p)
     (leverage p) (position_side p).
Definition set_liquidation_price (p : t) (v : float) : t :=
  mk (symbol p) (size p) (price p) v (upnl p) (leverage p) (position_side p).
Definition set_leverage (p : t) (v : float) : t :=
  mk (symbol p) (size p) (price p) (liquidation_price p) (upnl p) v
     (position_side p).
Definition set_position_side (p : t) (v : string) : t :=
  mk (symbol p) (size p) (price p) (liquidation_price p) (upnl p)
     (leverage p) v.
End Position.

Module PositionList.
(** Modelled from the spec: what [get_position()] of the base bot returns,
    the long and the short position of the account. *)
Record t : Set := mk { long : Position.t; short : Position.t }.
End PositionList.

(** A reference to an order object of the store. *)
Definition ref : Set := nat.

Module OrderList.
(** Modelled from the spec: [definitions/order_list.py] is not part of the
    sources at hand. Two sequences of orders in insertion order; [add_*]
    appends, [delete_*] removes by identity and keeps the other entries in
    place. The step hands [delete_*] the very objects it met in the list,
    so identity is that of the object. *)
Record t : Set := mk { long : list ref; short : list ref }.

Definition empty : t := mk [] [].

Definition without (gone : list ref) (l : list ref) : list ref :=
  List.filter (fun r => negb (existsb (Nat.eqb r) gone)) l.

Definition add_long (l : list ref) (ol : t) : t := mk (long ol ++ l) (short ol).
Definition add_short (l : list ref) (ol : t) : t := mk (long ol) (short ol ++ l).
Definition delete_long (l : list ref) (ol : t) : t :=
  mk (without l (long ol)) (short ol).
Definition delete_short (l : list ref) (ol : t) : t :=
  mk (long ol) (without l (short ol)).
End OrderList.

Module BacktestConfig.
Record t : Set := mk {
  quantity_step : float;
  price_step : float;
  call_interval : float;
  leverage : float;
  symbol : string;
  maker_fee : float;
  taker_fee : float;
  latency : float
}.
End BacktestConfig.

(** What the bot reports through its two callbacks, and the calls of the
    strategy, in the order in which they happen. *)
Inductive Event : Set :=
  | OrderUpdate (o : Order.t)
  | AccountUpdate (balance : float) (long short : Position.t)
  | Decide (prices : list Candle.t).

(** The state of a [BacktestBot]: the fields of the base bot the step uses
    (balance, position, open orders), the pending queue, the clock, and with
    them the store of order objects and the trace of events. The fields that
    [__init__] copies out of the configuration are read from it. *)
Record BacktestBot : Set := mkBot {
  config : BacktestConfig.t;
  balance : float;
  position : PositionList.t;
  open_orders : OrderList.t;
  orders_to_execute : OrderList.t;
  current_timestamp : Z;
  heap : list Order.t;
  events : list Event
}.

Definition symbol (st : BacktestBot) : string := BacktestConfig.symbol (config st).
Definition leverage (st : BacktestBot) : float := BacktestConfig.leverage (config st).
Definition latency (st : BacktestBot) : float := BacktestConfig.latency (config st).
Definition price_step (st : BacktestBot) : float := BacktestConfig.price_step (config st).
Definition quantity_step (st : BacktestBot) : float :=
  BacktestConfig.quantity_step (config st).
Definition maker_fee (st : BacktestBot) : float := BacktestConfig.maker_fee (config st).
Definition taker_fee (st : BacktestBot) : float := BacktestConfig.taker_fee (config st).

Definition get_balance (st : BacktestBot) : float := balance st.
Definition get_position (st : BacktestBot) : PositionList.t := position st.

Definition with_account (st : BacktestBot) (b : float) (p : PositionList.t) : BacktestBot :=
  mkBot (config st) b p (open_orders st) (orders_to_execute st)
        (current_timestamp st) (heap st) (events st).
Definition with_open_orders (st : BacktestBot) (ol : OrderList.t) : BacktestBot :=
  mkBot (config st) (balance st) (position st) ol (orders_to_execute st)
        (current_timestamp st) (heap st) (events st).
Definition with_orders_to_execute (st : BacktestBot) (ol : OrderList.t) : BacktestBot :=
  mkBot (config st) (balance st) (position st) (open_orders st) ol
        (current_timestamp st) (heap st) (events st).
Definition with_current_timestamp (st : BacktestBot) (ts : Z) : BacktestBot :=
  mkBot (config st) (balance st) (position st) (open_orders st)
        (orders_to_execute st) ts (heap st) (events st).
Definition with_heap (st : BacktestBot) (h : list Order.t) : BacktestBot :=
  mkBot (config st) (balance st) (position st) (open_orders st)
        (orders_to_execute st) (current_timestamp st) h (events st).
Definition record (e : Event) (st : BacktestBot) : BacktestBot :=
  mkBot (config st) (balance st) (position st) (open_orders st)
        (orders_to_execute st) (current_timestamp st) (heap st) (events st ++ [e]).

(** *** The store of order objects *)

Definition deref (st : BacktestBot) (r : ref) : Order.t :=
  default Order.none (heap st !! r).

(** A new object takes the next free reference. *)
Definition new_object (o : Order.t) (st : BacktestBot) : ref * BacktestBot :=
  (length (heap st), with_heap st (heap st ++ [o])).

(** Assignment to fields of the object behind [r]. *)
Definition assign (r : ref) (o : Order.t) (st : BacktestBot) : BacktestBot :=
  with_heap st (<[r := o]> (heap st)).

(** Every reference held by a book or a queue designates an object. *)
Definition heap_closed (st : BacktestBot) : Prop :=
  Forall (fun r => r < length (heap st))
         (OrderList.long (open_orders st) ++ OrderList.short (open_orders st) ++
          OrderList.long (orders_to_execute st) ++ OrderList.short (orders_to_execute st)).

(** ** The base bot *)

(** Modelled from the spec: [bots/base_bot.py] is not part of the sources at
    hand. [handle_account_update] replaces balance and positions at once. *)
Definition handle_account_update (new_balance : float) (new_long new_short : Position.t)
    (st : BacktestBot) : BacktestBot :=
  record (AccountUpdate new_balance new_long new_short)
         (with_account st new_balance (PositionList.mk new_long new_short)).

(** Modelled from the spec: [bots/base_bot.py] is not part of the sources at
    hand. [handle_order_update] records the transition and forwards the order
    it is given to the book of its position side: appended on [NEW], removed
    on [FILLED], [CANCELED] and [LIQUIDATION]; on [PARTIALLY_FILLED] the entry
    takes the quantity of the order given, which for that object is the one
    it has. Removal is by identity, as everywhere in the order list. The
    argument is the object the caller built: at every call site of the step
    that is a new one, [order.copy()] or [Order(...)], which becomes an object
    of the store here. *)
Definition handle_order_update (o : Order.t) (st : BacktestBot) : BacktestBot :=
  let '(r, st) := new_object o st in
  let st := record (OrderUpdate o) st in
  if Order.action o == NEW then
    if Order.position_side o == LONG then
      with_open_orders st (OrderList.add_long [r] (open_orders st))
    else if Order.position_side o == SHORT then
      with_open_orders st (OrderList.add_short [r] (open_orders st))
    else st
  else if (Order.action o == FILLED) || (Order.action o == CANCELED)
          || (Order.action o == LQ) then
    if Order.position_side o == LONG then
      with_open_orders st (OrderList.delete_long [r] (open_orders st))
    else if Order.position_side o == SHORT then
      with_open_orders st (OrderList.delete_short [r] (open_orders st))
    else st
  else st.

(** ** The numeric helpers *)

(** The functions of [helpers/optimized.py] that the bot imports. The module
    is not part of the sources at hand: the step is stated over any
    implementation of them, with the arguments in the order of the calls. *)
Class Helpers : Set := {
  calculate_available_margin :
    float -> float -> float -> float -> float -> float -> bool -> float -> float -> float;
  quantity_to_cost : float -> float -> bool -> float -> float;
  calculate_long_pnl : float -> float -> float -> bool -> float -> float;
  calculate_short_pnl : float -> float -> float -> bool -> float -> float;
  round_down : float -> float -> float;
  calculate_new_position_size_position_price :
    float -> float -> float -> float -> float -> float * float;
  calculate_bankruptcy_price :
    float -> float -> float -> float -> float -> bool -> float -> float
}.

(** ** The exchange step *)

Section Exchange.
Context `{Helpers}.
Local Open Scope float_scope.

(** The margin left at the close of the candle, as both the liquidation
    check and the admission of pending orders compute it. *)
Definition available_margin (last_candle : Candle.t) (st : BacktestBot) : float :=
  calculate_available_margin (get_balance st)
    (Position.size (PositionList.long (get_position st)))
    (Position.price (PositionList.long (get_position st)))
    (Position.size (PositionList.short (get_position st)))
    (Position.price (PositionList.short (get_position st)))
    (Candle.close last_candle) false 1 (leverage st).

(** The order the step makes up for a liquidated side. *)
Definition liquidation_order (last_candle : Candle.t) (st : BacktestBot)
    (size : float) (position_side : string) : Order.t :=
  Order.mk (symbol st) 0 (Candle.close last_candle) (Candle.close last_candle) size
           CALCULATED SELL (current_timestamp st) LQ position_side.

Definition empty_position (st : BacktestBot) (position_side : string) : Position.t :=
  Position.mk (symbol st) 0 0 0 0 (leverage st) position_side.

Definition liquidate_long (last_candle : Candle.t) (st : BacktestBot) : BacktestBot :=
  if F.ne (Position.size (PositionList.long (get_position st))) 0 then
    let order := liquidation_order last_candle st
                   (Position.size (PositionList.long (get_position st))) LONG in
    let st := handle_order_update order st in
    handle_account_update 0 (empty_position st LONG)
                          (PositionList.short (get_position st)) st
  else st.

Definition liquidate_short (last_candle : Candle.t) (st : BacktestBot) : BacktestBot :=
  if F.ne (Position.size (PositionList.short (get_position st))) 0 then
    let order := liquidation_order last_candle st
                   (Position.size (PositionList.short (get_position st))) SHORT in
    let st := handle_order_update order st in
    handle_account_update 0 (PositionList.long (get_position st))
                          (empty_position st SHORT) st
  else st.

(** Whether an order of the long book was triggered by the candle. *)
Definition long_execution (last_candle : Candle.t) (order : Order.t) : bool :=
  let execution := false in
  let execution := if Order.type order == MARKET then true else execution in
  let execution :=
    if F.lt (Candle.low last_candle) (Order.price order) then
      if ((Order.type order == LIMIT) && (Order.side order == BUY))
         || (Order.type order == SL) then true else execution
    else execution in
  let execution :=
    if F.gt (Candle.high last_candle) (Order.price order) then
      if ((Order.type order == LIMIT) && (Order.side order == SELL))
         || (Order.type order == TP) then true else execution
    else execution in
  execution.

(** Whether an order of the short book was triggered by the candle. *)
Definition short_execution (last_candle : Candle.t) (order : Order.t) : bool :=
  let execution := false in
  let execution := if Order.type order == MARKET then true else execution in
  let execution :=
    if F.gt (Candle.high last_candle) (Order.price order) then
      if ((Order.type order == LIMIT) && (Order.side order == BUY))
         || (Order.type order == SL) then true else execution
    else execution in
  let execution :=
    if F.lt (Candle.low last_candle) (Order.price order) then
      if ((Order.type order == LIMIT) && (Order.side order == SELL))
         || (Order.type order == TP) then true else execution
    else execution in
  execution.

(** The working copy [o] before the fill: that of a market order takes the
    average price of the candle. *)
Definition working_copy (last_candle : Candle.t) (st : BacktestBot) (order : Order.t)
    : Order.t :=
  if Order.type order == MARKET then
    Order.set_price order
      (round_down (F.average [Candle.open last_candle; Candle.high last_candle;
                              Candle.low last_candle; Candle.close last_candle])
                  (price_step st))
  else order.

(** The fill of a triggered order against the volume of the candle: the
    working copy with its action, the bot after the in-place update of a
    partial fill, and the orders to remove. *)
Definition fill (last_candle : Candle.t) (order : ref) (o : Order.t)
    (st : BacktestBot) (orders_to_remove : list ref)
    : Order.t * BacktestBot * list ref :=
  if F.ge (Candle.volume last_candle) (Order.qty (deref st order)) then
    (Order.set_action o FILLED, st, orders_to_remove ++ [order])
  else
    (Order.set_qty (Order.set_action o PARTIALLY_FILLED)
                   (Order.qty o - Candle.volume last_candle),
     assign order (Order.set_qty (deref st order)
                     (Order.qty (deref st order) - Candle.volume last_candle)) st,
     orders_to_remove).

Definition fee_paid (st : BacktestBot) (order o : Order.t) : float :=
  if Order.type order == MARKET then
    - quantity_to_cost (Order.qty o) (Order.price o) false 1 * taker_fee st
  else
    - quantity_to_cost (Order.qty o) (Order.price o) false 1 * maker_fee st.

(** [o.qty if o.action == FILLED else last_candle.volume] *)
Definition filled_qty (last_candle : Candle.t) (o : Order.t) : float :=
  if Order.action o == FILLED then Order.qty o else Candle.volume last_candle.

(** The account after the fill [o] of the order [order] of the long book:
    fee, pnl and the new long position. *)
Definition settle_long (last_candle : Candle.t) (order : ref) (o : Order.t)
    (st : BacktestBot) : BacktestBot :=
  let p := PositionList.long (get_position st) in
  let fee_paid := fee_paid st (deref st order) o in
  let '(p, pnl) :=
    if Order.side (deref st order) == SELL then
      let pnl := calculate_long_pnl
                   (Position.price (PositionList.long (get_position st)))
                   (Order.price o) (filled_qty last_candle o) false 1 in
      (Position.set_qty_price p
         (calculate_new_position_size_position_price
            (Position.qty p) (Position.price p) (- filled_qty last_candle o)
            (Order.price o) (quantity_step st)), pnl)
    else
      (Position.set_qty_price p
         (calculate_new_position_size_position_price
            (Position.qty p) (Position.price p) (filled_qty last_candle o)
            (Order.price o) (quantity_step st)), 0) in
  let p := Position.set_leverage p (leverage st) in
  let p := Position.set_position_side p LONG in
  let p := Position.set_liquidation_price p
             (calculate_bankruptcy_price (get_balance st + fee_paid + pnl)
                (Position.qty p) (Position.price p)
                (Position.qty (PositionList.short (get_position st)))
                (Position.price (PositionList.short (get_position st))) false 1) in
  handle_account_update (get_balance st + fee_paid + pnl) p
                        (PositionList.short (get_position st)) st.

(** The account after the fill [o] of the order [order] of the short book.
    The position side written is [LONG], as in the source. *)
Definition settle_short (last_candle : Candle.t) (order : ref) (o : Order.t)
    (st : BacktestBot) : BacktestBot :=
  let p := PositionList.short (get_position st) in
  let fee_paid := fee_paid st (deref st order) o in
  let '(p, pnl) :=
    if Order.side (deref st order) == SELL then
      let pnl := calculate_short_pnl
                   (Position.price (PositionList.short (get_position st)))
                   (Order.price o) (filled_qty last_candle o) false 1 in
      (Position.set_qty_price p
         (calculate_new_position_size_position_price
            (Position.qty p) (Position.price p) (- filled_qty last_candle o)
            (Order.price o) (quantity_step st)), pnl)
    else
      (Position.set_qty_price p
         (calculate_new_position_size_position_price
            (Position.qty p) (Position.price p) (filled_qty last_candle o)
            (Order.price o) (quantity_step st)), 0) in
  let p := Position.set_leverage p (leverage st) in
  let p := Position.set_position_side p LONG in
  let p := Position.set_liquidation_price p
             (calculate_bankruptcy_price (get_balance st + fee_paid + pnl)
                (Position.qty (PositionList.long (get_position st)))
                (Position.price (PositionList.long (get_position st)))
                (Position.qty p) (Position.price p) false 1) in
  handle_account_update (get_balance st + fee_paid + pnl)
                        (PositionList.long (get_position st)) p st.

(** The body of the loop over the long book. *)
Definition match_long_order (last_candle : Candle.t)
    (acc : BacktestBot * list ref) (order : ref) : BacktestBot * list ref :=
  let '(st, orders_to_remove) := acc in
  let o := working_copy last_candle st (deref st order) in
  if long_execution last_candle (deref st order) then
    let '(o, st, orders_to_remove) := fill last_candle order o st orders_to_remove in
    let st := handle_order_update o st in
    (settle_long last_candle order o st, orders_to_remove)
  else (st, orders_to_remove).

(** The body of the loop over the short book. *)
Definition match_short_order (last_candle : Candle.t)
    (acc : BacktestBot * list ref) (order : ref) : BacktestBot * list ref :=
  let '(st, orders_to_remove) := acc in
  let o := working_copy last_candle st (deref st order) in
  if short_execution last_candle (deref st order) then
    let '(o, st, orders_to_remove) := fill last_candle order o st orders_to_remove in
    let st := handle_order_update o st in
    (settle_short last_candle order o st, orders_to_remove)
  else (st, orders_to_remove).

(** The matching of the long book and the removal that follows it. *)
Definition match_long_book (last_candle : Candle.t) (st : BacktestBot) : BacktestBot :=
  let '(st, orders_to_remove) :=
    fold_left (match_long_order last_candle) (OrderList.long (open_orders st)) (st, []) in
  with_open_orders st (OrderList.delete_long orders_to_remove (open_orders st)).

(** The matching of the short book and the removal that follows it, which
    the source addresses to [delete_long]. *)
Definition match_short_book (last_candle : Candle.t) (st : BacktestBot) : BacktestBot :=
  let '(st, orders_to_remove) :=
    fold_left (match_short_order last_candle) (OrderList.short (open_orders st)) (st, []) in
  with_open_orders st (OrderList.delete_long orders_to_remove (open_orders st)).

(** Whether a pending order has arrived at the exchange. *)
Definition arrived (st : BacktestBot) (order : Order.t) : bool :=
  F.le (F.of_int64 (Order.timestamp order) + latency st)
       (F.of_int64 (current_timestamp st)).

(** Whether the margin covers the order. *)
Definition affordable (last_candle : Candle.t) (st : BacktestBot) (order : Order.t) : bool :=
  F.lt (Order.qty order * Order.price order) (available_margin last_candle st).

(** The body of the two loops over the pending queue. *)
Definition admit_order (last_candle : Candle.t)
    (acc : BacktestBot * list ref) (order : ref) : BacktestBot * list ref :=
  let '(st, orders_to_remove) := acc in
  if arrived st (deref st order) then
    let st := if affordable last_candle st (deref st order)
              then handle_order_update (deref st order) st else st in
    (st, orders_to_remove ++ [order])
  else (st, orders_to_remove).

Definition admit_long (last_candle : Candle.t) (st : BacktestBot) : BacktestBot :=
  let '(st, orders_to_remove) :=
    fold_left (admit_order last_candle) (OrderList.long (orders_to_execute st)) (st, []) in
  with_orders_to_execute st
    (OrderList.delete_long orders_to_remove (orders_to_execute st)).

Definition admit_short (last_candle : Candle.t) (st : BacktestBot) : BacktestBot :=
  let '(st, orders_to_remove) :=
    fold_left (admit_order last_candle) (OrderList.short (orders_to_execute st)) (st, []) in
  with_orders_to_execute st
    (OrderList.delete_short orders_to_remove (orders_to_execute st)).

(** [execute_exchange_logic]: whether the account can continue, and the bot
    after the candle. *)
Definition execute_exchange_logic (last_candle : Candle.t) (st : BacktestBot)
    : bool * BacktestBot :=
  if F.le (available_margin last_candle st) 0 then
    (false, liquidate_short last_candle (liquidate_long last_candle st))
  else
    let st := match_long_book last_candle st in
    let st := match_short_book last_candle st in
    let st := admit_long last_candle st in
    let st := admit_short last_candle st in
    (true, st).

End Exchange.

(** ** The entry points of the strategy *)

(** Assignment to one field of the object behind [order]. *)
Definition update (order : ref) (f : Order.t -> Order.t) (st : BacktestBot) : BacktestBot :=
  assign order (f (deref st order)) st.

(** The body of the loops of [create_orders] and [cancel_orders], which
    differ in the action they stamp. *)
Definition submit_order (action : string)
    (acc : BacktestBot * list ref * list ref) (order : ref)
    : BacktestBot * list ref * list ref :=
  let '(st, long_add, short_add) := acc in
  let st := update order (fun o => Order.set_symbol o (symbol st)) st in
  let st := update order (fun o => Order.set_timestamp o (current_timestamp st)) st in
  let st := update order (fun o => Order.set_action o action) st in
  if Order.position_side (deref st order) == LONG then
    (st, long_add ++ [order], short_add)
  else if Order.position_side (deref st order) == SHORT then
    (st, long_add, short_add ++ [order])
  else (st, long_add, short_add).

Definition submit_orders (action : string) (orders : list ref) (st : BacktestBot)
    : BacktestBot :=
  let '(st, long_add, short_add) := fold_left (submit_order action) orders (st, [], []) in
  let st := with_orders_to_execute st (OrderList.add_long long_add (orders_to_execute st)) in
  with_orders_to_execute st (OrderList.add_short short_add (orders_to_execute st)).

Definition create_orders (orders_to_create : list ref) (st : BacktestBot) : BacktestBot :=
  submit_orders NEW orders_to_create st.

Definition cancel_orders (orders_to_cancel : list ref) (st : BacktestBot) : BacktestBot :=
  submit_orders CANCELED orders_to_cancel st.

(** ** The driver *)

Module Row.
(** A row of the data: time, open, high, low, close, qty. *)
Record t : Set := mk {
  time : float;
  open : float;
  high : float;
  low : float;
  close : float;
  qty : float
}.
End Row.

Definition prepare_candle (row : Row.t) : Candle.t :=
  Candle.mk (Row.open row) (Row.high row) (Row.low row) (Row.close row) (Row.qty row).

(** What a strategy asks of the bot while it decides. *)
Inductive Intent : Set :=
  | Create (orders : list Order.t)
  | Cancel (orders : list Order.t).

(** Modelled from the spec: the strategy is bound into the class when it is
    loaded and is not part of the sources at hand. It has a call interval in
    seconds, and a [decide] that sees the bot and the candles gathered since
    its last call and answers with calls of [create_orders] and
    [cancel_orders]. *)
Record Strategy : Type := {
  call_interval : float;
  strategy_decide : BacktestBot -> list Candle.t -> list Intent
}.

(** The orders a strategy builds become objects of the store. *)
Definition new_objects (orders : list Order.t) (st : BacktestBot)
    : list ref * BacktestBot :=
  (seq (length (heap st)) (length orders), with_heap st (heap st ++ orders)).

Definition serve (st : BacktestBot) (i : Intent) : BacktestBot :=
  match i with
  | Create orders => let '(rs, st) := new_objects orders st in create_orders rs st
  | Cancel orders => let '(rs, st) := new_objects orders st in cancel_orders rs st
  end.

(** Modelled from the spec: [decide] of the base bot hands the candles to the
    strategy, whose calls are then served in turn. *)
Definition decide (strategy : Strategy) (price_list : list Candle.t) (st : BacktestBot)
    : BacktestBot :=
  fold_left serve (strategy_decide strategy st price_list) (record (Decide price_list) st).

Section Driver.
Context `{Helpers}.
Variable strategy : Strategy.
Local Open Scope float_scope.

(** The loop variables after one row: the loop was left by [return], or it
    goes on with the bot, the buffer of candles and the time of the last
    call of the strategy. *)
Inductive Tick : Set :=
  | Halted (st : BacktestBot)
  | Running (st : BacktestBot) (price_list : list Candle.t) (last_update : float).

(** The body of the loop of [start_websocket]. *)
Definition tick (i : Row.t) (st : BacktestBot) (price_list : list Candle.t)
    (last_update : float) : Tick :=
  let st := with_current_timestamp st (F.to_int64 (Row.time i)) in
  let candle := prepare_candle i in
  let '(cont, st) := execute_exchange_logic candle st in
  if negb cont then Halted st
  else
    let price_list := price_list ++ [candle] in
    if F.ge (F.of_int64 (current_timestamp st) - last_update)
            (call_interval strategy * 1000) then
      let last_update := F.of_int64 (current_timestamp st) in
      let st := decide strategy price_list st in
      Running st [] last_update
    else Running st price_list last_update.

Fixpoint iterate (data : list Row.t) (st : BacktestBot)
    (price_list : list Candle.t) (last_update : float) : BacktestBot :=
  match data with
  | [] => st
  | i :: data =>
      match tick i st price_list last_update with
      | Halted st => st
      | Running st price_list last_update => iterate data st price_list last_update
      end
  end.

(** [start_websocket]: the bot after the data; reading [data[0, 0]] of
    empty data raises. *)
Definition start_websocket (data : list Row.t) (st : BacktestBot) : option BacktestBot :=
  match data with
  | [] => None
  | first :: _ => Some (iterate data st [] (Row.time first))
  end.
End Driver.

(** ** The helpers as the specification describes them *)

Module SpecHelpers.
Local Open Scope float_scope.

(** Modelled from the spec: the largest multiple of [step] that is at most
    [x]. *)
Definition round_down (x step : float) : float := F.floor (x / step) * step.

(** Modelled from the spec: [qty * price * multiplier] for linear contracts,
    the only ones the bot asks for. *)
Definition quantity_to_cost (qty price : float) (inverse : bool)
    (contract_multiplier : float) : float :=
  qty * price * contract_multiplier.

(** Modelled from the spec: [(exit - entry) * qty * mult]. *)
Definition calculate_long_pnl (entry exit qty : float) (inverse : bool)
    (mult : float) : float :=
  (exit - entry) * qty * mult.

(** Modelled from the spec: [(entry - exit) * qty * mult]. *)
Definition calculate_short_pnl (entry exit qty : float) (inverse : bool)
    (mult : float) : float :=
  (entry - exit) * qty * mult.

(** Modelled from the spec: an increase gives the sum of the quantities at
    the volume-weighted average price; a decrease of at most the old
    quantity keeps the price, or drops it to 0 with a quantity that rounds
    to 0. A decrease beyond the old quantity is not specified and is
    treated as the other decreases; no change for a zero quantity. *)
Definition calculate_new_position_size_position_price
    (old_qty old_price delta_qty fill_price qty_step : float) : float * float :=
  if F.gt delta_qty 0 then
    let new_qty := old_qty + delta_qty in
    (new_qty, (old_qty * old_price + delta_qty * fill_price) / new_qty)
  else if F.lt delta_qty 0 then
    let new_qty := old_qty - abs delta_qty in
    if F.eq (round_down (new_qty + qty_step / 2) qty_step) 0
    then (new_qty, 0) else (new_qty, old_price)
  else (old_qty, old_price).

(** Modelled from the spec: the balance, less the margin required on both
    sides, [qty * price * mult / leverage] each, plus the pnl of both sides
    at the mark price. *)
Definition calculate_available_margin
    (balance long_qty long_price short_qty short_price mark_price : float)
    (inverse : bool) (mult leverage : float) : float :=
  balance
  - (long_qty * long_price * mult / leverage + short_qty * short_price * mult / leverage)
  + (calculate_long_pnl long_price mark_price long_qty inverse mult
     + calculate_short_pnl short_price mark_price short_qty inverse mult).

(** Modelled from the spec: the mark price at which nothing is left of the
    balance and the pnl of both sides; 0 when no price does that. The
    function is not given the leverage. *)
Definition calculate_bankruptcy_price
    (balance long_qty long_price short_qty short_price : float)
    (inverse : bool) (mult : float) : float :=
  if F.eq (long_qty * mult - short_qty * mult) 0 then 0
  else
    let mark := (long_qty * mult * long_price - short_qty * mult * short_price - balance)
                / (long_qty * mult - short_qty * mult) in
    if F.gt mark 0 then mark else 0.

Definition helpers : Helpers :=
  Build_Helpers calculate_available_margin quantity_to_cost calculate_long_pnl
                calculate_short_pnl round_down
                calculate_new_position_size_position_price
                calculate_bankruptcy_price.
End SpecHelpers.

(** * Properties *)

(** ** Bookkeeping of the state *)

Lemma events_handle_order_update (o : Order.t) (st : BacktestBot) :
  events (handle_order_update o st) = events st ++ [OrderUpdate o].
Proof.
  unfold handle_order_update, new_object.
  repeat match goal with |- context [if ?b then _ else _] => destruct b end;
    reflexivity.
Qed.

Lemma balance_handle_order_update (o : Order.t) (st : BacktestBot) :
  balance (handle_order_update o st) = balance st.
Proof.
  unfold handle_order_update, new_object.
  repeat match goal with |- context [if ?b then _ else _] => destruct b end;
    reflexivity.
Qed.

Lemma position_handle_order_update (o : Order.t) (st : BacktestBot) :
  position (handle_order_update o st) = position st.
Proof.
  unfold handle_order_update, new_object.
  repeat match goal with |- context [if ?b then _ else _] => destruct b end;
    reflexivity.
Qed.

Lemma config_handle_order_update (o : Order.t) (st : BacktestBot) :
  config (handle_order_update o st) = config st.
Proof.
  unfold handle_order_update, new_object.
  repeat match goal with |- context [if ?b then _ else _] => destruct b end;
    reflexivity.
Qed.

Lemma current_timestamp_handle_order_update (o : Order.t) (st : BacktestBot) :
  current_timestamp (handle_order_update o st) = current_timestamp st.
Proof.
  unfold handle_order_update, new_object.
  repeat match goal with |- context [if ?b then _ else _] => destruct b end;
    reflexivity.
Qed.

Lemma orders_to_execute_handle_order_update (o : Order.t) (st : BacktestBot) :
  orders_to_execute (handle_order_update o st) = orders_to_execute st.
Proof.
  unfold handle_order_update, new_object.
  repeat match goal with |- context [if ?b then _ else _] => destruct b end;
    reflexivity.
Qed.

Lemma heap_handle_order_update (o : Order.t) (st : BacktestBot) :
  heap (handle_order_update o st) = heap st ++ [o].
Proof.
  unfold handle_order_update, new_object.
  repeat match goal with |- context [if ?b then _ else _] => destruct b end;
    reflexivity.
Qed.

Lemma events_handle_account_update (b : float) (l s : Position.t) (st : BacktestBot) :
  events (handle_account_update b l s st) = events st ++ [AccountUpdate b l s].
Proof. reflexivity. Qed.

Lemma balance_handle_account_update (b : float) (l s : Position.t) (st : BacktestBot) :
  balance (handle_account_update b l s st) = b.
Proof. reflexivity. Qed.

Lemma position_handle_account_update (b : float) (l s : Position.t) (st : BacktestBot) :
  position (handle_account_update b l s st) = PositionList.mk l s.
Proof. reflexivity. Qed.

Lemma config_handle_account_update (b : float) (l s : Position.t) (st : BacktestBot) :
  config (handle_account_update b l s st) = config st.
Proof. reflexivity. Qed.

Lemma current_timestamp_handle_account_update (b : float) (l s : Position.t)
    (st : BacktestBot) :
  current_timestamp (handle_account_update b l s st) = current_timestamp st.
Proof. reflexivity. Qed.

Lemma heap_handle_account_update (b : float) (l s : Position.t) (st : BacktestBot) :
  heap (handle_account_update b l s st) = heap st.
Proof. reflexivity. Qed.

Lemma open_orders_handle_account_update (b : float) (l s : Position.t) (st : BacktestBot) :
  open_orders (handle_account_update b l s st) = open_orders st.
Proof. reflexivity. Qed.

Lemma orders_to_execute_handle_account_update (b : float) (l s : Position.t)
    (st : BacktestBot) :
  orders_to_execute (handle_account_update b l s st) = orders_to_execute st.
Proof. reflexivity. Qed.

Create Rewrite HintDb bot.
#[global] Hint Rewrite events_handle_order_update balance_handle_order_update
  position_handle_order_update config_handle_order_update
  current_timestamp_handle_order_update orders_to_execute_handle_order_update
  heap_handle_order_update events_handle_account_update
  balance_handle_account_update position_handle_account_update
  config_handle_account_update current_timestamp_handle_account_update
  heap_handle_account_update open_orders_handle_account_update
  orders_to_execute_handle_account_update : bot.

(** ** Liquidation *)

Section Liquidation.
Context `{Helpers}.
Local Open Scope float_scope.

Variables (last_candle : Candle.t) (st : BacktestBot).

Let long_open : bool := F.ne (Position.size (PositionList.long (position st))) 0.
Let short_open : bool := F.ne (Position.size (PositionList.short (position st))) 0.

(** The synthetic order of a side, written out. *)
Let sell_off (position_side : string) (size : float) : Order.t :=
  Order.mk (symbol st) 0 (Candle.close last_candle) (Candle.close last_candle)
           size CALCULATED SELL (current_timestamp st) LQ position_side.

Let flat (position_side : string) : Position.t :=
  Position.mk (symbol st) 0 0 0 0 (leverage st) position_side.

(** C1. When the available margin at the close of the candle is at most 0,
    the step returns [False]; for the long side and then for the short
    side, if the size of the position is not 0, it emits through
    [handle_order_update] an order of type CALCULATED, action LIQUIDATION,
    side SELL, at the close, for the size of that position, and then calls
    [handle_account_update] with balance 0 and that side empty (the other
    side as it is by then). Nothing else is emitted. *)
Theorem liquidation_halts :
  F.le (available_margin last_candle st) 0 = true ->
  let '(cont, st') := execute_exchange_logic last_candle st in
  let long' := if long_open then flat LONG else PositionList.long (position st) in
  let short' := if short_open then flat SHORT else PositionList.short (position st) in
  cont = false /\
  events st' =
    events st
    ++ (if long_open
        then [OrderUpdate (sell_off LONG (Position.size (PositionList.long (position st))));
              AccountUpdate 0 (flat LONG) (PositionList.short (position st))]
        else [])
    ++ (if short_open
        then [OrderUpdate (sell_off SHORT (Position.size (PositionList.short (position st))));
              AccountUpdate 0 long' (flat SHORT)]
        else []) /\
  position st' = PositionList.mk long' short' /\
  balance st' = (if long_open || short_open then 0 else balance st).
Proof.
  intros Hmargin. unfold execute_exchange_logic. rewrite Hmargin.
  unfold liquidate_short, liquidate_long, get_position.
  subst long_open short_open sell_off flat. cbv zeta.
  unfold liquidation_order, empty_position, symbol, leverage.
  destruct (F.ne (Position.size (PositionList.long (position st))) 0);
    autorewrite with bot; cbn [PositionList.long PositionList.short];
    destruct (F.ne (Position.size (PositionList.short (position st))) 0);
    autorewrite with bot; cbn [orb PositionList.long PositionList.short];
    repeat split;
    rewrite <- ?app_assoc, ?app_nil_r; try reflexivity;
    destruct (position st); reflexivity.
Qed.
End Liquidation.

(** ** The execution trigger *)

Section Trigger.
Variables (last_candle : Candle.t) (order : Order.t).

Lemma long_market_executes :
  Order.type order = MARKET -> long_execution last_candle order = true.
Proof.
  intros Ht. unfold long_execution. rewrite Ht. cbn.
  repeat match goal with |- context [if ?b then _ else _] => destruct b end;
    reflexivity.
Qed.



Lemma short_market_executes :
  Order.type order = MARKET -> short_execution last_candle order = true.
Proof.
  intros Ht. unfold short_execution. rewrite Ht. cbn.
  repeat match goal with |- context [if ?b then _ else _] => destruct b end;
    reflexivity.
Qed.


End Trigger.

(** ** The store *)


Lemma deref_grown (st : BacktestBot) (h : list Order.t) (r : ref) :
  r < length (heap st) -> deref (with_heap st (heap st ++ h)) r = deref st r.
Proof.
  intros Hr. unfold deref. cbn. now rewrite lookup_app_l.
Qed.

Lemma deref_assign_other (st : BacktestBot) (r r' : ref) (o : Order.t) :
  r <> r' -> deref (assign r o st) r' = deref st r'.
Proof.
  intros Hr. unfold deref, assign. cbn. now rewrite list_lookup_insert_ne.
Qed.

Lemma deref_assign_same (st : BacktestBot) (r : ref) (o : Order.t) :
  r < length (heap st) -> deref (assign r o st) r = o.
Proof.
  intros Hr. unfold deref, assign. cbn. now rewrite list_lookup_insert_eq.
Qed.

Lemma deref_assign_dangling (st : BacktestBot) (r : ref) (o : Order.t) :
  length (heap st) <= r -> assign r o st = with_heap st (heap st).
Proof.
  intros Hr. unfold assign. now rewrite list_insert_ge.
Qed.

Lemma length_heap_assign (st : BacktestBot) (r : ref) (o : Order.t) :
  length (heap (assign r o st)) = length (heap st).
Proof. unfold assign. cbn. apply length_insert. Qed.

Lemma deref_handle_order_update (o : Order.t) (st : BacktestBot) (r : ref) :
  r < length (heap st) -> deref (handle_order_update o st) r = deref st r.
Proof.
  intros Hr. unfold deref. rewrite heap_handle_order_update.
  now rewrite lookup_app_l.
Qed.

Lemma deref_handle_order_update_new (o : Order.t) (st : BacktestBot) :
  deref (handle_order_update o st) (length (heap st)) = o.
Proof.
  unfold deref. rewrite heap_handle_order_update.
  rewrite lookup_app_r by lia. now rewrite Nat.sub_diag.
Qed.

Lemma deref_handle_account_update (b : float) (l s : Position.t) (st : BacktestBot)
    (r : ref) :
  deref (handle_account_update b l s st) r = deref st r.
Proof. reflexivity. Qed.

(** Removing an object that is not in a list leaves the list as it is. *)
Lemma without_absent (gone l : list ref) :
  Forall (fun r => ~ In r gone) l -> OrderList.without gone l = l.
Proof.
  unfold OrderList.without.
  induction 1 as [| r l Hr _ IH]; [reflexivity |].
  simpl. destruct (existsb (Nat.eqb r) gone) eqn:Hex; simpl.
  - apply existsb_exists in Hex as (x & Hx & Heq).
    apply Nat.eqb_eq in Heq. now subst.
  - now rewrite IH.
Qed.

Lemma without_fresh (n : nat) (l : list ref) :
  Forall (fun r => r < n) l -> OrderList.without [n] l = l.
Proof.
  intros Hl. apply without_absent.
  eapply Forall_impl; [exact Hl |]. cbn. intros r Hr [-> | []]. lia.
Qed.

(** What is kept of a list when some of its entries are removed. *)
Lemma in_without (gone l : list ref) (r : ref) :
  In r (OrderList.without gone l) <-> In r l /\ ~ In r gone.
Proof.
  unfold OrderList.without. rewrite filter_In, negb_true_iff.
  split; intros [Hl Hg]; split; trivial.
  - intros Hin. apply not_true_iff_false in Hg. apply Hg.
    apply existsb_exists. exists r. split; [trivial | apply Nat.eqb_refl].
  - apply not_true_is_false. intros Hex.
    apply existsb_exists in Hex as (x & Hx & Heq).
    apply Nat.eqb_eq in Heq. now subst.
Qed.

(** The references of the open books designate objects. *)
Definition books_closed (st : BacktestBot) : Prop :=
  Forall (fun r => r < length (heap st)) (OrderList.long (open_orders st)) /\
  Forall (fun r => r < length (heap st)) (OrderList.short (open_orders st)).

Lemma heap_closed_books (st : BacktestBot) : heap_closed st -> books_closed st.
Proof.
  unfold heap_closed, books_closed. rewrite !Forall_app. tauto.
Qed.

(** With closed books, an order that is not [NEW] leaves the books alone:
    the object handed over is in none of them. *)
Lemma open_orders_handle_order_update (o : Order.t) (st : BacktestBot) :
  books_closed st -> (Order.action o == NEW) = false ->
  open_orders (handle_order_update o st) = open_orders st.
Proof.
  intros [Hl Hs] Hnew. unfold handle_order_update, new_object. rewrite Hnew.
  repeat match goal with |- context [if ?b then _ else _] => destruct b end;
    cbn; try reflexivity;
    unfold OrderList.delete_long, OrderList.delete_short;
    rewrite without_fresh by assumption; now destruct (open_orders st).
Qed.

(** ** The matching loops *)

Section Matching.
Context `{Helpers}.
Variable last_candle : Candle.t.

Lemma settle_long_account (order : ref) (o : Order.t) (st : BacktestBot) :
  exists b p,
    settle_long last_candle order o st
    = handle_account_update b p (PositionList.short (position st)) st /\
    Position.position_side p = LONG.
Proof.
  unfold settle_long.
  destruct (Order.side (deref st order) == SELL); do 2 eexists; split; reflexivity.
Qed.

Lemma settle_short_account (order : ref) (o : Order.t) (st : BacktestBot) :
  exists b p,
    settle_short last_candle order o st
    = handle_account_update b (PositionList.long (position st)) p st /\
    Position.position_side p = LONG.
Proof.
  unfold settle_short.
  destruct (Order.side (deref st order) == SELL); do 2 eexists; split; reflexivity.
Qed.

(** The trigger does not look at the quantity. *)
Lemma long_execution_set_qty (o : Order.t) (q : float) :
  long_execution last_candle (Order.set_qty o q) = long_execution last_candle o.
Proof. reflexivity. Qed.

Lemma short_execution_set_qty (o : Order.t) (q : float) :
  short_execution last_candle (Order.set_qty o q) = short_execution last_candle o.
Proof. reflexivity. Qed.

(** What a matching loop may have done to the bot [st0] when it has
    reached [st]: books, queue, configuration and clock are as they were,
    the store has grown, and an object of [st0] differs at most in its
    quantity, and not at all unless the trigger [exec] holds of it. *)
Definition matched_from (exec : Order.t -> bool) (st0 st : BacktestBot) : Prop :=
  open_orders st = open_orders st0 /\
  orders_to_execute st = orders_to_execute st0 /\
  config st = config st0 /\
  current_timestamp st = current_timestamp st0 /\
  length (heap st0) <= length (heap st) /\
  forall r, r < length (heap st0) ->
    Order.set_qty (deref st0 r) (Order.qty (deref st r)) = deref st r /\
    (exec (deref st0 r) = false -> deref st r = deref st0 r).

Lemma matched_from_refl (exec : Order.t -> bool) (st : BacktestBot) :
  matched_from exec st st.
Proof.
  repeat split; trivial. now destruct (deref st r).
Qed.

(** The fill of a triggered order keeps the invariant. *)
Lemma fill_matched_from (exec : Order.t -> bool) (st0 st : BacktestBot)
    (order : ref) (o : Order.t) (rm : list ref) :
  matched_from exec st0 st -> exec (deref st0 order) = true ->
  let '(o', st', rm') := fill last_candle order o st rm in
  matched_from exec st0 st' /\
  (Order.action o' == NEW) = false /\
  (rm' = rm \/ rm' = rm ++ [order]).
Proof.
  intros (Hoo & Hq & Hc & Ht & Hlen & Hobj) Hexec. unfold fill.
  destruct (F.ge _ _).
  - repeat split; auto; apply Hobj; assumption.
  - split; [| split; [reflexivity | now left]].
    repeat split; trivial.
    + rewrite length_heap_assign. exact Hlen.
    + destruct (Nat.eq_dec order r) as [-> | Hne].
      * destruct (Nat.lt_ge_cases r (length (heap st))) as [Hin | Hout].
        -- rewrite deref_assign_same by assumption.
           destruct (Hobj r H0) as [<- _]. now destruct (deref st0 r).
        -- lia.
      * rewrite deref_assign_other by assumption. now apply Hobj.
    + intros Hno. destruct (Nat.eq_dec order r) as [-> | Hne].
      * congruence.
      * rewrite deref_assign_other by assumption. now apply Hobj.
Qed.

(** The emission and the account update that follow a fill keep it too. *)
Lemma report_matched_from (exec : Order.t -> bool) (st0 st : BacktestBot)
    (o : Order.t) (b : float) (l s : Position.t) :
  books_closed st0 -> matched_from exec st0 st -> (Order.action o == NEW) = false ->
  matched_from exec st0 (handle_account_update b l s (handle_order_update o st)).
Proof.
  intros [Hcl Hcs] (Hoo & Hq & Hc & Ht & Hlen & Hobj) Hnew.
  assert (Hclosed : books_closed st).
  { unfold books_closed. rewrite Hoo.
    split; (eapply Forall_impl; [eassumption | cbn; intros; lia]). }
  unfold matched_from. autorewrite with bot.
  rewrite (open_orders_handle_order_update o st Hclosed Hnew).
  repeat split; trivial.
  - rewrite length_app. lia.
  - rewrite deref_handle_account_update, deref_handle_order_update by lia.
    now apply Hobj.
  - rewrite deref_handle_account_update, deref_handle_order_update by lia.
    now apply Hobj.
Qed.

Lemma match_long_order_matched_from (st0 st : BacktestBot) (rm : list ref) (order : ref) :
  books_closed st0 -> matched_from (long_execution last_candle) st0 st ->
  order < length (heap st0) ->
  let '(st', rm') := match_long_order last_candle (st, rm) order in
  matched_from (long_execution last_candle) st0 st' /\
  (rm' = rm \/
   rm' = rm ++ [order] /\ long_execution last_candle (deref st0 order) = true).
Proof.
  intros Hclosed Hinv Horder. unfold match_long_order.
  assert (Hsame : long_execution last_candle (deref st order)
                  = long_execution last_candle (deref st0 order)).
  { destruct Hinv as (_ & _ & _ & _ & _ & Hobj).
    destruct (Hobj order Horder) as [<- _]. apply long_execution_set_qty. }
  rewrite Hsame. destruct (long_execution last_candle (deref st0 order)) eqn:Hexec.
  - pose proof (fill_matched_from _ st0 st order
                  (working_copy last_candle st (deref st order)) rm Hinv Hexec) as Hfill.
    destruct (fill _ _ _ _ _) as [[o' st1] rm1].
    destruct Hfill as (Hinv1 & Hnew & Hrm).
    destruct (settle_long_account order o' (handle_order_update o' st1))
      as (b & p & -> & _).
    split; [now apply report_matched_from |].
    destruct Hrm as [-> | ->]; auto.
  - auto.
Qed.

Lemma match_short_order_matched_from (st0 st : BacktestBot) (rm : list ref) (order : ref) :
  books_closed st0 -> matched_from (short_execution last_candle) st0 st ->
  order < length (heap st0) ->
  let '(st', rm') := match_short_order last_candle (st, rm) order in
  matched_from (short_execution last_candle) st0 st' /\
  (rm' = rm \/
   rm' = rm ++ [order] /\ short_execution last_candle (deref st0 order) = true).
Proof.
  intros Hclosed Hinv Horder. unfold match_short_order.
  assert (Hsame : short_execution last_candle (deref st order)
                  = short_execution last_candle (deref st0 order)).
  { destruct Hinv as (_ & _ & _ & _ & _ & Hobj).
    destruct (Hobj order Horder) as [<- _]. apply short_execution_set_qty. }
  rewrite Hsame. destruct (short_execution last_candle (deref st0 order)) eqn:Hexec.
  - pose proof (fill_matched_from _ st0 st order
                  (working_copy last_candle st (deref st order)) rm Hinv Hexec) as Hfill.
    destruct (fill _ _ _ _ _) as [[o' st1] rm1].
    destruct Hfill as (Hinv1 & Hnew & Hrm).
    destruct (settle_short_account order o' (handle_order_update o' st1))
      as (b & p & -> & _).
    split; [now apply report_matched_from |].
    destruct Hrm as [-> | ->]; auto.
  - auto.
Qed.

(** A loop whose body keeps the invariant and removes triggered orders
    only, keeps it over any list of objects. *)
Lemma loop_matched_from (exec : Order.t -> bool)
    (body : BacktestBot * list ref -> ref -> BacktestBot * list ref)
    (st0 : BacktestBot) :
  (forall st rm order,
      matched_from exec st0 st -> order < length (heap st0) ->
      let '(st', rm') := body (st, rm) order in
      matched_from exec st0 st' /\
      (rm' = rm \/ rm' = rm ++ [order] /\ exec (deref st0 order) = true)) ->
  forall (l : list ref) (st : BacktestBot) (rm : list ref),
    Forall (fun r => r < length (heap st0)) l ->
    matched_from exec st0 st ->
    Forall (fun r => exec (deref st0 r) = true) rm ->
    let '(st', rm') := fold_left body l (st, rm) in
    matched_from exec st0 st' /\ Forall (fun r => exec (deref st0 r) = true) rm'.
Proof.
  intros Hbody l. induction l as [| order l IH]; intros st rm Hl Hinv Hrm.
  - cbn. auto.
  - cbn [fold_left]. inversion Hl as [| ? ? Horder Hl']; subst.
    specialize (Hbody st rm order Hinv Horder).
    destruct (body (st, rm) order) as [st1 rm1].
    destruct Hbody as [Hinv1 Hrm1].
    apply IH; trivial.
    destruct Hrm1 as [-> | [-> Hexec]]; trivial.
    apply Forall_app. split; trivial. now constructor.
Qed.
End Matching.

Section Untouched.
Context `{Helpers}.
Variables (last_candle : Candle.t) (st : BacktestBot).
Hypothesis Hclosed : books_closed st.

Lemma match_long_loop :
  let '(st', rm) :=
    fold_left (match_long_order last_candle) (OrderList.long (open_orders st)) (st, []) in
  matched_from (long_execution last_candle) st st' /\
  Forall (fun r => long_execution last_candle (deref st r) = true) rm.
Proof.
  apply (loop_matched_from (long_execution last_candle)
           (match_long_order last_candle) st).
  - intros st1 rm order Hinv Horder.
    now apply match_long_order_matched_from.
  - apply Hclosed.
  - apply matched_from_refl.
  - constructor.
Qed.

Lemma match_short_loop :
  let '(st', rm) :=
    fold_left (match_short_order last_candle) (OrderList.short (open_orders st)) (st, []) in
  matched_from (short_execution last_candle) st st' /\
  Forall (fun r => short_execution last_candle (deref st r) = true) rm.
Proof.
  apply (loop_matched_from (short_execution last_candle)
           (match_short_order last_candle) st).
  - intros st1 rm order Hinv Horder.
    now apply match_short_order_matched_from.
  - apply Hclosed.
  - apply matched_from_refl.
  - constructor.
Qed.


End Untouched.


(** ** Fills *)

(** The orders reported through [handle_order_update], in order. *)
Definition order_updates (evs : list Event) : list Order.t :=
  flat_map (fun e => match e with OrderUpdate o => [o] | _ => [] end) evs.

(** The windows of candles handed to the strategy, in order. *)
Definition decisions (evs : list Event) : list (list Candle.t) :=
  flat_map (fun e => match e with Decide prices => [prices] | _ => [] end) evs.

Section Fills.
Context `{Helpers}.
Variable last_candle : Candle.t.

Lemma fill_account (order : ref) (o : Order.t) (st : BacktestBot) (rm : list ref) :
  let '(o', st', rm') := fill last_candle order o st rm in
  events st' = events st /\ balance st' = balance st /\ position st' = position st /\
  config st' = config st /\ open_orders st' = open_orders st /\
  orders_to_execute st' = orders_to_execute st /\
  current_timestamp st' = current_timestamp st /\
  Order.price o' = Order.price o /\
  (Order.action o' = FILLED \/ Order.action o' = PARTIALLY_FILLED).
Proof.
  unfold fill. destruct (F.ge _ _); cbn; repeat split; auto.
Qed.

(** What one turn of the loop over the long book reports for a triggered
    order: the working copy after the fill, then the account. *)
Lemma match_long_order_events (st : BacktestBot) (rm : list ref) (order : ref) :
  long_execution last_candle (deref st order) = true ->
  exists o b l s,
    events (fst (match_long_order last_candle (st, rm) order))
    = events st ++ [OrderUpdate o; AccountUpdate b l s] /\
    Order.price o = Order.price (working_copy last_candle st (deref st order)) /\
    (Order.action o = FILLED \/ Order.action o = PARTIALLY_FILLED) /\
    Position.position_side l = LONG /\
    position (fst (match_long_order last_candle (st, rm) order)) = PositionList.mk l s.
Proof.
  intros Hexec. unfold match_long_order. rewrite Hexec.
  pose proof (fill_account order (working_copy last_candle st (deref st order)) st rm)
    as Hfill.
  destruct (fill _ _ _ _ _) as [[o' st1] rm1].
  destruct Hfill as (Hev & _ & _ & _ & _ & _ & _ & Hprice & Haction).
  destruct (settle_long_account last_candle order o' (handle_order_update o' st1))
    as (b & p & Heq & Hside).
  exists o', b, p, (PositionList.short (position (handle_order_update o' st1))).
  cbn [fst]. rewrite Heq. autorewrite with bot. rewrite Hev, <- app_assoc.
  repeat split; trivial.
Qed.

(** The same for the short book; the position written into the short slot
    carries the side [LONG]. *)
Lemma match_short_order_events (st : BacktestBot) (rm : list ref) (order : ref) :
  short_execution last_candle (deref st order) = true ->
  exists o b l s,
    events (fst (match_short_order last_candle (st, rm) order))
    = events st ++ [OrderUpdate o; AccountUpdate b l s] /\
    Order.price o = Order.price (working_copy last_candle st (deref st order)) /\
    (Order.action o = FILLED \/ Order.action o = PARTIALLY_FILLED) /\
    Position.position_side s = LONG /\
    position (fst (match_short_order last_candle (st, rm) order)) = PositionList.mk l s.
Proof.
  intros Hexec. unfold match_short_order. rewrite Hexec.
  pose proof (fill_account order (working_copy last_candle st (deref st order)) st rm)
    as Hfill.
  destruct (fill _ _ _ _ _) as [[o' st1] rm1].
  destruct Hfill as (Hev & _ & _ & _ & _ & _ & _ & Hprice & Haction).
  destruct (settle_short_account last_candle order o' (handle_order_update o' st1))
    as (b & p & Heq & Hside).
  exists o', b, (PositionList.long (position (handle_order_update o' st1))), p.
  cbn [fst]. rewrite Heq. autorewrite with bot. rewrite Hev, <- app_assoc.
  repeat split; trivial.
Qed.

Lemma working_copy_market (st : BacktestBot) (order : Order.t) :
  Order.type order = MARKET ->
  Order.price (working_copy last_candle st order)
  = round_down (F.average [Candle.open last_candle; Candle.high last_candle;
                           Candle.low last_candle; Candle.close last_candle])
               (price_step st).
Proof.
  intros Ht. unfold working_copy. now rewrite Ht.
Qed.
End Fills.

(** ** Scenarios *)

Module Scenario.
Local Open Scope float_scope.

Definition settings : BacktestConfig.t :=
  BacktestConfig.mk 1 1 60 10 "BTCUSDT" 0.000244140625 0.00048828125 500.

Definition flat (position_side : string) : Position.t :=
  Position.mk "BTCUSDT" 0 0 0 0 10 position_side.

Definition no_position : PositionList.t := PositionList.mk (flat LONG) (flat SHORT).

(** A bot at time 1000 with the given balance and position, the orders
    [long] and [short] open on the two books, and nothing pending. *)
Definition bot (balance : float) (position : PositionList.t)
    (long short : list Order.t) : BacktestBot :=
  mkBot settings balance position
        (OrderList.mk (seq 0 (length long)) (seq (length long) (length short)))
        OrderList.empty 1000 (long ++ short) [].

Definition candle_99_101 (volume : float) : Candle.t := Candle.mk 100 101 99 100 volume.

Definition limit_buy_long (qty price : float) : Order.t :=
  Order.mk "BTCUSDT" 1 price price qty LIMIT BUY 0 NEW LONG.

Definition limit_sell_short (qty price : float) : Order.t :=
  Order.mk "BTCUSDT" 2 price price qty LIMIT SELL 0 NEW SHORT.

Definition market_buy_long (qty : float) : Order.t :=
  Order.mk "BTCUSDT" 3 0 0 qty MARKET BUY 0 NEW LONG.

(** The bot [st] at time [ts] with further orders pending. *)
Definition pending (ts : Z) (long short : list Order.t) (st : BacktestBot)
    : BacktestBot :=
  mkBot (config st) (balance st) (position st) (open_orders st)
        (OrderList.mk (seq (length (heap st)) (length long))
                      (seq (length (heap st) + length long) (length short)))
        ts (heap st ++ long ++ short) (events st).

(** An order as the strategy hands it over, before it is stamped. *)
Definition intent (type side position_side : string) (qty price : float) : Order.t :=
  Order.mk "" 7 price price qty type side 0 "" position_side.

Definition step (last_candle : Candle.t) (st : BacktestBot) : bool * BacktestBot :=
  @execute_exchange_logic SpecHelpers.helpers last_candle st.
End Scenario.

(** The full fill of the specification: the LIMIT BUY LONG order of 1 at 100
    against a candle with low 99, high 101 and volume 5 is reported FILLED at
    100 for 1 and leaves the book; the long position becomes 1 at 100, and
    the balance goes down by the maker fee on 100. *)
Example full_fill :
  let st := Scenario.bot 1000 Scenario.no_position [Scenario.limit_buy_long 1 100] [] in
  let st' := snd (Scenario.step (Scenario.candle_99_101 5) st) in
  order_updates (events st') = [Order.mk "BTCUSDT" 1 100 100 1 LIMIT BUY 0 FILLED LONG] /\
  OrderList.long (open_orders st') = [] /\
  (Position.qty (PositionList.long (position st')),
   Position.price (PositionList.long (position st'))) = (1, 100)%float /\
  balance st' = (1000 - 1 * 100 * 0.000244140625)%float.
Proof. vm_compute. repeat split; reflexivity. Qed.

(** The take-profit of the specification: with a long position of 1 at 100,
    the TP SELL order of 1 at 110 against a candle with low 108, high 111 and
    volume 2 is reported FILLED at 110, and the long position is empty. *)
Example take_profit :
  let tp := Order.mk "BTCUSDT" 4 110 110 1 TP SELL 0 NEW LONG in
  let st := Scenario.bot 1000 (PositionList.mk (Position.mk "BTCUSDT" 1 100 0 0 10 LONG)
                                               (Scenario.flat SHORT)) [tp] [] in
  let st' := snd (Scenario.step (Candle.mk 109 111 108 110 2) st) in
  order_updates (events st') = [Order.mk "BTCUSDT" 4 110 110 1 TP SELL 0 FILLED LONG] /\
  OrderList.long (open_orders st') = [] /\
  (Position.qty (PositionList.long (position st')),
   Position.price (PositionList.long (position st'))) = (0, 0)%float /\
  balance st' = (1000 - 1 * 110 * 0.000244140625 + 10)%float.
Proof. vm_compute. repeat split; reflexivity. Qed.

(** C1, at the liquidation of the specification: a long position of 10 at
    100 with leverage 10 and balance 10, and a candle that closes at 80. *)
Lemma liquidation_halts_witness :
  let st := Scenario.bot 10 (PositionList.mk (Position.mk "BTCUSDT" 10 100 0 0 10 LONG)
                                             (Scenario.flat SHORT)) [] [] in
  let last_candle := Candle.mk 100 100 80 80 5 in
  F.le (@available_margin SpecHelpers.helpers last_candle st) 0 = true /\
  fst (Scenario.step last_candle st) = false /\
  events (snd (Scenario.step last_candle st))
  = [OrderUpdate (Order.mk "BTCUSDT" 0 80 80 10 CALCULATED SELL 1000 LQ LONG);
     AccountUpdate 0 (Scenario.flat LONG) (Scenario.flat SHORT)] /\
  balance (snd (Scenario.step last_candle st)) = 0%float /\
  position (snd (Scenario.step last_candle st)) = Scenario.no_position.
Proof.
  cbv zeta.
  assert (Hmargin : F.le (@available_margin SpecHelpers.helpers (Candle.mk 100 100 80 80 5)
                            (Scenario.bot 10
                               (PositionList.mk (Position.mk "BTCUSDT" 10 100 0 0 10 LONG)
                                                (Scenario.flat SHORT)) [] [])) 0 = true)
    by (vm_compute; reflexivity).
  split; [exact Hmargin |].
  pose proof (liquidation_halts (H := SpecHelpers.helpers) _ _ Hmargin) as Hthm.
  unfold Scenario.step.
  destruct (execute_exchange_logic _ _) as [cont st'].
  destruct Hthm as (Hcont & Hev & Hpos & Hbal).
  cbn [fst snd]. rewrite Hev, Hpos, Hbal.
  repeat split; trivial; vm_compute; reflexivity.
Defined.


(** C8. A MARKET order is filled, on either book, at the average of open,
    high, low and close of the candle rounded down to the price step: that
    is the price of the order reported through [handle_order_update]. With
    the rounding of the specification, a MARKET BUY LONG on the candle
    100, 120, 90, 110 and a price step of 1 is reported at 105. *)
Theorem market_fill_price :
  (forall (H : Helpers) (last_candle : Candle.t) (st : BacktestBot)
          (orders_to_remove : list ref) (order : ref),
      Order.type (deref st order) = MARKET ->
      let fill_price :=
        round_down (F.average [Candle.open last_candle; Candle.high last_candle;
                               Candle.low last_candle; Candle.close last_candle])
                   (price_step st) in
      (exists o b l s,
          events (fst (match_long_order last_candle (st, orders_to_remove) order))
          = events st ++ [OrderUpdate o; AccountUpdate b l s] /\
          Order.price o = fill_price) /\
      (exists o b l s,
          events (fst (match_short_order last_candle (st, orders_to_remove) order))
          = events st ++ [OrderUpdate o; AccountUpdate b l s] /\
          Order.price o = fill_price)) /\
  map Order.price
      (order_updates
         (events (snd (Scenario.step
                         (Candle.mk 100 120 90 110 5)
                         (Scenario.bot 1000 Scenario.no_position
                                       [Scenario.market_buy_long 1] [])))))
  = [105%float].
Proof.
  split.
  - intros H last_candle st rm order Ht. cbv zeta. split.
    + destruct (match_long_order_events last_candle st rm order
                  (long_market_executes _ _ Ht)) as (o & b & l & s & Hev & Hp & _).
      exists o, b, l, s. split; trivial.
      rewrite Hp. now apply working_copy_market.
    + destruct (match_short_order_events last_candle st rm order
                  (short_market_executes _ _ Ht)) as (o & b & l & s & Hev & Hp & _).
      exists o, b, l, s. split; trivial.
      rewrite Hp. now apply working_copy_market.
  - vm_compute. reflexivity.
Qed.

Lemma market_fill_price_witness :
  let st := Scenario.bot 1000 Scenario.no_position [Scenario.market_buy_long 1] [] in
  let last_candle := Candle.mk 100 120 90 110 5 in
  Order.type (deref st 0) = MARKET /\
  exists o b l s,
    events (fst (@match_long_order SpecHelpers.helpers last_candle (st, []) 0))
    = events st ++ [OrderUpdate o; AccountUpdate b l s] /\
    Order.price o = 105%float.
Proof.
  cbv zeta. split; [reflexivity |].
  destruct (proj1 market_fill_price SpecHelpers.helpers (Candle.mk 100 120 90 110 5)
              (Scenario.bot 1000 Scenario.no_position [Scenario.market_buy_long 1] [])
              [] 0 eq_refl) as [(o & b & l & s & Hev & Hp) _].
  exists o, b, l, s. split; [exact Hev |].
  rewrite Hp. vm_compute. reflexivity.
Defined.

(** ** Partial fills *)

(** C3, as the code has it. With no long position and the LIMIT BUY LONG
    order of 10 at 100 alone on the books, a candle with low 99, high 101 and
    volume 3 that does not liquidate the account yields one emission through
    [handle_order_update], of action PARTIALLY_FILLED and of quantity 7, the
    quantity that is left; the order stays on the long book with its quantity
    reduced to 7; and the long position takes the quantity that the helper
    gives for 3 bought at 100, which is 3. *)
Theorem partial_fill_reports_remainder `{Helpers}
    (cfg : BacktestConfig.t) (bal : float) (short : Position.t) (ts : Z) (evs : list Event)
    (psym pside : string) (pliq pupnl plev : float)
    (sym act : string) (id t : Z) (stop op cl : float) :
  let order := Order.mk sym id 100 stop 10 LIMIT BUY t act LONG in
  let long := Position.mk psym 0 0 pliq pupnl plev pside in
  let st := mkBot cfg bal (PositionList.mk long short) (OrderList.mk [0] [])
                  OrderList.empty ts [order] evs in
  let last_candle := Candle.mk op 101 99 cl 3 in
  F.le (available_margin last_candle st) 0 = false ->
  fst (calculate_new_position_size_position_price 0 0 3 100 (quantity_step st)) = 3%float ->
  let '(cont, st') := execute_exchange_logic last_candle st in
  cont = true /\
  (exists b l s,
      events st' = evs ++ [OrderUpdate (Order.mk sym id 100 stop 7 LIMIT BUY t
                                                 PARTIALLY_FILLED LONG);
                           AccountUpdate b l s]) /\
  OrderList.long (open_orders st') = [0] /\
  deref st' 0 = Order.mk sym id 100 stop 7 LIMIT BUY t act LONG /\
  Position.qty (PositionList.long (position st')) = 3%float.
Proof.
  cbv zeta. intros Hmargin Hcalc.
  unfold execute_exchange_logic. rewrite Hmargin.
  destruct H as [am q2c lpnl spnl rd calc bp].
  vm_compute in Hcalc.
  split; [reflexivity |].
  split.
  { do 3 eexists.
    refine (eq_trans _ (eq_sym (app_assoc evs [OrderUpdate _] [AccountUpdate _ _ _]))).
    vm_compute. reflexivity. }
  split; [vm_compute; reflexivity |].
  split; [vm_compute; reflexivity |].
  vm_compute. exact Hcalc.
Qed.

Lemma partial_fill_reports_remainder_witness :
  let st := Scenario.bot 1000 Scenario.no_position [Scenario.limit_buy_long 10 100] [] in
  let last_candle := Scenario.candle_99_101 3 in
  F.le (@available_margin SpecHelpers.helpers last_candle st) 0 = false /\
  fst (SpecHelpers.calculate_new_position_size_position_price 0 0 3 100 1) = 3%float /\
  order_updates (events (snd (Scenario.step last_candle st)))
  = [Order.mk "BTCUSDT" 1 100 100 7 LIMIT BUY 0 PARTIALLY_FILLED LONG] /\
  map (deref (snd (Scenario.step last_candle st)))
      (OrderList.long (open_orders (snd (Scenario.step last_candle st))))
  = [Scenario.limit_buy_long 7 100] /\
  Position.qty (PositionList.long (position (snd (Scenario.step last_candle st)))) = 3%float.
Proof.
  cbv zeta.
  assert (Hmargin : F.le (@available_margin SpecHelpers.helpers (Scenario.candle_99_101 3)
                            (Scenario.bot 1000 Scenario.no_position
                                          [Scenario.limit_buy_long 10 100] [])) 0 = false)
    by (vm_compute; reflexivity).
  assert (Hcalc : fst (SpecHelpers.calculate_new_position_size_position_price 0 0 3 100 1)
                  = 3%float)
    by (vm_compute; reflexivity).
  split; [exact Hmargin |]. split; [exact Hcalc |].
  pose proof (partial_fill_reports_remainder (H := SpecHelpers.helpers)
                Scenario.settings 1000 (Scenario.flat SHORT) 1000 []
                "BTCUSDT" LONG 0 0 10 "BTCUSDT" NEW 1 0 100 100 100 Hmargin Hcalc) as Hthm.
  unfold Scenario.step.
  change (Scenario.bot 1000 Scenario.no_position [Scenario.limit_buy_long 10 100] [])
    with (mkBot Scenario.settings 1000
                (PositionList.mk (Position.mk "BTCUSDT" 0 0 0 0 10 LONG) (Scenario.flat SHORT))
                (OrderList.mk [0] []) OrderList.empty 1000
                [Order.mk "BTCUSDT" 1 100 100 10 LIMIT BUY 0 NEW LONG] []).
  change (Scenario.candle_99_101 3) with (Candle.mk 100 101 99 100 3).
  destruct (execute_exchange_logic _ _) as [cont st'].
  destruct Hthm as (_ & (b & l & s & Hev) & Hbook & Hobj & Hpos).
  cbn [snd]. rewrite Hev, Hbook, Hpos. cbn [map]. rewrite Hobj.
  repeat split; reflexivity.
Defined.

(** C3 as the specification states it fails: in its scenario the one order
    reported carries the quantity 7, which is not the 3 that were filled. *)
Lemma partial_fill_reports_filled_counterexample :
  let st := Scenario.bot 1000 Scenario.no_position [Scenario.limit_buy_long 10 100] [] in
  let st' := snd (Scenario.step (Scenario.candle_99_101 3) st) in
  map (fun o => (Order.action o, Order.qty o)) (order_updates (events st'))
  = [(PARTIALLY_FILLED, 7%float)] /\
  F.eq 7 3 = false.
Proof. vm_compute. split; reflexivity. Qed.

(** ** The short book *)

(** C5 fails on the code. Every fill on the short book hands
    [handle_account_update] a short position whose side is [LONG], and that
    position is the short position of the account from then on. *)
Theorem short_fill_writes_long `{Helpers} (last_candle : Candle.t) (st : BacktestBot)
    (orders_to_remove : list ref) (order : ref) :
  short_execution last_candle (deref st order) = true ->
  let st' := fst (match_short_order last_candle (st, orders_to_remove) order) in
  exists o b l s,
    events st' = events st ++ [OrderUpdate o; AccountUpdate b l s] /\
    Position.position_side s = LONG /\
    PositionList.short (position st') = s.
Proof.
  intros Hexec. cbv zeta.
  destruct (match_short_order_events last_candle st orders_to_remove order Hexec)
    as (o & b & l & s & Hev & _ & _ & Hside & Hpos).
  exists o, b, l, s. rewrite Hpos. auto.
Qed.

Lemma short_fill_writes_long_witness :
  let st := Scenario.bot 1000 Scenario.no_position [] [Scenario.limit_sell_short 1 100] in
  let last_candle := Scenario.candle_99_101 5 in
  short_execution last_candle (deref st 0) = true /\
  Position.position_side
    (PositionList.short
       (position (fst (@match_short_order SpecHelpers.helpers last_candle (st, []) 0))))
  = LONG /\
  (LONG == SHORT) = false.
Proof.
  cbv zeta.
  assert (Hexec : short_execution (Scenario.candle_99_101 5)
                    (deref (Scenario.bot 1000 Scenario.no_position []
                                         [Scenario.limit_sell_short 1 100]) 0) = true)
    by (vm_compute; reflexivity).
  split; [exact Hexec |]. split; [| reflexivity].
  destruct (short_fill_writes_long (H := SpecHelpers.helpers) _ _ [] 0 Hexec)
    as (o & b & l & s & _ & Hside & Hpos).
  now rewrite Hpos.
Defined.



(** ** Admission of pending orders *)

(** The orders of the two open books, in order. *)
Definition long_orders (st : BacktestBot) : list Order.t :=
  map (deref st) (OrderList.long (open_orders st)).
Definition short_orders (st : BacktestBot) : list Order.t :=
  map (deref st) (OrderList.short (open_orders st)).

(** Which orders [handle_order_update] appends to which book. *)
Definition opens_long (o : Order.t) : bool :=
  (Order.action o == NEW) && (Order.position_side o == LONG).
Definition opens_short (o : Order.t) : bool :=
  (Order.action o == NEW) && negb (Order.position_side o == LONG)
  && (Order.position_side o == SHORT).

Lemma map_deref_grown (st st' : BacktestBot) (l : list ref) :
  Forall (fun r => r < length (heap st)) l ->
  (forall r, r < length (heap st) -> deref st' r = deref st r) ->
  map (deref st') l = map (deref st) l.
Proof.
  intros Hl Hsame. apply map_ext_in. intros r Hr.
  apply Hsame. rewrite Forall_forall in Hl. now apply Hl, list_elem_of_In.
Qed.

Lemma handle_order_update_books (o : Order.t) (st : BacktestBot) :
  books_closed st ->
  books_closed (handle_order_update o st) /\
  long_orders (handle_order_update o st)
  = long_orders st ++ (if opens_long o then [o] else []) /\
  short_orders (handle_order_update o st)
  = short_orders st ++ (if opens_short o then [o] else []).
Proof.
  intros Hclosed.
  assert (Hold : forall r, r < length (heap st) ->
                           deref (handle_order_update o st) r = deref st r)
    by (intros; now apply deref_handle_order_update).
  pose proof (deref_handle_order_update_new o st) as Hnew.
  destruct Hclosed as [Hl Hs].
  assert (Hl' : Forall (fun r => r < length (heap (handle_order_update o st)))
                       (OrderList.long (open_orders st))).
  { rewrite heap_handle_order_update, length_app.
    eapply Forall_impl; [exact Hl | cbn; intros; lia]. }
  assert (Hs' : Forall (fun r => r < length (heap (handle_order_update o st)))
                       (OrderList.short (open_orders st))).
  { rewrite heap_handle_order_update, length_app.
    eapply Forall_impl; [exact Hs | cbn; intros; lia]. }
  assert (Hfresh : length (heap st) < length (heap (handle_order_update o st))).
  { rewrite heap_handle_order_update, length_app. cbn. lia. }
  unfold books_closed, long_orders, short_orders, opens_long, opens_short.
  destruct (Order.action o == NEW) eqn:Haction.
  - revert Hl' Hs' Hfresh Hold Hnew.
    unfold handle_order_update, new_object. rewrite Haction.
    destruct (Order.position_side o == LONG); [| destruct (Order.position_side o == SHORT)];
      cbn [andb negb open_orders with_open_orders record with_heap
           OrderList.add_long OrderList.add_short OrderList.long OrderList.short];
      intros Hl' Hs' Hfresh Hold Hnew;
      rewrite ?map_app, ?Forall_app, ?app_nil_r; cbn [map];
      rewrite ?Hnew, ?(map_deref_grown st _ _ Hl Hold), ?(map_deref_grown st _ _ Hs Hold);
      repeat split; trivial; repeat constructor; trivial.
  - rewrite (open_orders_handle_order_update o st (conj Hl Hs) Haction).
    cbn [andb]. rewrite !app_nil_r.
    rewrite (map_deref_grown st _ _ Hl Hold), (map_deref_grown st _ _ Hs Hold).
    repeat split; trivial.
Qed.

Section Admission.
Context `{Helpers}.
Variable last_candle : Candle.t.

(** The pending orders of a queue that the step hands to
    [handle_order_update]: those that have arrived and that the margin
    covers. *)
Definition admitted (st : BacktestBot) (queue : list ref) : list Order.t :=
  List.filter (affordable last_candle st) (List.filter (arrived st) (map (deref st) queue)).

(** What the admission loops leave as it was in [st0] when they have
    reached [st]: account, configuration, clock, and the objects. *)
Definition admitting_from (st0 st : BacktestBot) : Prop :=
  balance st = balance st0 /\ position st = position st0 /\
  config st = config st0 /\ current_timestamp st = current_timestamp st0 /\
  length (heap st0) <= length (heap st) /\
  (forall r, r < length (heap st0) -> deref st r = deref st0 r).

Lemma admitting_from_refl (st : BacktestBot) : admitting_from st st.
Proof. repeat split; trivial. Qed.

Lemma arrived_admitting_from (st0 st : BacktestBot) (o : Order.t) :
  admitting_from st0 st -> arrived st o = arrived st0 o.
Proof.
  intros (_ & _ & Hc & Ht & _). unfold arrived, latency. now rewrite Hc, Ht.
Qed.

Lemma affordable_admitting_from (st0 st : BacktestBot) (o : Order.t) :
  admitting_from st0 st -> affordable last_candle st o = affordable last_candle st0 o.
Proof.
  intros (Hb & Hp & Hc & _). unfold affordable, available_margin, get_balance,
    get_position, leverage. now rewrite Hb, Hp, Hc.
Qed.

Lemma admitting_from_handle_order_update (st0 st : BacktestBot) (o : Order.t) :
  admitting_from st0 st -> admitting_from st0 (handle_order_update o st).
Proof.
  intros (Hb & Hp & Hc & Ht & Hlen & Hobj).
  unfold admitting_from. autorewrite with bot. rewrite length_app.
  repeat split; trivial; [lia |].
  intros r Hr. rewrite deref_handle_order_update by lia. now apply Hobj.
Qed.

(** The loop over a queue: what it removes, reports and opens. *)
Lemma admit_loop (st0 : BacktestBot) (l : list ref) :
  Forall (fun r => r < length (heap st0)) l ->
  forall (st : BacktestBot) (rm : list ref),
    admitting_from st0 st -> books_closed st ->
    let '(st', rm') := fold_left (admit_order last_candle) l (st, rm) in
    admitting_from st0 st' /\ books_closed st' /\
    orders_to_execute st' = orders_to_execute st /\
    rm' = rm ++ List.filter (fun r => arrived st0 (deref st0 r)) l /\
    events st' = events st ++ map OrderUpdate (admitted st0 l) /\
    long_orders st' = long_orders st ++ List.filter opens_long (admitted st0 l) /\
    short_orders st' = short_orders st ++ List.filter opens_short (admitted st0 l).
Proof.
  unfold admitted.
  induction 1 as [| order l Horder Hl IH]; intros st rm Hinv Hclosed.
  - cbn. rewrite !app_nil_r. do 2 (split; [assumption |]). repeat split.
  - cbn [fold_left map List.filter]. unfold admit_order at 2.
    assert (Hobj : deref st order = deref st0 order) by now apply Hinv.
    rewrite Hobj, (arrived_admitting_from st0 st _ Hinv),
      (affordable_admitting_from st0 st _ Hinv).
    destruct (arrived st0 (deref st0 order)); [| now apply IH].
    cbn [List.filter].
    destruct (affordable last_candle st0 (deref st0 order)).
    + pose proof (admitting_from_handle_order_update st0 st (deref st0 order) Hinv)
        as Hinv1.
      destruct (handle_order_update_books (deref st0 order) st Hclosed)
        as (Hclosed1 & Hlong1 & Hshort1).
      specialize (IH (handle_order_update (deref st0 order) st) (rm ++ [order])
                     Hinv1 Hclosed1).
      destruct (fold_left _ _ _) as [st' rm'].
      destruct IH as (Hinv' & Hclosed' & Hq & -> & Hev & Hlong & Hshort).
      rewrite Hq, Hev, Hlong, Hshort, Hlong1, Hshort1. autorewrite with bot.
      cbn [map List.filter].
      do 2 (split; [assumption |]).
      repeat split; trivial; rewrite <- ?app_assoc; try reflexivity.
      * now destruct (opens_long (deref st0 order)).
      * now destruct (opens_short (deref st0 order)).
    + specialize (IH st (rm ++ [order]) Hinv Hclosed).
      destruct (fold_left _ _ _) as [st' rm'].
      destruct IH as (Hinv' & Hclosed' & Hq & -> & Hev & Hlong & Hshort).
      rewrite <- app_assoc. do 2 (split; [assumption |]). repeat split; trivial.
Qed.
End Admission.

(** Removing from a list those of its entries that satisfy a test keeps the
    others. *)
Lemma without_filter (p : ref -> bool) (l : list ref) :
  OrderList.without (List.filter p l) l = List.filter (fun r => negb (p r)) l.
Proof.
  unfold OrderList.without. apply filter_ext_in. intros r Hr. f_equal.
  destruct (p r) eqn:Hp.
  - apply existsb_exists. exists r. split; [| apply Nat.eqb_refl].
    apply filter_In. auto.
  - apply not_true_is_false. intros Hex.
    apply existsb_exists in Hex as (x & Hx & Heq).
    apply Nat.eqb_eq in Heq. subst x. apply filter_In in Hx. destruct Hx. congruence.
Qed.

Section AdmissionStep.
Context `{Helpers}.
Variables (last_candle : Candle.t) (st : BacktestBot).
Hypothesis Hclosed : heap_closed st.

Let queue : OrderList.t := orders_to_execute st.
Let due (r : ref) : bool := arrived st (deref st r).

Lemma admitted_app (l1 l2 : list ref) :
  admitted last_candle st (l1 ++ l2)
  = admitted last_candle st l1 ++ admitted last_candle st l2.
Proof. unfold admitted. now rewrite map_app, !List.filter_app. Qed.

Lemma admit_long_spec :
  let st1 := admit_long last_candle st in
  admitting_from st st1 /\ books_closed st1 /\
  orders_to_execute st1
  = OrderList.mk (List.filter (fun r => negb (due r)) (OrderList.long queue))
                 (OrderList.short queue) /\
  events st1 = events st ++ map OrderUpdate (admitted last_candle st (OrderList.long queue)) /\
  long_orders st1
  = long_orders st ++ List.filter opens_long (admitted last_candle st (OrderList.long queue)) /\
  short_orders st1
  = short_orders st ++ List.filter opens_short (admitted last_candle st (OrderList.long queue)).
Proof.
  unfold heap_closed in Hclosed. rewrite !Forall_app in Hclosed.
  destruct Hclosed as (Hl & Hs & Hql & Hqs).
  pose proof (admit_loop last_candle st _ Hql st [] (admitting_from_refl st)
                (conj Hl Hs)) as Hloop.
  cbv zeta. unfold admit_long.
  destruct (fold_left _ _ _) as [st' rm].
  destruct Hloop as (Hinv & Hbooks & Hq & -> & Hev & Hlong & Hshort).
  cbn [app] in *. split; [exact Hinv |]. split; [exact Hbooks |].
  split; [| auto].
  cbn. rewrite Hq. unfold OrderList.delete_long. f_equal.
  apply (without_filter (fun r => arrived st (deref st r))).
Qed.

Lemma admit_short_spec :
  let st1 := admit_long last_candle st in
  let st2 := admit_short last_candle st1 in
  admitting_from st st2 /\ books_closed st2 /\
  orders_to_execute st2
  = OrderList.mk (List.filter (fun r => negb (due r)) (OrderList.long queue))
                 (List.filter (fun r => negb (due r)) (OrderList.short queue)) /\
  events st2 = events st1 ++ map OrderUpdate (admitted last_candle st (OrderList.short queue)) /\
  long_orders st2
  = long_orders st1 ++ List.filter opens_long (admitted last_candle st (OrderList.short queue)) /\
  short_orders st2
  = short_orders st1 ++ List.filter opens_short (admitted last_candle st (OrderList.short queue)).
Proof.
  destruct admit_long_spec as (Hinv1 & Hbooks1 & Hq1 & _).
  unfold heap_closed in Hclosed. rewrite !Forall_app in Hclosed.
  destruct Hclosed as (Hl & Hs & Hql & Hqs).
  pose proof (admit_loop last_candle st _ Hqs (admit_long last_candle st) []
                Hinv1 Hbooks1) as Hloop.
  remember (admit_long last_candle st) as st1 eqn:Hst1. clear Hst1.
  cbv zeta. unfold admit_short. rewrite Hq1. cbn [OrderList.short].
  destruct (fold_left _ _ _) as [st' rm].
  destruct Hloop as (Hinv & Hbooks & Hq & -> & Hev & Hlong & Hshort).
  cbn [app] in *. split; [exact Hinv |]. split; [exact Hbooks |].
  split; [| auto].
  cbn. rewrite Hq, Hq1. unfold OrderList.delete_short.
  cbn [OrderList.long OrderList.short]. f_equal.
  apply (without_filter (fun r => arrived st (deref st r))).
Qed.
End AdmissionStep.

(** The admission on any bot whose references designate objects. *)
Lemma admission_spec `{Helpers} (last_candle : Candle.t) (st : BacktestBot) :
  heap_closed st ->
  let queue := orders_to_execute st in
  let st' := admit_short last_candle (admit_long last_candle st) in
  OrderList.long (orders_to_execute st')
  = List.filter (fun r => negb (arrived st (deref st r))) (OrderList.long queue) /\
  OrderList.short (orders_to_execute st')
  = List.filter (fun r => negb (arrived st (deref st r))) (OrderList.short queue) /\
  events st'
  = events st
    ++ map OrderUpdate (admitted last_candle st (OrderList.long queue ++ OrderList.short queue)) /\
  long_orders st'
  = long_orders st
    ++ List.filter opens_long
         (admitted last_candle st (OrderList.long queue ++ OrderList.short queue)) /\
  short_orders st'
  = short_orders st
    ++ List.filter opens_short
         (admitted last_candle st (OrderList.long queue ++ OrderList.short queue)) /\
  balance st' = balance st /\ position st' = position st /\
  (forall r, r < length (heap st) -> deref st' r = deref st r).
Proof.
  intros Hclosed. cbv zeta.
  destruct (admit_long_spec last_candle st Hclosed) as (_ & _ & _ & Hev1 & Hlong1 & Hshort1).
  destruct (admit_short_spec last_candle st Hclosed)
    as ((Hb & Hp & _ & _ & _ & Hobj) & _ & Hq & Hev & Hlong & Hshort).
  cbv zeta in *.
  rewrite Hq, Hev, Hlong, Hshort, Hev1, Hlong1, Hshort1.
  rewrite (admitted_app last_candle st), !map_app, !List.filter_app, <- !app_assoc.
  repeat split; trivial.
Qed.

(** The removal of objects from a list keeps what holds of all its entries. *)
Lemma Forall_without (P : ref -> Prop) (gone l : list ref) :
  Forall P l -> Forall P (OrderList.without gone l).
Proof.
  intros Hl. apply Forall_forall. intros r Hr.
  apply list_elem_of_In, in_without in Hr as [Hr _].
  rewrite Forall_forall in Hl. now apply Hl, list_elem_of_In.
Qed.

Section MatchingKeeps.
Context `{Helpers}.
Variables (last_candle : Candle.t) (st : BacktestBot).
Hypothesis Hclosed : heap_closed st.

(** The matching of a book keeps the references closed and leaves queue,
    configuration and clock as they are. *)
Lemma match_long_book_closed :
  let st' := match_long_book last_candle st in
  heap_closed st' /\ orders_to_execute st' = orders_to_execute st /\
  config st' = config st /\ current_timestamp st' = current_timestamp st.
Proof.
  cbv zeta. unfold match_long_book.
  pose proof (match_long_loop last_candle st (heap_closed_books st Hclosed)) as Hloop.
  destruct (fold_left _ _ _) as [st' rm].
  destruct Hloop as [(Hoo & Hq & Hc & Ht & Hlen & _) _].
  split; [| now cbn].
  unfold heap_closed in *. cbn. rewrite Hoo, Hq. cbn.
  rewrite !Forall_app in *. destruct Hclosed as (Hl & Hs & Hql & Hqs).
  repeat split; try apply Forall_without;
    (eapply Forall_impl; [eassumption | cbn; intros; lia]).
Qed.

Lemma match_short_book_closed :
  let st' := match_short_book last_candle st in
  heap_closed st' /\ orders_to_execute st' = orders_to_execute st /\
  config st' = config st /\ current_timestamp st' = current_timestamp st.
Proof.
  cbv zeta. unfold match_short_book.
  pose proof (match_short_loop last_candle st (heap_closed_books st Hclosed)) as Hloop.
  destruct (fold_left _ _ _) as [st' rm].
  destruct Hloop as [(Hoo & Hq & Hc & Ht & Hlen & _) _].
  split; [| now cbn].
  unfold heap_closed in *. cbn. rewrite Hoo, Hq. cbn.
  rewrite !Forall_app in *. destruct Hclosed as (Hl & Hs & Hql & Hqs).
  repeat split; try apply Forall_without;
    (eapply Forall_impl; [eassumption | cbn; intros; lia]).
Qed.
End MatchingKeeps.







(** ** The entry points *)

(** What [create_orders] and [cancel_orders] write into an order. *)
Definition stamp (action : string) (st : BacktestBot) (o : Order.t) : Order.t :=
  Order.set_action
    (Order.set_timestamp (Order.set_symbol o (symbol st)) (current_timestamp st)) action.

Lemma stamp_stamp (action : string) (st : BacktestBot) (o : Order.t) :
  stamp action st (stamp action st o) = stamp action st o.
Proof. reflexivity. Qed.

Lemma position_side_stamp (action : string) (st : BacktestBot) (o : Order.t) :
  Order.position_side (stamp action st o) = Order.position_side o.
Proof. reflexivity. Qed.

Lemma deref_update (r : ref) (f : Order.t -> Order.t) (st : BacktestBot) (r' : ref) :
  deref (update r f st) r'
  = if Nat.eqb r r' && Nat.ltb r (length (heap st)) then f (deref st r) else deref st r'.
Proof.
  unfold update. destruct (Nat.eqb_spec r r') as [<- | Hne]; cbn [andb].
  - destruct (Nat.ltb_spec r (length (heap st))) as [Hin | Hout].
    + now apply deref_assign_same.
    + now rewrite deref_assign_dangling.
  - now apply deref_assign_other.
Qed.

Lemma update_update (r : ref) (f g : Order.t -> Order.t) (st : BacktestBot) :
  update r g (update r f st) = update r (fun o => g (f o)) st.
Proof.
  unfold update at 1 3. rewrite deref_update, Nat.eqb_refl. cbn [andb].
  destruct (Nat.ltb_spec r (length (heap st))) as [Hin | Hout].
  - unfold update, assign. cbn. now rewrite list_insert_insert_eq.
  - unfold update, assign. cbn. now rewrite !list_insert_ge by (rewrite ?length_insert; lia).
Qed.

Lemma update_frame (r : ref) (f : Order.t -> Order.t) (st : BacktestBot) :
  config (update r f st) = config st /\ balance (update r f st) = balance st /\
  position (update r f st) = position st /\ open_orders (update r f st) = open_orders st /\
  orders_to_execute (update r f st) = orders_to_execute st /\
  current_timestamp (update r f st) = current_timestamp st /\
  events (update r f st) = events st /\
  length (heap (update r f st)) = length (heap st).
Proof.
  unfold update, assign. cbn. rewrite length_insert. repeat split.
Qed.

(** One turn of the loop of [create_orders] or [cancel_orders]: the order is
    stamped, and joins the additions of the side it names, if it names one. *)
Lemma submit_order_spec (action : string) (st : BacktestBot) (long_add short_add : list ref)
    (order : ref) :
  submit_order action (st, long_add, short_add) order
  = (update order (stamp action st) st,
     long_add ++ (if Order.position_side (deref st order) == LONG then [order] else []),
     short_add ++ (if negb (Order.position_side (deref st order) == LONG)
                      && (Order.position_side (deref st order) == SHORT)
                   then [order] else [])).
Proof.
  unfold submit_order. rewrite !update_update.
  change (update order _ st) with (update order (stamp action st) st).
  assert (Hside : Order.position_side (deref (update order (stamp action st) st) order)
                  = Order.position_side (deref st order)).
  { rewrite deref_update. now destruct (_ && _). }
  rewrite Hside.
  destruct (Order.position_side (deref st order) == LONG);
    [| destruct (Order.position_side (deref st order) == SHORT)];
    cbn [negb andb]; now rewrite ?app_nil_r.
Qed.

(** What the loop has done to the bot [st0] when it has stamped the orders
    [done] and reached [st]. *)
Definition stamped_from (action : string) (st0 : BacktestBot) (done : list ref)
    (st : BacktestBot) : Prop :=
  config st = config st0 /\ balance st = balance st0 /\ position st = position st0 /\
  open_orders st = open_orders st0 /\ orders_to_execute st = orders_to_execute st0 /\
  current_timestamp st = current_timestamp st0 /\ events st = events st0 /\
  length (heap st) = length (heap st0) /\
  forall r, deref st r
            = if existsb (Nat.eqb r) done && Nat.ltb r (length (heap st0))
              then stamp action st0 (deref st0 r) else deref st0 r.

Lemma stamped_from_update (action : string) (st0 st : BacktestBot) (done : list ref)
    (order : ref) :
  stamped_from action st0 done st ->
  stamped_from action st0 (done ++ [order]) (update order (stamp action st) st).
Proof.
  intros (Hc & Hb & Hp & Ho & Hq & Ht & He & Hlen & Hobj).
  assert (Hstamp : forall o, stamp action st o = stamp action st0 o).
  { intros o. unfold stamp, symbol. now rewrite Hc, Ht. }
  destruct (update_frame order (stamp action st) st)
    as (Hc' & Hb' & Hp' & Ho' & Hq' & Ht' & He' & Hlen').
  unfold stamped_from. rewrite Hc', Hb', Hp', Ho', Hq', Ht', He', Hlen'.
  repeat split; trivial.
  intros r. rewrite deref_update, Hlen, Hstamp, existsb_app, !Hobj.
  change (existsb (Nat.eqb r) [order]) with (Nat.eqb r order || false).
  rewrite orb_false_r, (Nat.eqb_sym r order).
  destruct (Nat.eqb_spec order r) as [-> | Hne].
  - rewrite orb_true_r, !andb_true_l.
    destruct (Nat.ltb r (length (heap st0))).
    + rewrite andb_true_r. now destruct (existsb (Nat.eqb r) done).
    + now rewrite andb_false_r.
  - now rewrite orb_false_r, andb_false_l.
Qed.

Lemma submit_loop (action : string) (st0 : BacktestBot) (orders : list ref) :
  forall (st : BacktestBot) (done long_add short_add : list ref),
    stamped_from action st0 done st ->
    exists st',
      fold_left (submit_order action) orders (st, long_add, short_add)
      = (st',
         long_add ++ List.filter (fun r => Order.position_side (deref st0 r) == LONG) orders,
         short_add ++ List.filter (fun r => negb (Order.position_side (deref st0 r) == LONG)
                                            && (Order.position_side (deref st0 r) == SHORT))
                                  orders) /\
      stamped_from action st0 (done ++ orders) st'.
Proof.
  induction orders as [| order orders IH]; intros st done long_add short_add Hinv.
  - exists st. cbn. now rewrite !app_nil_r.
  - cbn [fold_left]. rewrite submit_order_spec.
    assert (Hside : Order.position_side (deref st order)
                    = Order.position_side (deref st0 order)).
    { destruct Hinv as (_ & _ & _ & _ & _ & _ & _ & _ & Hobj). rewrite Hobj.
      now destruct (_ && _). }
    rewrite Hside.
    destruct (IH _ (done ++ [order])
                 (long_add ++ (if Order.position_side (deref st0 order) == LONG
                               then [order] else []))
                 (short_add ++ (if negb (Order.position_side (deref st0 order) == LONG)
                                   && (Order.position_side (deref st0 order) == SHORT)
                                then [order] else []))
                 (stamped_from_update action st0 st done order Hinv))
      as (st' & Hfold & Hinv').
    rewrite <- app_assoc in Hinv'.
    exists st'. rewrite Hfold, <- !app_assoc. split; [| exact Hinv'].
    cbn [List.filter].
    destruct (Order.position_side (deref st0 order) == LONG);
      [| destruct (Order.position_side (deref st0 order) == SHORT)];
      reflexivity.
Qed.

(** [create_orders] and [cancel_orders] as a whole: every order handed over
    is stamped, and the orders that name a side are appended to the queue of
    that side, in order. *)
Lemma submit_orders_spec (action : string) (orders : list ref) (st : BacktestBot) :
  let st' := submit_orders action orders st in
  orders_to_execute st'
  = OrderList.mk
      (OrderList.long (orders_to_execute st)
       ++ List.filter (fun r => Order.position_side (deref st r) == LONG) orders)
      (OrderList.short (orders_to_execute st)
       ++ List.filter (fun r => negb (Order.position_side (deref st r) == LONG)
                                && (Order.position_side (deref st r) == SHORT)) orders) /\
  open_orders st' = open_orders st /\ balance st' = balance st /\
  position st' = position st /\ events st' = events st /\
  forall r, deref st' r
            = if existsb (Nat.eqb r) orders && Nat.ltb r (length (heap st))
              then stamp action st (deref st r) else deref st r.
Proof.
  cbv zeta. unfold submit_orders.
  assert (Hinit : stamped_from action st [] st).
  { repeat split; trivial. }
  destruct (submit_loop action st orders st [] [] [] Hinit)
    as (st' & -> & (Hc & Hb & Hp & Ho & Hq & Ht & He & Hlen & Hobj)).
  cbn. rewrite Hq. repeat split; trivial.
Qed.

(** C10. An order handed to [create_orders] or [cancel_orders] whose
    position side is neither LONG nor SHORT gets the symbol of the bot, the
    current timestamp and the action of the entry point written into it, and
    joins neither queue: the long queue is extended by the orders handed
    over that name LONG and the short queue by those that name SHORT, in
    order, which is what the call without that order leaves as queues. *)
Theorem unsided_order_discarded (st : BacktestBot) (before after : list ref) (order : ref)
    (submit : list ref -> BacktestBot -> BacktestBot) (action : string) :
  (submit = create_orders /\ action = NEW) \/
  (submit = cancel_orders /\ action = CANCELED) ->
  (Order.position_side (deref st order) == LONG) = false ->
  (Order.position_side (deref st order) == SHORT) = false ->
  order < length (heap st) ->
  let o := deref st order in
  let st' := submit (before ++ order :: after) st in
  let long_add :=
    List.filter (fun r => Order.position_side (deref st r) == LONG) (before ++ after) in
  let short_add :=
    List.filter (fun r => negb (Order.position_side (deref st r) == LONG)
                          && (Order.position_side (deref st r) == SHORT))
                (before ++ after) in
  deref st' order
  = Order.mk (symbol st) (Order.client_id o) (Order.price o) (Order.stop_price o)
             (Order.qty o) (Order.type o) (Order.side o) (current_timestamp st)
             action (Order.position_side o) /\
  orders_to_execute st'
  = OrderList.mk (OrderList.long (orders_to_execute st) ++ long_add)
                 (OrderList.short (orders_to_execute st) ++ short_add) /\
  ~ In order long_add /\ ~ In order short_add /\
  orders_to_execute st' = orders_to_execute (submit (before ++ after) st).
Proof.
  intros Hsubmit Hlong Hshort Hin. cbv zeta.
  assert (Heq : submit = submit_orders action)
    by (destruct Hsubmit as [[-> ->] | [-> ->]]; reflexivity).
  rewrite Heq. clear Heq Hsubmit.
  destruct (submit_orders_spec action (before ++ order :: after) st)
    as (Hq & _ & _ & _ & _ & Hobj).
  destruct (submit_orders_spec action (before ++ after) st) as (Hq' & _).
  rewrite Hq, Hq', Hobj.
  assert (Hmember : existsb (Nat.eqb order) (before ++ order :: after) = true).
  { apply existsb_exists. exists order. split; [| apply Nat.eqb_refl].
    apply in_or_app. right. now left. }
  apply Nat.ltb_lt in Hin. rewrite Hmember, Hin. cbn [andb].
  rewrite !List.filter_app. cbn [List.filter]. rewrite Hlong, Hshort. cbn [negb andb].
  repeat split.
  - rewrite <- List.filter_app. intros Hmem. apply filter_In in Hmem as [_ Hmem].
    congruence.
  - rewrite <- List.filter_app. intros Hmem. apply filter_In in Hmem as [_ Hmem].
    rewrite Hlong, Hshort in Hmem. discriminate.
Qed.

Lemma unsided_order_discarded_witness :
  let order := Scenario.intent LIMIT BUY "BOTH" 1 100 in
  let sided := Scenario.intent LIMIT BUY LONG 2 100 in
  let st := mkBot Scenario.settings 1000 Scenario.no_position OrderList.empty
                  OrderList.empty 1500 [sided; order] [] in
  ((Order.position_side (deref st 1) == LONG) = false /\
   (Order.position_side (deref st 1) == SHORT) = false /\ 1 < length (heap st)) /\
  deref (create_orders [0; 1] st) 1 = Order.mk "BTCUSDT" 7 100 100 1 LIMIT BUY 1500 NEW "BOTH" /\
  orders_to_execute (create_orders [0; 1] st) = OrderList.mk [0] [].
Proof.
  cbv zeta.
  assert (Hin : 1 < length (heap (mkBot Scenario.settings 1000 Scenario.no_position
                                        OrderList.empty OrderList.empty 1500
                                        [Scenario.intent LIMIT BUY LONG 2 100;
                                         Scenario.intent LIMIT BUY "BOTH" 1 100] [])))
    by (cbn; lia).
  split; [repeat split; try reflexivity; exact Hin |].
  destruct (unsided_order_discarded
              (mkBot Scenario.settings 1000 Scenario.no_position OrderList.empty
                     OrderList.empty 1500
                     [Scenario.intent LIMIT BUY LONG 2 100;
                      Scenario.intent LIMIT BUY "BOTH" 1 100] [])
              [0] [] 1 create_orders NEW (or_introl (conj eq_refl eq_refl))
              eq_refl eq_refl Hin) as (Hobj & Hq & _).
  split; [exact Hobj | exact Hq].
Defined.

(** ** The driver *)

Lemma decisions_app (evs evs' : list Event) :
  decisions (evs ++ evs') = decisions evs ++ decisions evs'.
Proof. unfold decisions. apply flat_map_app. Qed.

(** The step never calls the strategy and leaves the clock alone. *)
Definition quiet (st0 st : BacktestBot) : Prop :=
  decisions (events st) = decisions (events st0) /\
  current_timestamp st = current_timestamp st0.

Lemma quiet_refl (st : BacktestBot) : quiet st st.
Proof. split; reflexivity. Qed.

Lemma quiet_trans (st0 st1 st2 : BacktestBot) :
  quiet st0 st1 -> quiet st1 st2 -> quiet st0 st2.
Proof. intros [He1 Ht1] [He2 Ht2]. split; congruence. Qed.

Lemma quiet_handle_order_update (o : Order.t) (st : BacktestBot) :
  quiet st (handle_order_update o st).
Proof.
  split; autorewrite with bot; trivial.
  rewrite decisions_app. cbn. apply app_nil_r.
Qed.

Lemma quiet_handle_account_update (b : float) (l s : Position.t) (st : BacktestBot) :
  quiet st (handle_account_update b l s st).
Proof.
  split; autorewrite with bot; trivial.
  rewrite decisions_app. cbn. apply app_nil_r.
Qed.

Lemma quiet_loop (body : BacktestBot * list ref -> ref -> BacktestBot * list ref) :
  (forall st rm order, quiet st (fst (body (st, rm) order))) ->
  forall l st rm, quiet st (fst (fold_left body l (st, rm))).
Proof.
  intros Hbody l. induction l as [| order l IH]; intros st rm.
  - apply quiet_refl.
  - cbn [fold_left]. specialize (Hbody st rm order).
    destruct (body (st, rm) order) as [st1 rm1].
    eapply quiet_trans; [exact Hbody | apply IH].
Qed.

Section Quiet.
Context `{Helpers}.
Variable last_candle : Candle.t.

Lemma quiet_match_long_order (st : BacktestBot) (rm : list ref) (order : ref) :
  quiet st (fst (match_long_order last_candle (st, rm) order)).
Proof.
  unfold match_long_order.
  destruct (long_execution last_candle (deref st order)); [| apply quiet_refl].
  pose proof (fill_account last_candle order
                (working_copy last_candle st (deref st order)) st rm) as Hfill.
  destruct (fill _ _ _ _ _) as [[o' st1] rm1].
  destruct Hfill as (Hev & _ & _ & _ & _ & _ & Ht & _).
  destruct (settle_long_account last_candle order o' (handle_order_update o' st1))
    as (b & p & -> & _).
  cbn [fst]. apply (quiet_trans _ st1); [split; congruence |].
  eapply quiet_trans;
    [apply quiet_handle_order_update | apply quiet_handle_account_update].
Qed.

Lemma quiet_match_short_order (st : BacktestBot) (rm : list ref) (order : ref) :
  quiet st (fst (match_short_order last_candle (st, rm) order)).
Proof.
  unfold match_short_order.
  destruct (short_execution last_candle (deref st order)); [| apply quiet_refl].
  pose proof (fill_account last_candle order
                (working_copy last_candle st (deref st order)) st rm) as Hfill.
  destruct (fill _ _ _ _ _) as [[o' st1] rm1].
  destruct Hfill as (Hev & _ & _ & _ & _ & _ & Ht & _).
  destruct (settle_short_account last_candle order o' (handle_order_update o' st1))
    as (b & p & -> & _).
  cbn [fst]. apply (quiet_trans _ st1); [split; congruence |].
  eapply quiet_trans;
    [apply quiet_handle_order_update | apply quiet_handle_account_update].
Qed.

Lemma quiet_admit_order (st : BacktestBot) (rm : list ref) (order : ref) :
  quiet st (fst (admit_order last_candle (st, rm) order)).
Proof.
  unfold admit_order.
  destruct (arrived st (deref st order)); [| apply quiet_refl].
  destruct (affordable last_candle st (deref st order)); cbn [fst];
    [apply quiet_handle_order_update | apply quiet_refl].
Qed.

Lemma quiet_execute_exchange_logic (st : BacktestBot) :
  quiet st (snd (execute_exchange_logic last_candle st)).
Proof.
  unfold execute_exchange_logic.
  destruct (F.le (available_margin last_candle st) 0); cbn [snd].
  - apply (quiet_trans _ (liquidate_long last_candle st)).
    + unfold liquidate_long. destruct (F.ne _ _); [| apply quiet_refl].
      eapply quiet_trans;
        [apply quiet_handle_order_update | apply quiet_handle_account_update].
    + unfold liquidate_short. destruct (F.ne _ _); [| apply quiet_refl].
      eapply quiet_trans;
        [apply quiet_handle_order_update | apply quiet_handle_account_update].
  - assert (Hlong : forall st, quiet st (match_long_book last_candle st)).
    { intros st1. unfold match_long_book.
      pose proof (quiet_loop _ quiet_match_long_order
                    (OrderList.long (open_orders st1)) st1 []) as Hloop.
      now destruct (fold_left _ _ _). }
    assert (Hshort : forall st, quiet st (match_short_book last_candle st)).
    { intros st1. unfold match_short_book.
      pose proof (quiet_loop _ quiet_match_short_order
                    (OrderList.short (open_orders st1)) st1 []) as Hloop.
      now destruct (fold_left _ _ _). }
    assert (Hal : forall st, quiet st (admit_long last_candle st)).
    { intros st1. unfold admit_long.
      pose proof (quiet_loop _ quiet_admit_order
                    (OrderList.long (orders_to_execute st1)) st1 []) as Hloop.
      now destruct (fold_left _ _ _). }
    assert (Has : forall st, quiet st (admit_short last_candle st)).
    { intros st1. unfold admit_short.
      pose proof (quiet_loop _ quiet_admit_order
                    (OrderList.short (orders_to_execute st1)) st1 []) as Hloop.
      now destruct (fold_left _ _ _). }
    eapply quiet_trans; [apply Hlong |].
    eapply quiet_trans; [apply Hshort |].
    eapply quiet_trans; [apply Hal | apply Has].
Qed.
End Quiet.

(** Serving the calls of the strategy reports nothing. *)
Lemma events_serve (st : BacktestBot) (i : Intent) : events (serve st i) = events st.
Proof.
  destruct i as [orders | orders]; cbn [serve new_objects].
  - unfold create_orders.
    now destruct (submit_orders_spec NEW (seq (length (heap st)) (length orders))
                    (with_heap st (heap st ++ orders))) as (_ & _ & _ & _ & -> & _).
  - unfold cancel_orders.
    now destruct (submit_orders_spec CANCELED (seq (length (heap st)) (length orders))
                    (with_heap st (heap st ++ orders))) as (_ & _ & _ & _ & -> & _).
Qed.

Lemma decisions_decide (strategy : Strategy) (price_list : list Candle.t)
    (st : BacktestBot) :
  decisions (events (decide strategy price_list st))
  = decisions (events st) ++ [price_list].
Proof.
  unfold decide.
  assert (Hserve : forall l st1, events (fold_left serve l st1) = events st1).
  { induction l as [| i l IH]; intros st1; [reflexivity |].
    cbn [fold_left]. now rewrite IH, events_serve. }
  rewrite Hserve. cbn. now rewrite decisions_app.
Qed.

(** The bot a turn of the driver loop leaves. *)
Definition bot_of (t : Tick) : BacktestBot :=
  match t with
  | Halted st => st
  | Running st _ _ => st
  end.

Lemma lt_not_ge (x y : float) : F.lt x y = true -> F.ge x y = false.
Proof. unfold F.lt, F.ge. now destruct (PrimFloat.compare x y). Qed.

(** One turn of the loop of [start_websocket]. *)
Lemma tick_spec `{Helpers} (strategy : Strategy) (i : Row.t)
      (st : BacktestBot) (price_list : list Candle.t) (last_update : float) :
  let candle := prepare_candle i in
  let '(cont, st1) :=
    execute_exchange_logic candle (with_current_timestamp st (F.to_int64 (Row.time i))) in
  let elapsed := (F.of_int64 (current_timestamp st1) - last_update)%float in
  let interval := (call_interval strategy * 1000)%float in
  let turn := tick strategy i st price_list last_update in
  current_timestamp st1 = F.to_int64 (Row.time i) /\
  decisions (events st1) = decisions (events st) /\
  (cont = false -> turn = Halted st1) /\
  (cont = true -> F.ge elapsed interval = true ->
   turn = Running (decide strategy (price_list ++ [candle]) st1) []
                  (F.of_int64 (current_timestamp st1)) /\
   decisions (events (bot_of turn))
   = decisions (events st) ++ [price_list ++ [candle]]) /\
  (cont = true -> F.ge elapsed interval = false ->
   turn = Running st1 (price_list ++ [candle]) last_update).
Proof.
  cbv zeta.
  pose proof (quiet_execute_exchange_logic (prepare_candle i)
                (with_current_timestamp st (F.to_int64 (Row.time i)))) as [Hdec Hts].
  unfold tick.
  destruct (execute_exchange_logic _ _) as [cont st1]. cbn [snd] in Hdec, Hts.
  cbn in Hdec, Hts.
  split; [exact Hts |]. split; [exact Hdec |].
  split; [| split].
  - now intros ->.
  - intros -> Hge. cbn [negb]. rewrite Hge. cbn [bot_of].
    split; [reflexivity |]. now rewrite decisions_decide, Hdec.
  - intros -> Hge. cbn [negb]. now rewrite Hge.
Qed.

(** Over a run, the windows handed to the strategy are consecutive stretches
    of the buffer followed by the candles of the rows, in order: put end to
    end, and followed by what is left in the buffer, they are the buffer and
    the candles of the rows gone through. *)
Lemma iterate_windows `{Helpers} (strategy : Strategy) (data : list Row.t) :
  forall (st : BacktestBot) (price_list : list Candle.t) (last_update : float),
  exists (windows : list (list Candle.t)) (rest : list Candle.t) (k : nat),
    decisions (events (iterate strategy data st price_list last_update))
    = decisions (events st) ++ windows /\
    concat windows ++ rest = price_list ++ map prepare_candle (firstn k data).
Proof.
  induction data as [| i data IH]; intros st price_list last_update.
  - exists [], price_list, 0. cbn. now rewrite !app_nil_r.
  - cbn [iterate].
    pose proof (tick_spec strategy i st price_list last_update) as Hturn.
    cbv zeta in Hturn.
    destruct (execute_exchange_logic _ _) as [[|] st1].
    + destruct Hturn as (_ & Hdec & _ & Hcall & Hskip).
      destruct (F.ge (F.of_int64 (current_timestamp st1) - last_update)
                     (call_interval strategy * 1000)) eqn:Hge.
      * destruct (Hcall eq_refl eq_refl) as [-> Hdec'].
        cbn [bot_of] in Hdec'.
        destruct (IH (decide strategy (price_list ++ [prepare_candle i]) st1) []
                     (F.of_int64 (current_timestamp st1)))
          as (windows & rest & k & Hw & Hcat).
        exists ((price_list ++ [prepare_candle i]) :: windows), rest, (S k).
        rewrite Hw, Hdec'. cbn [concat firstn map]. cbn [app] in Hcat.
        rewrite <- !app_assoc, Hcat. split; reflexivity.
      * rewrite (Hskip eq_refl eq_refl).
        destruct (IH st1 (price_list ++ [prepare_candle i]) last_update)
          as (windows & rest & k & Hw & Hcat).
        exists windows, rest, (S k).
        rewrite Hw, Hdec, Hcat. cbn [firstn map]. rewrite <- app_assoc.
        split; reflexivity.
    + destruct Hturn as (_ & Hdec & Hhalt & _). rewrite (Hhalt eq_refl).
      exists [], price_list, 0. cbn. rewrite Hdec, !app_nil_r. split; reflexivity.
Qed.

(** C9. The loop of [start_websocket] over the row [i] and the rows [data]
    that follow it, with the buffer [price_list] and the time [last_update]
    of the last call. The exchange step, run at the timestamp of the row,
    never calls the strategy. If it returns [False] the loop is left there:
    whatever rows remain, the run ends in the bot the step left, and the
    strategy is not called again. Otherwise the candle joins the buffer, and
    the strategy is called iff the time since the last call is at least the
    call interval times 1000: it then gets the buffer, which is emptied, and
    the time of the last call becomes the current timestamp. In particular
    it is not called when that time is below the interval. Over the run, the
    windows the strategy gets, put end to end and followed by what is left in
    the buffer, are the buffer and the candles of the rows gone through. *)
Theorem strategy_cadence `{Helpers} (strategy : Strategy) (i : Row.t) (data : list Row.t)
      (st : BacktestBot) (price_list : list Candle.t) (last_update : float) :
  let candle := prepare_candle i in
  let '(cont, st1) :=
    execute_exchange_logic candle (with_current_timestamp st (F.to_int64 (Row.time i))) in
  let elapsed := (F.of_int64 (current_timestamp st1) - last_update)%float in
  let interval := (call_interval strategy * 1000)%float in
  let turn := tick strategy i st price_list last_update in
  current_timestamp st1 = F.to_int64 (Row.time i) /\
  decisions (events st1) = decisions (events st) /\
  (cont = false ->
   turn = Halted st1 /\
   iterate strategy (i :: data) st price_list last_update = st1) /\
  (cont = true -> F.ge elapsed interval = true ->
   turn = Running (decide strategy (price_list ++ [candle]) st1) []
                  (F.of_int64 (current_timestamp st1)) /\
   decisions (events (bot_of turn))
   = decisions (events st) ++ [price_list ++ [candle]]) /\
  (cont = true -> F.ge elapsed interval = false ->
   turn = Running st1 (price_list ++ [candle]) last_update) /\
  (F.lt elapsed interval = true ->
   decisions (events (bot_of turn)) = decisions (events st)) /\
  (exists (windows : list (list Candle.t)) (rest : list Candle.t) (k : nat),
      decisions (events (iterate strategy (i :: data) st price_list last_update))
      = decisions (events st) ++ windows /\
      concat windows ++ rest = price_list ++ map prepare_candle (firstn k (i :: data))).
Proof.
  cbv zeta.
  pose proof (tick_spec strategy i st price_list last_update) as Hturn.
  pose proof (iterate_windows strategy (i :: data) st price_list last_update) as Hrun.
  cbv zeta in Hturn. cbn [iterate] in *.
  destruct (execute_exchange_logic _ _) as [cont st1].
  destruct Hturn as (Hts & Hdec & Hhalt & Hcall & Hskip).
  split; [exact Hts |]. split; [exact Hdec |].
  split; [| split; [exact Hcall | split; [exact Hskip | split; [| exact Hrun]]]].
  - intros Hcont. rewrite (Hhalt Hcont). split; reflexivity.
  - intros Hlt. apply lt_not_ge in Hlt.
    destruct cont.
    + now rewrite (Hskip eq_refl Hlt).
    + now rewrite (Hhalt eq_refl).
Qed.

Lemma strategy_cadence_witness :
  let strategy := {| call_interval := 60;
                     strategy_decide := fun _ _ =>
                       [Create [Scenario.intent LIMIT BUY LONG 1 100]] |} in
  let st := Scenario.bot 1000 Scenario.no_position [] [] in
  let early := @tick SpecHelpers.helpers strategy (Row.mk 30000 100 101 99 100 3)
                     st [] 0 in
  let late := @tick SpecHelpers.helpers strategy (Row.mk 60000 100 101 99 100 3)
                    st [] 0 in
  (F.lt (F.of_int64 30000 - 0) (60 * 1000) = true /\
   F.ge (F.of_int64 60000 - 0) (60 * 1000) = true)%float /\
  decisions (events (bot_of early)) = [] /\
  decisions (events (bot_of late)) = [[Candle.mk 100 101 99 100 3]] /\
  OrderList.long (orders_to_execute (bot_of late)) = [0].
Proof.
  cbv zeta. split; [split; vm_compute; reflexivity |].
  pose proof (strategy_cadence (H := SpecHelpers.helpers)
                {| call_interval := 60;
                   strategy_decide := fun _ _ =>
                     [Create [Scenario.intent LIMIT BUY LONG 1 100]] |}
                (Row.mk 30000 100 101 99 100 3) []
                (Scenario.bot 1000 Scenario.no_position [] []) [] 0) as Hearly.
  cbv zeta in Hearly.
  destruct (execute_exchange_logic _ _) as [cont st1] eqn:Hstep.
  destruct Hearly as (Hts & _ & _ & _ & _ & Hquiet & _).
  split.
  - rewrite Hquiet; [reflexivity |]. rewrite Hts. vm_compute. reflexivity.
  - vm_compute. split; reflexivity.
Defined.


(** * Further properties of the exchange step *)

(** ** What the matching of a book does to the book, its orders and the trace *)

Section BookMatching.
Context `{Helpers}.
Variable last_candle : Candle.t.

(** Whether the volume of the candle fills the whole of an order. *)
Definition full (o : Order.t) : bool :=
  F.ge (Candle.volume last_candle) (Order.qty o).

(** An order of a book after the matching of the book, [exec] being the
    trigger of the book: a triggered order that is not filled whole has its
    quantity reduced by the volume. *)
Definition after_matching (exec : Order.t -> bool) (o : Order.t) : Order.t :=
  if exec o && negb (full o)
  then Order.set_qty o (Order.qty o - Candle.volume last_candle)%float
  else o.

(** The order reported through [handle_order_update] for a triggered order:
    the working copy, FILLED, or PARTIALLY_FILLED with the quantity left. *)
Definition reported (st : BacktestBot) (o : Order.t) : Order.t :=
  if full o then Order.set_action (working_copy last_candle st o) FILLED
  else Order.set_qty (Order.set_action (working_copy last_candle st o) PARTIALLY_FILLED)
                     (Order.qty (working_copy last_candle st o)
                      - Candle.volume last_candle)%float.

Lemma reported_config (st st' : BacktestBot) (o : Order.t) :
  config st' = config st -> reported st' o = reported st o.
Proof.
  intros Hc. unfold reported, working_copy, price_step. now rewrite Hc.
Qed.

Lemma order_updates_app (evs evs' : list Event) :
  order_updates (evs ++ evs') = order_updates evs ++ order_updates evs'.
Proof. unfold order_updates. apply flat_map_app. Qed.

Lemma order_updates_order (o : Order.t) : order_updates [OrderUpdate o] = [o].
Proof. reflexivity. Qed.

Lemma order_updates_account (b : float) (l s : Position.t) :
  order_updates [AccountUpdate b l s] = [].
Proof. reflexivity. Qed.

(** The two loop bodies are one body, up to the trigger and the settlement
    of the account. *)
Definition match_with (exec : Order.t -> bool)
    (settle : ref -> Order.t -> BacktestBot -> BacktestBot)
    (acc : BacktestBot * list ref) (order : ref) : BacktestBot * list ref :=
  let '(st, orders_to_remove) := acc in
  let o := working_copy last_candle st (deref st order) in
  if exec (deref st order) then
    let '(o, st, orders_to_remove) := fill last_candle order o st orders_to_remove in
    let st := handle_order_update o st in
    (settle order o st, orders_to_remove)
  else (st, orders_to_remove).

Lemma match_long_order_with :
  match_long_order last_candle
  = match_with (long_execution last_candle) (settle_long last_candle).
Proof. reflexivity. Qed.

Lemma match_short_order_with :
  match_short_order last_candle
  = match_with (short_execution last_candle) (settle_short last_candle).
Proof. reflexivity. Qed.

Variable exec : Order.t -> bool.
Variable settle : ref -> Order.t -> BacktestBot -> BacktestBot.
Hypothesis settle_account :
  forall order o st, exists b l s, settle order o st = handle_account_update b l s st.

(** One turn of a matching loop, on a bot with closed books. *)
Lemma match_with_exact (st : BacktestBot) (rm : list ref) (order : ref) :
  books_closed st ->
  let o := deref st order in
  let '(st', rm') := match_with exec settle (st, rm) order in
  open_orders st' = open_orders st /\ orders_to_execute st' = orders_to_execute st /\
  config st' = config st /\ current_timestamp st' = current_timestamp st /\
  length (heap st) <= length (heap st') /\
  rm' = rm ++ (if exec o && full o then [order] else []) /\
  order_updates (events st')
  = order_updates (events st) ++ (if exec o then [reported st o] else []) /\
  forall r, r < length (heap st) ->
            deref st' r = if Nat.eqb r order then after_matching exec o else deref st r.
Proof.
  intros Hclosed. cbv zeta. unfold match_with, after_matching, reported, full.
  destruct (exec (deref st order)) eqn:Hexec; cbn [andb].
  2:{ rewrite !app_nil_r. repeat split; trivial.
      intros r Hr. now destruct (Nat.eqb_spec r order) as [-> |]. }
  unfold fill.
  destruct (F.ge (Candle.volume last_candle) (Order.qty (deref st order))) eqn:Hfull;
    cbn [negb].
  - destruct (settle_account order
                (Order.set_action (working_copy last_candle st (deref st order)) FILLED)
                (handle_order_update
                   (Order.set_action (working_copy last_candle st (deref st order)) FILLED)
                   st)) as (b & l & s & ->).
    autorewrite with bot.
    rewrite (open_orders_handle_order_update _ st Hclosed) by reflexivity.
    rewrite !order_updates_app, order_updates_order, order_updates_account,
      length_app, app_nil_r.
    repeat split; trivial; [lia |].
    intros r Hr. rewrite deref_handle_account_update, deref_handle_order_update by lia.
    now destruct (Nat.eqb_spec r order) as [-> |].
  - set (o' := Order.set_qty
                 (Order.set_action (working_copy last_candle st (deref st order))
                                   PARTIALLY_FILLED) _).
    set (st1 := assign order _ st).
    assert (Hclosed1 : books_closed st1) by
      (unfold books_closed, st1; now rewrite length_heap_assign).
    destruct (settle_account order o' (handle_order_update o' st1)) as (b & l & s & ->).
    autorewrite with bot.
    rewrite (open_orders_handle_order_update _ st1 Hclosed1) by reflexivity.
    rewrite !order_updates_app, order_updates_order, order_updates_account,
      length_app, app_nil_r.
    assert (Hlen1 : length (heap st1) = length (heap st))
      by (unfold st1; apply length_heap_assign).
    rewrite Hlen1, !app_nil_r. change (events st1) with (events st).
    repeat split; trivial; [lia |].
    intros r Hr.
    rewrite deref_handle_account_update, deref_handle_order_update
      by (unfold st1; rewrite length_heap_assign; lia).
    unfold st1. destruct (Nat.eqb_spec r order) as [-> | Hne].
    + now apply deref_assign_same.
    + apply deref_assign_other. congruence.
Qed.

(** A matching loop over a list of distinct objects of the bot [st0]. *)
Lemma match_with_loop (st0 : BacktestBot) :
  books_closed st0 ->
  forall l : list ref,
    NoDup l -> Forall (fun r => r < length (heap st0)) l ->
    forall (st : BacktestBot) (rm : list ref),
      open_orders st = open_orders st0 -> config st = config st0 ->
      length (heap st0) <= length (heap st) ->
      (forall r, In r l -> deref st r = deref st0 r) ->
      let '(st', rm') := fold_left (match_with exec settle) l (st, rm) in
      open_orders st' = open_orders st0 /\ orders_to_execute st' = orders_to_execute st /\
      config st' = config st0 /\ current_timestamp st' = current_timestamp st /\
      length (heap st0) <= length (heap st') /\
      rm' = rm ++ List.filter (fun r => exec (deref st0 r) && full (deref st0 r)) l /\
      order_updates (events st')
      = order_updates (events st)
        ++ map (fun r => reported st0 (deref st0 r))
               (List.filter (fun r => exec (deref st0 r)) l) /\
      forall r, r < length (heap st0) ->
                deref st' r = if existsb (Nat.eqb r) l
                              then after_matching exec (deref st0 r) else deref st r.
Proof.
  intros [Hcl Hcs] l. induction l as [| order l IH];
    intros Hnodup Hl st rm Hoo Hc Hlen Hobj.
  - cbn. rewrite !app_nil_r. repeat split; trivial.
  - apply NoDup_cons in Hnodup as [Hnotin Hnodup].
    apply Forall_cons in Hl as [Horder Hl].
    assert (Hclosed : books_closed st).
    { unfold books_closed. rewrite Hoo.
      split; (eapply Forall_impl; [eassumption | cbn; intros; lia]). }
    cbn [fold_left].
    pose proof (match_with_exact st rm order Hclosed) as Hbody. cbv zeta in Hbody.
    destruct (match_with exec settle (st, rm) order) as [st1 rm1].
    destruct Hbody as (Hoo1 & Hq1 & Hc1 & Ht1 & Hlen1 & -> & Hev1 & Hobj1).
    assert (Hhead : deref st order = deref st0 order) by (apply Hobj; now left).
    rewrite Hhead in Hev1, Hobj1.
    assert (Hobj' : forall r, In r l -> deref st1 r = deref st0 r).
    { intros r Hr. rewrite Forall_forall in Hl.
      rewrite Hobj1 by (apply list_elem_of_In, Hl in Hr; lia).
      destruct (Nat.eqb_spec r order) as [-> | Hne].
      - exfalso. now apply Hnotin, list_elem_of_In.
      - apply Hobj. now right. }
    specialize (IH Hnodup Hl st1 (rm ++ (if exec (deref st0 order) && full (deref st0 order)
                                         then [order] else []))
                   (eq_trans Hoo1 Hoo) (eq_trans Hc1 Hc) ltac:(lia) Hobj').
    rewrite Hhead.
    destruct (fold_left _ _ _) as [st' rm'].
    destruct IH as (Hoo' & Hq' & Hc' & Ht' & Hlen' & -> & Hev' & Hobj'').
    rewrite Hev', Hev1, (reported_config st0 st _ Hc).
    cbn [List.filter existsb].
    repeat split; trivial; try congruence.
    + rewrite <- app_assoc.
      now destruct (exec (deref st0 order) && full (deref st0 order)).
    + rewrite <- app_assoc. now destruct (exec (deref st0 order)).
    + intros r Hr. rewrite Hobj'' by assumption.
      destruct (existsb (Nat.eqb r) l) eqn:Hmem.
      * now rewrite orb_true_r.
      * rewrite orb_false_r, Hobj1 by lia.
        now destruct (Nat.eqb_spec r order) as [-> |].
Qed.
End BookMatching.

Lemma existsb_In (r : ref) (l : list ref) : existsb (Nat.eqb r) l = true <-> In r l.
Proof.
  rewrite existsb_exists. split.
  - intros (x & Hx & Heq). apply Nat.eqb_eq in Heq. now subst.
  - intros Hr. exists r. split; [trivial | apply Nat.eqb_refl].
Qed.

Lemma without_nil (l : list ref) : OrderList.without [] l = l.
Proof.
  apply without_absent. apply Forall_forall. intros r _ [].
Qed.





(** ** A candle that touches nothing *)

Lemma with_open_orders_same (st : BacktestBot) : with_open_orders st (open_orders st) = st.
Proof. now destruct st. Qed.

Lemma with_orders_to_execute_same (st : BacktestBot) :
  with_orders_to_execute st (orders_to_execute st) = st.
Proof. now destruct st. Qed.

Lemma delete_long_nil (ol : OrderList.t) : OrderList.delete_long [] ol = ol.
Proof. unfold OrderList.delete_long. rewrite without_nil. now destruct ol. Qed.

Lemma delete_short_nil (ol : OrderList.t) : OrderList.delete_short [] ol = ol.
Proof. unfold OrderList.delete_short. rewrite without_nil. now destruct ol. Qed.

(** A loop leaves the bot and the orders to remove as they are when its test
    fails on every object it meets. *)
Lemma loop_idle (test : BacktestBot -> Order.t -> bool)
    (body : BacktestBot * list ref -> ref -> BacktestBot * list ref)
    (st : BacktestBot) (rm : list ref) (l : list ref) :
  (forall order, test st (deref st order) = false -> body (st, rm) order = (st, rm)) ->
  Forall (fun r => test st (deref st r) = false) l ->
  fold_left body l (st, rm) = (st, rm).
Proof.
  intros Hbody. induction 1 as [| order l Horder _ IH]; [reflexivity |].
  cbn [fold_left]. now rewrite Hbody.
Qed.

(** X3. A step that does not liquidate, on a candle that triggers no order of
    either open book, at a time when no pending order has arrived, returns
    [True] and leaves the bot as it was: books, queue, account, objects and
    trace. *)
Theorem idle_step `{Helpers} (last_candle : Candle.t) (st : BacktestBot) :
  F.le (available_margin last_candle st) 0 = false ->
  Forall (fun r => long_execution last_candle (deref st r) = false)
         (OrderList.long (open_orders st)) ->
  Forall (fun r => short_execution last_candle (deref st r) = false)
         (OrderList.short (open_orders st)) ->
  Forall (fun r => arrived st (deref st r) = false)
         (OrderList.long (orders_to_execute st) ++ OrderList.short (orders_to_execute st)) ->
  execute_exchange_logic last_candle st = (true, st).
Proof.
  intros Hmargin Hlong Hshort Hqueue. apply Forall_app in Hqueue as [Hql Hqs].
  unfold execute_exchange_logic. rewrite Hmargin.
  assert (Hml : match_long_book last_candle st = st).
  { unfold match_long_book.
    rewrite (loop_idle (fun _ => long_execution last_candle)); trivial.
    - now rewrite delete_long_nil, with_open_orders_same.
    - intros order Hno. unfold match_long_order. now rewrite Hno. }
  rewrite Hml.
  assert (Hms : match_short_book last_candle st = st).
  { unfold match_short_book.
    rewrite (loop_idle (fun _ => short_execution last_candle)); trivial.
    - now rewrite delete_long_nil, with_open_orders_same.
    - intros order Hno. unfold match_short_order. now rewrite Hno. }
  rewrite Hms.
  assert (Hal : admit_long last_candle st = st).
  { unfold admit_long. rewrite (loop_idle arrived); trivial.
    - now rewrite delete_long_nil, with_orders_to_execute_same.
    - intros order Hno. unfold admit_order. now rewrite Hno. }
  rewrite Hal.
  assert (Has : admit_short last_candle st = st).
  { unfold admit_short. rewrite (loop_idle arrived); trivial.
    - now rewrite delete_short_nil, with_orders_to_execute_same.
    - intros order Hno. unfold admit_order. now rewrite Hno. }
  now rewrite Has.
Qed.

(** X3, on a bot at time 1000 with a latency of 500: a LIMIT BUY order at 50
    on the long book, a LIMIT SELL order at 50 on the short book and an
    order stamped at 1000 in the queue, against a candle between 99 and
    101. *)
Lemma idle_step_witness :
  let st := Scenario.pending 1000 [Order.mk "BTCUSDT" 7 100 100 1 LIMIT BUY 1000 NEW LONG] []
              (Scenario.bot 1000 Scenario.no_position
                 [Scenario.limit_buy_long 1 50] [Scenario.limit_sell_short 1 50]) in
  Scenario.step (Scenario.candle_99_101 3) st = (true, st).
Proof.
  cbv zeta. unfold Scenario.step.
  apply (idle_step (H := SpecHelpers.helpers)).
  - vm_compute. reflexivity.
  - repeat constructor.
  - repeat constructor.
  - repeat constructor.
Defined.

(** ** What a liquidation leaves *)

Lemma float_zero_eq : F.eq 0 0 = true.
Proof. reflexivity. Qed.

(** What the two liquidations leave as it was, and the positions after them. *)
Lemma liquidation_frame `{Helpers} (last_candle : Candle.t) (st : BacktestBot) :
  books_closed st ->
  let st' := liquidate_short last_candle (liquidate_long last_candle st) in
  open_orders st' = open_orders st /\
  orders_to_execute st' = orders_to_execute st /\
  config st' = config st /\
  current_timestamp st' = current_timestamp st /\
  length (heap st) <= length (heap st') /\
  (forall r, r < length (heap st) -> deref st' r = deref st r) /\
  F.eq (Position.size (PositionList.long (position st'))) 0 = true /\
  F.eq (Position.size (PositionList.short (position st'))) 0 = true.
Proof.
  intros Hclosed. cbv zeta.
  assert (Hlq : (LQ == NEW) = false) by reflexivity.
  assert (Hstep : forall (st1 : BacktestBot) (o : Order.t) (b : float) (l s : Position.t),
             books_closed st1 -> Order.action o = LQ ->
             let st2 := handle_account_update b l s (handle_order_update o st1) in
             books_closed st2 /\ open_orders st2 = open_orders st1 /\
             orders_to_execute st2 = orders_to_execute st1 /\
             config st2 = config st1 /\ current_timestamp st2 = current_timestamp st1 /\
             length (heap st1) <= length (heap st2) /\
             (forall r, r < length (heap st1) -> deref st2 r = deref st1 r)).
  { intros st1 o b l s Hc1 Ho. cbv zeta.
    assert (Hoo : open_orders (handle_account_update b l s (handle_order_update o st1))
                  = open_orders st1).
    { autorewrite with bot. apply open_orders_handle_order_update; trivial.
      now rewrite Ho. }
    unfold books_closed. rewrite Hoo. autorewrite with bot. rewrite length_app.
    destruct Hc1 as [Hl Hs].
    repeat split; trivial;
      try (eapply Forall_impl; [eassumption | cbn; intros; lia]); [cbn; lia |].
    intros r Hr. now rewrite deref_handle_account_update, deref_handle_order_update. }
  assert (Hlong : let st1 := liquidate_long last_candle st in
             books_closed st1 /\ open_orders st1 = open_orders st /\
             orders_to_execute st1 = orders_to_execute st /\
             config st1 = config st /\ current_timestamp st1 = current_timestamp st /\
             length (heap st) <= length (heap st1) /\
             (forall r, r < length (heap st) -> deref st1 r = deref st r) /\
             F.eq (Position.size (PositionList.long (position st1))) 0 = true /\
             PositionList.short (position st1) = PositionList.short (position st)).
  { cbv zeta. unfold liquidate_long, get_position.
    destruct (F.ne (Position.size (PositionList.long (position st))) 0) eqn:Hne.
    - destruct (Hstep st (liquidation_order last_candle st
                            (Position.size (PositionList.long (position st))) LONG)
                      0%float
                      (empty_position
                         (handle_order_update
                            (liquidation_order last_candle st
                               (Position.size (PositionList.long (position st))) LONG) st)
                         LONG)
                      (PositionList.short
                         (position
                            (handle_order_update
                               (liquidation_order last_candle st
                                  (Position.size (PositionList.long (position st))) LONG)
                               st)))
                      Hclosed eq_refl)
        as (Hc1 & Hoo & Hq & Hc & Ht & Hlen & Hobj).
      do 7 (split; [assumption |]).
      autorewrite with bot. cbn. split; [exact float_zero_eq | reflexivity].
    - do 6 (split; trivial). split; [trivial |].
      split; [| reflexivity]. unfold F.ne in Hne. now apply negb_false_iff in Hne. }
  cbv zeta in Hlong.
  destruct Hlong as (Hc1 & Hoo1 & Hq1 & Hcf1 & Ht1 & Hlen1 & Hobj1 & Hzero1 & Hshort1).
  remember (liquidate_long last_candle st) as st1 eqn:Hst1. clear Hst1.
  unfold liquidate_short, get_position.
  destruct (F.ne (Position.size (PositionList.short (position st1))) 0) eqn:Hne.
  - destruct (Hstep st1 (liquidation_order last_candle st1
                           (Position.size (PositionList.short (position st1))) SHORT)
                    0%float
                    (PositionList.long
                       (position
                          (handle_order_update
                             (liquidation_order last_candle st1
                                (Position.size (PositionList.short (position st1))) SHORT)
                             st1)))
                    (empty_position
                       (handle_order_update
                          (liquidation_order last_candle st1
                             (Position.size (PositionList.short (position st1))) SHORT) st1)
                       SHORT)
                    Hc1 eq_refl)
      as (Hc2 & Hoo & Hq & Hc & Ht & Hlen & Hobj).
    rewrite Hoo, Hq, Hc, Ht. do 4 (split; [assumption |]).
    split; [lia |].
    split; [intros r Hr; rewrite Hobj by lia; now apply Hobj1 |].
    autorewrite with bot. cbn. split; [exact Hzero1 | exact float_zero_eq].
  - do 6 (split; [assumption |]).
    split; [assumption |]. unfold F.ne in Hne. now apply negb_false_iff in Hne.
Qed.



(** ** The account during the matching *)

(** A loop keeps what every turn of it keeps. *)
Lemma loop_keeps {A : Type} (f : BacktestBot -> A)
    (body : BacktestBot * list ref -> ref -> BacktestBot * list ref) :
  (forall st rm order, f (fst (body (st, rm) order)) = f st) ->
  forall l st rm, f (fst (fold_left body l (st, rm))) = f st.
Proof.
  intros Hbody l. induction l as [| order l IH]; intros st rm; [reflexivity |].
  cbn [fold_left]. specialize (Hbody st rm order).
  destruct (body (st, rm) order) as [st1 rm1]. now rewrite IH.
Qed.

(** X5. The matching of the long book leaves the short position as it is,
    and the matching of the short book leaves the long position as it is,
    whatever is filled. *)
Theorem matching_keeps_other_side `{Helpers} (last_candle : Candle.t) (st : BacktestBot) :
  PositionList.short (position (match_long_book last_candle st))
  = PositionList.short (position st) /\
  PositionList.long (position (match_short_book last_candle st))
  = PositionList.long (position st).
Proof.
  split.
  - assert (Hbody : forall st1 rm order,
               PositionList.short
                 (position (fst (match_long_order last_candle (st1, rm) order)))
               = PositionList.short (position st1)).
    { intros st1 rm order. unfold match_long_order.
      destruct (long_execution last_candle (deref st1 order)); [| reflexivity].
      pose proof (fill_account last_candle order
                    (working_copy last_candle st1 (deref st1 order)) st1 rm) as Hfill.
      destruct (fill _ _ _ _ _) as [[o' st2] rm2].
      destruct Hfill as (_ & _ & Hp & _).
      destruct (settle_long_account last_candle order o' (handle_order_update o' st2))
        as (b & p & -> & _).
      cbn [fst]. autorewrite with bot. cbn [PositionList.short]. now rewrite Hp. }
    unfold match_long_book.
    pose proof (loop_keeps (fun st => PositionList.short (position st)) _ Hbody
                  (OrderList.long (open_orders st)) st []) as Hloop.
    now destruct (fold_left _ _ _).
  - assert (Hbody : forall st1 rm order,
               PositionList.long
                 (position (fst (match_short_order last_candle (st1, rm) order)))
               = PositionList.long (position st1)).
    { intros st1 rm order. unfold match_short_order.
      destruct (short_execution last_candle (deref st1 order)); [| reflexivity].
      pose proof (fill_account last_candle order
                    (working_copy last_candle st1 (deref st1 order)) st1 rm) as Hfill.
      destruct (fill _ _ _ _ _) as [[o' st2] rm2].
      destruct Hfill as (_ & _ & Hp & _).
      destruct (settle_short_account last_candle order o' (handle_order_update o' st2))
        as (b & p & -> & _).
      cbn [fst]. autorewrite with bot. cbn [PositionList.long]. now rewrite Hp. }
    unfold match_short_book.
    pose proof (loop_keeps (fun st => PositionList.long (position st)) _ Hbody
                  (OrderList.short (open_orders st)) st []) as Hloop.
    now destruct (fold_left _ _ _).
Qed.

(** No reference read as the empty order is triggered. *)
Lemma triggered_object `{Helpers} (last_candle : Candle.t) (st : BacktestBot) (order : ref) :
  long_execution last_candle (deref st order) = true \/
  short_execution last_candle (deref st order) = true ->
  order < length (heap st).
Proof.
  intros Hexec. destruct (Nat.lt_ge_cases order (length (heap st))) as [Hin | Hout]; trivial.
  exfalso. unfold deref in Hexec. rewrite lookup_ge_None_2 in Hexec by lia.
  unfold long_execution, short_execution in Hexec. cbn in Hexec.
  destruct (F.lt _ _), (F.gt _ _), Hexec; discriminate.
Qed.

(** The working copy differs from the order in its price at most. *)
Lemma qty_working_copy `{Helpers} (last_candle : Candle.t) (st : BacktestBot)
    (order : Order.t) :
  Order.qty (working_copy last_candle st order) = Order.qty order.
Proof. unfold working_copy. now destruct (Order.type order == MARKET). Qed.

Ltac settle_fill Hin :=
  unfold fee_paid, filled_qty, get_balance, get_position, taker_fee, maker_fee,
    quantity_step, leverage;
  rewrite ?deref_handle_order_update
    by (rewrite ?length_heap_assign; exact Hin);
  rewrite ?deref_assign_same by exact Hin;
  autorewrite with bot;
  cbn [Order.type Order.side Order.qty Order.price Order.action Order.set_qty
       Order.set_action balance position config assign with_heap];
  rewrite ?qty_working_copy;
  match goal with
  | |- context [Order.type ?o == MARKET] => destruct (Order.type o == MARKET)
  end;
  match goal with
  | |- context [Order.side ?o == SELL] => destruct (Order.side o == SELL)
  end;
  cbn; repeat split; first [reflexivity | symmetry; apply surjective_pairing].

(** X6. What the fill of a triggered order of the long book does to the
    account. The fee is the cost of the quantity of the order reported, at
    the price of the fill, times the taker fee for a MARKET order and the
    maker fee otherwise: for an order that the volume of the candle does not
    cover this is the quantity left, not the volume traded. The pnl and the
    new size and price of the long position are those of the quantity
    traded, the whole order or the volume of the candle; the pnl is 0 unless
    the side is SELL, and a SELL enters the position with the opposite sign.
    The balance becomes the old one plus fee and pnl, and the liquidation
    price of the long position is the bankruptcy price at that balance. *)
Theorem long_fill_settlement `{Helpers} (last_candle : Candle.t) (st : BacktestBot)
    (orders_to_remove : list ref) (order : ref) :
  long_execution last_candle (deref st order) = true ->
  let o := deref st order in
  let long := PositionList.long (position st) in
  let short := PositionList.short (position st) in
  let price := Order.price (working_copy last_candle st o) in
  let covered := F.ge (Candle.volume last_candle) (Order.qty o) in
  let left := if covered then Order.qty o else (Order.qty o - Candle.volume last_candle)%float in
  let traded := if covered then Order.qty o else Candle.volume last_candle in
  let rate := if Order.type o == MARKET then taker_fee st else maker_fee st in
  let fee := (- quantity_to_cost left price false 1 * rate)%float in
  let pnl := if Order.side o == SELL
             then calculate_long_pnl (Position.price long) price traded false 1
             else 0%float in
  let st' := fst (match_long_order last_candle (st, orders_to_remove) order) in
  let long' := PositionList.long (position st') in
  balance st' = (balance st + fee + pnl)%float /\
  (Position.qty long', Position.price long')
  = calculate_new_position_size_position_price
      (Position.qty long) (Position.price long)
      (if Order.side o == SELL then (- traded)%float else traded) price (quantity_step st) /\
  Position.leverage long' = leverage st /\
  Position.liquidation_price long'
  = calculate_bankruptcy_price (balance st') (Position.qty long') (Position.price long')
      (Position.qty short) (Position.price short) false 1.
Proof.
  intros Hexec. cbv zeta.
  assert (Hin : order < length (heap st)) by (apply (triggered_object last_candle); auto).
  unfold match_long_order. rewrite Hexec. unfold fill.
  destruct (F.ge (Candle.volume last_candle) (Order.qty (deref st order)));
    cbn [fst]; unfold settle_long; settle_fill Hin.
Qed.

(** X6, on the partial fill of a LIMIT BUY LONG order of 10 at 100 by a
    candle of volume 3: the maker fee is taken on the 7 that are left, at
    100. *)
Lemma long_fill_settlement_witness :
  let st := Scenario.bot 1000 Scenario.no_position [Scenario.limit_buy_long 10 100] [] in
  let last_candle := Scenario.candle_99_101 3 in
  long_execution last_candle (deref st 0) = true /\
  balance (fst (@match_long_order SpecHelpers.helpers last_candle (st, []) 0))
  = (1000 + - (7 * 100 * 1) * 0.000244140625 + 0)%float.
Proof.
  cbv zeta.
  assert (Hexec : long_execution (Scenario.candle_99_101 3)
                    (deref (Scenario.bot 1000 Scenario.no_position
                                         [Scenario.limit_buy_long 10 100] []) 0) = true)
    by (vm_compute; reflexivity).
  split; [exact Hexec |].
  destruct (long_fill_settlement (H := SpecHelpers.helpers) _ _ [] 0 Hexec) as (Hb & _).
  rewrite Hb. vm_compute. reflexivity.
Defined.

(** X7. What the fill of a triggered order of the short book does to the
    account: as on the long book, with the pnl of a short position and the
    short position in the place of the long one. The fee is taken on the
    quantity of the order reported, the quantity left when the volume of the
    candle does not cover the order; pnl, size and price are those of the
    quantity traded, and a SELL enters the position with the opposite
    sign. *)
Theorem short_fill_settlement `{Helpers} (last_candle : Candle.t) (st : BacktestBot)
    (orders_to_remove : list ref) (order : ref) :
  short_execution last_candle (deref st order) = true ->
  let o := deref st order in
  let long := PositionList.long (position st) in
  let short := PositionList.short (position st) in
  let price := Order.price (working_copy last_candle st o) in
  let covered := F.ge (Candle.volume last_candle) (Order.qty o) in
  let left := if covered then Order.qty o else (Order.qty o - Candle.volume last_candle)%float in
  let traded := if covered then Order.qty o else Candle.volume last_candle in
  let rate := if Order.type o == MARKET then taker_fee st else maker_fee st in
  let fee := (- quantity_to_cost left price false 1 * rate)%float in
  let pnl := if Order.side o == SELL
             then calculate_short_pnl (Position.price short) price traded false 1
             else 0%float in
  let st' := fst (match_short_order last_candle (st, orders_to_remove) order) in
  let short' := PositionList.short (position st') in
  balance st' = (balance st + fee + pnl)%float /\
  (Position.qty short', Position.price short')
  = calculate_new_position_size_position_price
      (Position.qty short) (Position.price short)
      (if Order.side o == SELL then (- traded)%float else traded) price (quantity_step st) /\
  Position.leverage short' = leverage st /\
  Position.liquidation_price short'
  = calculate_bankruptcy_price (balance st') (Position.qty long) (Position.price long)
      (Position.qty short') (Position.price short') false 1.
Proof.
  intros Hexec. cbv zeta.
  assert (Hin : order < length (heap st)) by (apply (triggered_object last_candle); auto).
  unfold match_short_order. rewrite Hexec. unfold fill.
  destruct (F.ge (Candle.volume last_candle) (Order.qty (deref st order)));
    cbn [fst]; unfold settle_short; settle_fill Hin.
Qed.

(** X7, on the fill of a LIMIT SELL SHORT order of 1 at 100 by a candle of
    volume 5, with no short position: the balance takes the maker fee on 100
    and, the side being SELL, the pnl of 1 short from 0 to 100. *)
Lemma short_fill_settlement_witness :
  let st := Scenario.bot 1000 Scenario.no_position [] [Scenario.limit_sell_short 1 100] in
  let last_candle := Scenario.candle_99_101 5 in
  short_execution last_candle (deref st 0) = true /\
  balance (fst (@match_short_order SpecHelpers.helpers last_candle (st, []) 0))
  = (1000 + - (1 * 100 * 1) * 0.000244140625 + (0 - 100) * 1 * 1)%float.
Proof.
  cbv zeta.
  assert (Hexec : short_execution (Scenario.candle_99_101 5)
                    (deref (Scenario.bot 1000 Scenario.no_position []
                                         [Scenario.limit_sell_short 1 100]) 0) = true)
    by (vm_compute; reflexivity).
  split; [exact Hexec |].
  destruct (short_fill_settlement (H := SpecHelpers.helpers) _ _ [] 0 Hexec) as (Hb & _).
  rewrite Hb. vm_compute. reflexivity.
Defined.

(** ** Batches of orders *)

(** The additions that the loop of [create_orders] and [cancel_orders] has
    gathered so far do not bear on what it does next. *)
Lemma submit_loop_additions (action : string) (orders : list ref) :
  forall (st : BacktestBot) (long_add short_add : list ref),
    fold_left (submit_order action) orders (st, long_add, short_add)
    = let '(st', long_add', short_add') :=
        fold_left (submit_order action) orders (st, [], []) in
      (st', long_add ++ long_add', short_add ++ short_add').
Proof.
  induction orders as [| order orders IH]; intros st long_add short_add.
  - cbn. now rewrite !app_nil_r.
  - cbn [fold_left]. rewrite !submit_order_spec.
    rewrite IH. rewrite (IH _ ([] ++ _) ([] ++ _)).
    destruct (fold_left _ _ _) as [[st' long_add'] short_add'].
    now rewrite !app_nil_l, !app_assoc.
Qed.

(** X8. Handing [create_orders], or [cancel_orders], two batches one after
    the other leaves the bot that handing it the two as one batch leaves;
    and an empty batch leaves the bot as it was. *)
Theorem submit_in_batches (orders more : list ref) (st : BacktestBot) :
  create_orders (orders ++ more) st = create_orders more (create_orders orders st) /\
  cancel_orders (orders ++ more) st = cancel_orders more (cancel_orders orders st) /\
  create_orders [] st = st /\ cancel_orders [] st = st.
Proof.
  assert (Hbatch : forall action,
             submit_orders action (orders ++ more) st
             = submit_orders action more (submit_orders action orders st)).
  { intros action. unfold submit_orders. rewrite fold_left_app.
    destruct (fold_left (submit_order action) orders (st, [], []))
      as [[st1 long_add] short_add].
    rewrite submit_loop_additions.
    assert (Hframe : forall q,
               fold_left (submit_order action) more (with_orders_to_execute st1 q, [], [])
               = let '(st', long_add', short_add') :=
                   fold_left (submit_order action) more (st1, [], []) in
                 (with_orders_to_execute st' q, long_add', short_add')).
    { intros q. generalize (@nil ref) at 1 3 as la. generalize (@nil ref) at 1 2 as sa.
      revert st1. induction more as [| order more' IH]; intros st1 sa la; [reflexivity |].
      cbn [fold_left]. rewrite !submit_order_spec.
      change (update order (stamp action (with_orders_to_execute st1 q))
                     (with_orders_to_execute st1 q))
        with (with_orders_to_execute (update order (stamp action st1) st1) q).
      change (deref (with_orders_to_execute st1 q) order) with (deref st1 order).
      apply IH. }
    set (q := OrderList.add_short short_add _).
    change (with_orders_to_execute (with_orders_to_execute st1 _) q)
      with (with_orders_to_execute st1 q).
    rewrite Hframe. subst q.
    assert (Hinit : stamped_from action st1 [] st1) by (repeat split; trivial).
    destruct (submit_loop action st1 more st1 [] [] [] Hinit)
      as (st2 & -> & (_ & _ & _ & _ & Hq & _)).
    cbn [app with_orders_to_execute orders_to_execute]. rewrite Hq.
    unfold OrderList.add_long, OrderList.add_short. cbn [OrderList.long OrderList.short].
    now rewrite !app_assoc. }
  assert (Hempty : forall action, submit_orders action [] st = st).
  { intros action. unfold submit_orders. cbn.
    destruct st as [c b p oo [ql qs] ts h evs]. cbn.
    unfold OrderList.add_long, OrderList.add_short. cbn. now rewrite !app_nil_r. }
  unfold create_orders, cancel_orders. rewrite !Hbatch, !Hempty. auto.
Qed.

(** [create_orders] and [cancel_orders] leave configuration, clock and the
    number of objects as they are. *)
Lemma submit_orders_frame (action : string) (orders : list ref) (st : BacktestBot) :
  let st' := submit_orders action orders st in
  config st' = config st /\ current_timestamp st' = current_timestamp st /\
  length (heap st') = length (heap st).
Proof.
  cbv zeta. unfold submit_orders.
  assert (Hinit : stamped_from action st [] st) by (repeat split; trivial).
  destruct (submit_loop action st orders st [] [] [] Hinit)
    as (st' & -> & (Hc & _ & _ & _ & _ & Ht & _ & Hlen & _)).
  cbn. auto.
Qed.

Lemma position_side_submitted (action : string) (st : BacktestBot) (b : bool) (o : Order.t) :
  Order.position_side (if b then stamp action st o else o) = Order.position_side o.
Proof. now destruct b. Qed.

(** X9. The queue holds the objects that were handed over, not copies of
    them. When the orders that [create_orders] has queued are handed to
    [cancel_orders] before they are admitted, each of them is in the queue
    of its side twice, and both entries are the one object, which carries
    the action CANCELED: the creation that was pending is a cancellation
    from then on. *)
Theorem cancel_overwrites_creation (orders : list ref) (st : BacktestBot) :
  Forall (fun r => r < length (heap st)) orders ->
  let st' := cancel_orders orders (create_orders orders st) in
  let long_add := List.filter (fun r => Order.position_side (deref st r) == LONG) orders in
  let short_add :=
    List.filter (fun r => negb (Order.position_side (deref st r) == LONG)
                          && (Order.position_side (deref st r) == SHORT)) orders in
  orders_to_execute st'
  = OrderList.mk (OrderList.long (orders_to_execute st) ++ long_add ++ long_add)
                 (OrderList.short (orders_to_execute st) ++ short_add ++ short_add) /\
  forall r, In r orders ->
    Order.action (deref st' r) = CANCELED /\
    deref st' r = stamp CANCELED st (deref st r).
Proof.
  intros Hin. cbv zeta. unfold cancel_orders, create_orders.
  destruct (submit_orders_spec NEW orders st) as (Hq1 & _ & _ & _ & _ & Hobj1).
  destruct (submit_orders_frame NEW orders st) as (Hc1 & Ht1 & Hlen1).
  remember (submit_orders NEW orders st) as st1 eqn:Hst1. clear Hst1.
  destruct (submit_orders_spec CANCELED orders st1) as (Hq2 & _ & _ & _ & _ & Hobj2).
  assert (Hside : forall r, Order.position_side (deref st1 r)
                            = Order.position_side (deref st r)).
  { intros r. rewrite Hobj1. apply position_side_submitted. }
  split.
  - rewrite Hq2, Hq1. cbn [OrderList.long OrderList.short].
    rewrite <- !app_assoc. f_equal; do 2 f_equal; apply List.filter_ext; intros r;
      now rewrite Hside.
  - intros r Hr.
    assert (Hmem : existsb (Nat.eqb r) orders = true) by now apply existsb_In.
    assert (Hlt : Nat.ltb r (length (heap st)) = true).
    { apply Nat.ltb_lt. rewrite Forall_forall in Hin. now apply Hin, list_elem_of_In. }
    rewrite Hobj2, Hlen1, Hmem, Hlt, Hobj1, Hmem, Hlt. cbn [andb].
    unfold stamp, symbol. rewrite Hc1, Ht1. split; reflexivity.
Qed.

(** X9, on an order for the long side, created and cancelled at the time
    1500. *)
Lemma cancel_overwrites_creation_witness :
  let st := mkBot Scenario.settings 1000 Scenario.no_position OrderList.empty
                  OrderList.empty 1500 [Scenario.intent LIMIT BUY LONG 1 100] [] in
  let st' := cancel_orders [0] (create_orders [0] st) in
  Forall (fun r => r < length (heap st)) [0] /\
  OrderList.long (orders_to_execute st') = [0; 0] /\
  map (fun r => Order.action (deref st' r)) (OrderList.long (orders_to_execute st'))
  = [CANCELED; CANCELED].
Proof.
  cbv zeta.
  assert (Hin : Forall (fun r => r < length
                          (heap (mkBot Scenario.settings 1000 Scenario.no_position
                                       OrderList.empty OrderList.empty 1500
                                       [Scenario.intent LIMIT BUY LONG 1 100] []))) [0]).
  { repeat constructor. }
  split; [exact Hin |].
  destruct (cancel_overwrites_creation [0] _ Hin) as (Hq & Hobj).
  pose proof (proj1 (Hobj 0 (or_introl eq_refl))) as Haction.
  assert (Hlong : OrderList.long
                    (orders_to_execute
                       (cancel_orders [0]
                          (create_orders [0]
                             (mkBot Scenario.settings 1000 Scenario.no_position
                                    OrderList.empty OrderList.empty 1500
                                    [Scenario.intent LIMIT BUY LONG 1 100] []))))
                  = [0; 0])
    by (rewrite Hq; reflexivity).
  split; [exact Hlong |].
  rewrite Hlong. cbn [map]. now rewrite Haction.
Defined.

(** ** A candle that touches the price *)

(** No float is below or above itself. *)
Lemma SFcompare_same (s : spec_float) : SFcompare s s = Some Eq \/ SFcompare s s = None.
Proof.
  destruct s as [sg | sg | | sg m e]; cbn; auto.
  - left. now destruct sg.
  - left. rewrite Z.compare_refl, Pos.compare_cont_refl. now destruct sg.
Qed.

Lemma float_lt_irrefl (x : float) : F.lt x x = false.
Proof.
  unfold F.lt. rewrite FloatAxioms.compare_spec.
  now destruct (SFcompare_same (Prim2SF x)) as [-> | ->].
Qed.

Lemma float_gt_irrefl (x : float) : F.gt x x = false.
Proof.
  unfold F.gt. rewrite FloatAxioms.compare_spec.
  now destruct (SFcompare_same (Prim2SF x)) as [-> | ->].
Qed.

(** X10. The comparisons of the trigger are strict: a candle that only
    touches the price of an order does not trigger it. On the long book a
    LIMIT BUY or SL order whose price is the low of the candle is not
    triggered, nor is a LIMIT SELL or TP order whose price is the high; on
    the short book the same holds with low and high exchanged. *)
Theorem touch_does_not_trigger (last_candle : Candle.t) (order : Order.t) :
  (Order.type order = LIMIT /\ Order.side order = BUY) \/ Order.type order = SL \/
  (Order.type order = LIMIT /\ Order.side order = SELL) \/ Order.type order = TP ->
  let buys := (Order.type order == LIMIT) && (Order.side order == BUY)
              || (Order.type order == SL) in
  let at_low := Candle.low last_candle = Order.price order in
  let at_high := Candle.high last_candle = Order.price order in
  ((if buys then at_low else at_high) -> long_execution last_candle order = false) /\
  ((if buys then at_high else at_low) -> short_execution last_candle order = false).
Proof.
  intros Hkind. cbv zeta. unfold long_execution, short_execution.
  destruct order as [sym id price stop qty type side ts action pside].
  cbn [Order.type Order.side Order.price] in *.
  destruct Hkind as [[-> ->] | [-> | [[-> ->] | ->]]]; cbn;
    split; intros ->; rewrite ?float_lt_irrefl, ?float_gt_irrefl;
    repeat match goal with |- context [if ?b then _ else _] => destruct b end;
    reflexivity.
Qed.

(** X10, on a LIMIT BUY order at 99 on the long book and a candle with low
    99. *)
Lemma touch_does_not_trigger_witness :
  (Order.type (Scenario.limit_buy_long 1 99) = LIMIT /\
   Order.side (Scenario.limit_buy_long 1 99) = BUY) /\
  Candle.low (Scenario.candle_99_101 3) = Order.price (Scenario.limit_buy_long 1 99) /\
  long_execution (Scenario.candle_99_101 3) (Scenario.limit_buy_long 1 99) = false.
Proof.
  split; [split; reflexivity |]. split; [reflexivity |].
  apply (proj1 (touch_does_not_trigger (Scenario.candle_99_101 3)
                  (Scenario.limit_buy_long 1 99) (or_introl (conj eq_refl eq_refl)))).
  reflexivity.
Defined.

(** ** The calls of the strategy over a run *)



(** ** What every reachable bot satisfies *)

(** The references of the books and of the queue designate objects, and no
    object is on the open books twice. *)
Definition well_formed (st : BacktestBot) : Prop :=
  heap_closed st /\
  NoDup (OrderList.long (open_orders st) ++ OrderList.short (open_orders st)).

(** The same of the open books alone. *)
Definition books_well_formed (st : BacktestBot) : Prop :=
  books_closed st /\
  NoDup (OrderList.long (open_orders st) ++ OrderList.short (open_orders st)).

Lemma elem_of_without (gone l : list ref) (r : ref) :
  r ∈ OrderList.without gone l -> r ∈ l.
Proof.
  rewrite !list_elem_of_In. intros Hr. now apply in_without in Hr.
Qed.

Lemma NoDup_without (gone l : list ref) : NoDup l -> NoDup (OrderList.without gone l).
Proof.
  rewrite !NoDup_ListNoDup. apply List.NoDup_filter.
Qed.

Lemma NoDup_without_books (gone gone' long short : list ref) :
  NoDup (long ++ short) ->
  NoDup (OrderList.without gone long ++ OrderList.without gone' short).
Proof.
  rewrite !NoDup_app. intros (Hl & Hdisjoint & Hs).
  split; [now apply NoDup_without |]. split; [| now apply NoDup_without].
  intros r Hr Hr'. apply (Hdisjoint r); eauto using elem_of_without.
Qed.

Lemma handle_order_update_books_well_formed (o : Order.t) (st : BacktestBot) :
  books_well_formed st -> books_well_formed (handle_order_update o st).
Proof.
  intros [Hclosed Hnodup].
  split; [now apply handle_order_update_books |].
  destruct (Order.action o == NEW) eqn:Haction.
  - destruct Hclosed as [Hl Hs]. rewrite Forall_forall in Hl, Hs.
    apply NoDup_app in Hnodup as (Hnl & Hdisjoint & Hns).
    unfold handle_order_update, new_object. rewrite Haction.
    destruct (Order.position_side o == LONG); [| destruct (Order.position_side o == SHORT)];
      cbn [open_orders with_open_orders record with_heap OrderList.add_long
           OrderList.add_short OrderList.long OrderList.short].
    + rewrite !NoDup_app. repeat split; trivial.
      * intros r Hr Hr'. apply list_elem_of_singleton in Hr'. subst r.
        apply Hl in Hr. lia.
      * apply NoDup_singleton.
      * intros r Hr Hr'. apply elem_of_app in Hr as [Hr | Hr]; [now apply (Hdisjoint r) |].
        apply list_elem_of_singleton in Hr. subst r. apply Hs in Hr'. lia.
    + rewrite !NoDup_app. repeat split; trivial.
      * intros r Hr Hr'. apply elem_of_app in Hr' as [Hr' | Hr']; [now apply (Hdisjoint r) |].
        apply list_elem_of_singleton in Hr'. subst r. apply Hl in Hr. lia.
      * intros r Hr Hr'. apply list_elem_of_singleton in Hr'. subst r.
        apply Hs in Hr. lia.
      * apply NoDup_singleton.
    + apply NoDup_app. auto.
  - now rewrite (open_orders_handle_order_update o st Hclosed Haction).
Qed.

(** What holds of all entries of a list holds of those a test keeps. *)
Lemma Forall_kept (P : ref -> Prop) (f : ref -> bool) (l : list ref) :
  Forall P l -> Forall P (List.filter f l).
Proof.
  intros Hl. apply Forall_forall. intros r Hr.
  apply list_elem_of_In, filter_In in Hr as [Hr _].
  rewrite Forall_forall in Hl. now apply Hl, list_elem_of_In.
Qed.

(** A loop keeps what every turn of it keeps of the bot. *)
Lemma loop_invariant (P : BacktestBot -> Prop)
    (body : BacktestBot * list ref -> ref -> BacktestBot * list ref) :
  (forall st rm order, P st -> P (fst (body (st, rm) order))) ->
  forall l st rm, P st -> P (fst (fold_left body l (st, rm))).
Proof.
  intros Hbody l. induction l as [| order l IH]; intros st rm Hst; [exact Hst |].
  cbn [fold_left]. specialize (Hbody st rm order Hst).
  destruct (body (st, rm) order) as [st1 rm1]. now apply IH.
Qed.

Section WellFormed.
Context `{Helpers}.
Variable last_candle : Candle.t.

Lemma match_long_book_well_formed (st : BacktestBot) :
  well_formed st -> well_formed (match_long_book last_candle st).
Proof.
  intros [Hclosed Hnodup].
  split; [now apply match_long_book_closed |].
  unfold match_long_book.
  pose proof (match_long_loop last_candle st (heap_closed_books st Hclosed)) as Hloop.
  destruct (fold_left _ _ _) as [st' rm].
  destruct Hloop as [(Hoo & _) _]. cbn. rewrite Hoo.
  rewrite <- (without_nil (OrderList.short (open_orders st))).
  now apply NoDup_without_books.
Qed.

Lemma match_short_book_well_formed (st : BacktestBot) :
  well_formed st -> well_formed (match_short_book last_candle st).
Proof.
  intros [Hclosed Hnodup].
  split; [now apply match_short_book_closed |].
  unfold match_short_book.
  pose proof (match_short_loop last_candle st (heap_closed_books st Hclosed)) as Hloop.
  destruct (fold_left _ _ _) as [st' rm].
  destruct Hloop as [(Hoo & _) _]. cbn. rewrite Hoo.
  rewrite <- (without_nil (OrderList.short (open_orders st))).
  now apply NoDup_without_books.
Qed.

Lemma admit_order_books_well_formed (st : BacktestBot) (rm : list ref) (order : ref) :
  books_well_formed st -> books_well_formed (fst (admit_order last_candle (st, rm) order)).
Proof.
  intros Hst. unfold admit_order.
  destruct (arrived st (deref st order)); [| exact Hst].
  destruct (affordable last_candle st (deref st order)); cbn [fst];
    [now apply handle_order_update_books_well_formed | exact Hst].
Qed.

Lemma admission_well_formed (st : BacktestBot) :
  well_formed st -> well_formed (admit_short last_candle (admit_long last_candle st)).
Proof.
  intros [Hclosed Hnodup].
  assert (Hbooks : books_well_formed (admit_short last_candle (admit_long last_candle st))).
  { assert (Hlong : books_well_formed (admit_long last_candle st)).
    { unfold admit_long.
      pose proof (loop_invariant books_well_formed _ admit_order_books_well_formed
                    (OrderList.long (orders_to_execute st)) st []
                    (conj (heap_closed_books st Hclosed) Hnodup)) as Hloop.
      now destruct (fold_left _ _ _). }
    unfold admit_short.
    pose proof (loop_invariant books_well_formed _ admit_order_books_well_formed
                  (OrderList.short (orders_to_execute (admit_long last_candle st)))
                  (admit_long last_candle st) [] Hlong) as Hloop.
    now destruct (fold_left _ _ _). }
  destruct Hbooks as [[Hl Hs] Hnodup'].
  split; [| exact Hnodup'].
  destruct (admit_short_spec last_candle st Hclosed)
    as ((_ & _ & _ & _ & Hlen & _) & _ & Hq & _).
  cbv zeta in Hq. unfold heap_closed. rewrite Hq. cbn [OrderList.long OrderList.short].
  unfold heap_closed in Hclosed. rewrite !Forall_app in *.
  destruct Hclosed as (_ & _ & Hql & Hqs).
  repeat split; trivial; apply Forall_kept;
    (eapply Forall_impl; [eassumption | cbn; intros; lia]).
Qed.

Lemma execute_exchange_logic_well_formed (st : BacktestBot) :
  well_formed st -> well_formed (snd (execute_exchange_logic last_candle st)).
Proof.
  intros Hst. unfold execute_exchange_logic.
  destruct (F.le (available_margin last_candle st) 0); cbn [snd].
  - destruct Hst as [Hclosed Hnodup].
    destruct (liquidation_frame last_candle st (heap_closed_books st Hclosed))
      as (Hoo & Hq & _ & _ & Hlen & _).
    unfold well_formed, heap_closed. rewrite Hoo, Hq. split; [| exact Hnodup].
    eapply Forall_impl; [exact Hclosed | cbn; intros; lia].
  - now apply admission_well_formed, match_short_book_well_formed,
      match_long_book_well_formed.
Qed.
End WellFormed.

Lemma submit_orders_well_formed (action : string) (orders : list ref) (st : BacktestBot) :
  well_formed st -> Forall (fun r => r < length (heap st)) orders ->
  well_formed (submit_orders action orders st).
Proof.
  intros [Hclosed Hnodup] Horders.
  destruct (submit_orders_spec action orders st) as (Hq & Hoo & _).
  destruct (submit_orders_frame action orders st) as (_ & _ & Hlen).
  unfold well_formed, heap_closed. rewrite Hq, Hoo, Hlen.
  cbn [OrderList.long OrderList.short]. split; [| exact Hnodup].
  unfold heap_closed in Hclosed. rewrite !Forall_app in *.
  destruct Hclosed as (Hl & Hs & Hql & Hqs).
  repeat split; trivial; now apply Forall_kept.
Qed.

Lemma serve_well_formed (st : BacktestBot) (i : Intent) :
  well_formed st -> well_formed (serve st i).
Proof.
  intros [Hclosed Hnodup].
  assert (Hgrown : forall (action : string) (orders : list Order.t),
             well_formed (submit_orders action (seq (length (heap st)) (length orders))
                            (with_heap st (heap st ++ orders)))).
  { intros action orders. apply submit_orders_well_formed.
    - split; [| exact Hnodup]. unfold heap_closed in *. cbn. rewrite length_app.
      eapply Forall_impl; [exact Hclosed | cbn; intros; lia].
    - cbn. rewrite length_app. apply Forall_forall. intros r Hr.
      apply list_elem_of_In, in_seq in Hr. lia. }
  destruct i as [orders | orders]; cbn [serve new_objects]; apply Hgrown.
Qed.

Lemma decide_well_formed (strategy : Strategy) (price_list : list Candle.t)
    (st : BacktestBot) :
  well_formed st -> well_formed (decide strategy price_list st).
Proof.
  intros Hst. unfold decide.
  assert (Hserve : forall l st1, well_formed st1 -> well_formed (fold_left serve l st1)).
  { induction l as [| i l IH]; intros st1 Hst1; [exact Hst1 |].
    cbn [fold_left]. now apply IH, serve_well_formed. }
  apply Hserve. exact Hst.
Qed.

Lemma iterate_well_formed `{Helpers} (strategy : Strategy) (data : list Row.t) :
  forall (st : BacktestBot) (price_list : list Candle.t) (last_update : float),
    well_formed st -> well_formed (iterate strategy data st price_list last_update).
Proof.
  induction data as [| i data IH]; intros st price_list last_update Hst; [exact Hst |].
  cbn [iterate]. unfold tick.
  pose proof (execute_exchange_logic_well_formed (prepare_candle i)
                (with_current_timestamp st (F.to_int64 (Row.time i))) Hst) as Hstep.
  destruct (execute_exchange_logic _ _) as [[|] st1]; cbn [snd negb] in *; [| exact Hstep].
  destruct (F.ge _ _); apply IH; trivial. now apply decide_well_formed.
Qed.

(** X12. The references of the books and of the queue designating objects,
    and no object being on the open books twice, is kept by everything the
    bot does: by the exchange step on any candle, liquidating or not, by
    [create_orders] and [cancel_orders] on orders that are objects, and by
    the loop of [start_websocket] over any data with any strategy. *)
Theorem well_formed_kept `{Helpers} (st : BacktestBot) :
  well_formed st ->
  (forall last_candle, well_formed (snd (execute_exchange_logic last_candle st))) /\
  (forall orders, Forall (fun r => r < length (heap st)) orders ->
     well_formed (create_orders orders st) /\ well_formed (cancel_orders orders st)) /\
  (forall strategy data price_list last_update,
     well_formed (iterate strategy data st price_list last_update)) /\
  (forall strategy data st', start_websocket strategy data st = Some st' -> well_formed st').
Proof.
  intros Hst. split; [| split; [| split]].
  - intros last_candle. now apply execute_exchange_logic_well_formed.
  - intros orders Horders. split; now apply submit_orders_well_formed.
  - intros. now apply iterate_well_formed.
  - intros strategy [| first data] st' Hrun; [discriminate |].
    injection Hrun as <-.
    exact (iterate_well_formed strategy (first :: data) st [] (Row.time first) Hst).
Qed.

(** X12, from a bot with no order on its books and none in its queue, over
    two rows a minute apart, with a strategy that creates an order for the
    long side at every call. *)
Lemma well_formed_kept_witness :
  let strategy := {| call_interval := 60;
                     strategy_decide := fun _ _ =>
                       [Create [Scenario.intent LIMIT BUY LONG 1 100]] |} in
  let st := Scenario.bot 1000 Scenario.no_position [] [] in
  let data := [Row.mk 0 100 101 99 100 3; Row.mk 60000 100 101 99 100 3] in
  well_formed st /\
  exists st', @start_websocket SpecHelpers.helpers strategy data st = Some st' /\
              well_formed st' /\
              OrderList.long (orders_to_execute st') = [0].
Proof.
  cbv zeta.
  assert (Hst : well_formed (Scenario.bot 1000 Scenario.no_position [] [])).
  { split; [constructor | apply NoDup_nil; trivial]. }
  split; [exact Hst |].
  destruct (well_formed_kept (H := SpecHelpers.helpers) _ Hst) as (_ & _ & _ & Hrun).
  set (strategy := {| call_interval := 60%float;
                      strategy_decide := fun _ _ =>
                        [Create [Scenario.intent LIMIT BUY LONG 1 100]] |}).
  set (data := [Row.mk 0 100 101 99 100 3; Row.mk 60000 100 101 99 100 3]).
  exists (@iterate SpecHelpers.helpers strategy data
                   (Scenario.bot 1000 Scenario.no_position [] []) [] 0%float).
  split; [reflexivity |].
  split; [apply (Hrun strategy data); reflexivity | vm_compute; reflexivity].
Defined.

(** ** The matching of a book, as a whole *)

Section Outside.
Context `{Helpers}.
Variable last_candle : Candle.t.

(** The matching of a book on the objects of the bot, and what it reports. *)
Lemma match_long_book_spec (st : BacktestBot) :
  books_closed st -> NoDup (OrderList.long (open_orders st)) ->
  let st' := match_long_book last_candle st in
  order_updates (events st')
  = order_updates (events st)
    ++ map (fun r => reported last_candle st (deref st r))
           (List.filter (fun r => long_execution last_candle (deref st r))
                        (OrderList.long (open_orders st))) /\
  forall r, r < length (heap st) ->
    deref st' r
    = if existsb (Nat.eqb r) (OrderList.long (open_orders st))
      then after_matching last_candle (long_execution last_candle) (deref st r)
      else deref st r.
Proof.
  intros Hclosed Hnodup. cbv zeta. unfold match_long_book.
  rewrite match_long_order_with.
  pose proof (match_with_loop last_candle (long_execution last_candle)
                (settle_long last_candle)
                (fun order o st1 =>
                   match settle_long_account last_candle order o st1 with
                   | ex_intro _ b (ex_intro _ p (conj Heq _)) =>
                       ex_intro _ b (ex_intro _ p (ex_intro _ _ Heq))
                   end)
                st Hclosed _ Hnodup (proj1 Hclosed) st [] eq_refl eq_refl (le_n _)
                (fun _ _ => eq_refl)) as Hloop.
  destruct (fold_left _ _ _) as [st' rm].
  destruct Hloop as (_ & _ & _ & _ & _ & _ & Hev & Hobj).
  split; [exact Hev | exact Hobj].
Qed.

Lemma match_short_book_spec (st : BacktestBot) :
  books_closed st -> NoDup (OrderList.short (open_orders st)) ->
  let st' := match_short_book last_candle st in
  order_updates (events st')
  = order_updates (events st)
    ++ map (fun r => reported last_candle st (deref st r))
           (List.filter (fun r => short_execution last_candle (deref st r))
                        (OrderList.short (open_orders st))) /\
  forall r, r < length (heap st) ->
    deref st' r
    = if existsb (Nat.eqb r) (OrderList.short (open_orders st))
      then after_matching last_candle (short_execution last_candle) (deref st r)
      else deref st r.
Proof.
  intros Hclosed Hnodup. cbv zeta. unfold match_short_book.
  rewrite match_short_order_with.
  pose proof (match_with_loop last_candle (short_execution last_candle)
                (settle_short last_candle)
                (fun order o st1 =>
                   match settle_short_account last_candle order o st1 with
                   | ex_intro _ b (ex_intro _ p (conj Heq _)) =>
                       ex_intro _ b (ex_intro _ _ (ex_intro _ p Heq))
                   end)
                st Hclosed _ Hnodup (proj2 Hclosed) st [] eq_refl eq_refl (le_n _)
                (fun _ _ => eq_refl)) as Hloop.
  destruct (fold_left _ _ _) as [st' rm].
  destruct Hloop as (_ & _ & _ & _ & _ & _ & Hev & Hobj).
  split; [exact Hev | exact Hobj].
Qed.

(** The matching of a book leaves the objects that are not on it alone. *)
Lemma match_long_book_outside (st : BacktestBot) (r : ref) :
  books_closed st -> NoDup (OrderList.long (open_orders st)) ->
  r < length (heap st) -> ~ In r (OrderList.long (open_orders st)) ->
  deref (match_long_book last_candle st) r = deref st r.
Proof.
  intros Hclosed Hnodup Hin Hr.
  destruct (match_long_book_spec st Hclosed Hnodup) as [_ Hobj]. rewrite (Hobj r Hin).
  destruct (existsb (Nat.eqb r) (OrderList.long (open_orders st))) eqn:Hmem; trivial.
  now apply existsb_In in Hmem.
Qed.

Lemma match_short_book_outside (st : BacktestBot) (r : ref) :
  books_closed st -> NoDup (OrderList.short (open_orders st)) ->
  r < length (heap st) -> ~ In r (OrderList.short (open_orders st)) ->
  deref (match_short_book last_candle st) r = deref st r.
Proof.
  intros Hclosed Hnodup Hin Hr.
  destruct (match_short_book_spec st Hclosed Hnodup) as [_ Hobj]. rewrite (Hobj r Hin).
  destruct (existsb (Nat.eqb r) (OrderList.short (open_orders st))) eqn:Hmem; trivial.
  now apply existsb_In in Hmem.
Qed.

(** A pending order that has arrived and that the margin covers is handed
    to [handle_order_update]. *)
Lemma admitted_In (st : BacktestBot) (queue : list ref) (r : ref) :
  In r queue -> arrived st (deref st r) = true ->
  affordable last_candle st (deref st r) = true ->
  In (deref st r) (admitted last_candle st queue).
Proof.
  intros Hr Harrived Haffordable. unfold admitted.
  apply filter_In. split; [| exact Haffordable].
  apply filter_In. split; [| exact Harrived]. now apply in_map.
Qed.
End Outside.

(** ** From [create_orders] to the open book *)

(** X13. From [create_orders] to the open book. An order for the long side
    that is an object of a well-formed bot and is on neither open book is
    handed to [create_orders]; the clock is then set to [ts] and the step
    run on a candle that does not liquidate. If the current timestamp at
    the creation plus the latency is at most [ts], and the quantity of the
    order times its price is below the margin that is available when the
    matching of the books is done, then the order, with the symbol of the
    bot, the timestamp of its creation and the action NEW, is reported
    through [handle_order_update] and is on the long book after the step,
    and the object has left the queue. *)
Theorem created_order_opens `{Helpers} (last_candle : Candle.t) (st : BacktestBot)
    (order : ref) (ts : Z) :
  well_formed st ->
  order < length (heap st) ->
  ~ In order (OrderList.long (open_orders st)) ->
  ~ In order (OrderList.short (open_orders st)) ->
  Order.position_side (deref st order) = LONG ->
  let o := deref st order in
  let created :=
    Order.mk (symbol st) (Order.client_id o) (Order.price o) (Order.stop_price o)
             (Order.qty o) (Order.type o) (Order.side o) (current_timestamp st) NEW LONG in
  let st1 := with_current_timestamp (create_orders [order] st) ts in
  let st2 := match_short_book last_candle (match_long_book last_candle st1) in
  F.le (available_margin last_candle st1) 0 = false ->
  F.le (F.of_int64 (current_timestamp st) + latency st)%float (F.of_int64 ts) = true ->
  F.lt (Order.qty o * Order.price o)%float (available_margin last_candle st2) = true ->
  let '(cont, st') := execute_exchange_logic last_candle st1 in
  cont = true /\
  In (OrderUpdate created) (events st') /\
  In created (long_orders st') /\
  ~ In order (OrderList.long (orders_to_execute st')).
Proof.
  intros Hwf Hin Hnl Hns Hside. cbv zeta. intros Hmargin Harrived Haffordable.
  unfold create_orders in *.
  destruct (submit_orders_spec NEW [order] st) as (Hq0 & Hoo0 & _ & _ & _ & Hobj0).
  destruct (submit_orders_frame NEW [order] st) as (Hc0 & Ht0 & Hlen0).
  assert (Hwf1 : well_formed (with_current_timestamp (submit_orders NEW [order] st) ts)).
  { apply (submit_orders_well_formed NEW [order] st Hwf). now repeat constructor. }
  assert (Hobj1 : deref (with_current_timestamp (submit_orders NEW [order] st) ts) order
                  = stamp NEW st (deref st order)).
  { change (deref (with_current_timestamp ?s ts) order) with (deref s order).
    rewrite Hobj0. cbn [existsb]. rewrite Nat.eqb_refl.
    apply Nat.ltb_lt in Hin. now rewrite Hin. }
  assert (Hqueue : In order (OrderList.long
                     (orders_to_execute
                        (with_current_timestamp (submit_orders NEW [order] st) ts)))).
  { change (orders_to_execute (with_current_timestamp ?s ts)) with (orders_to_execute s).
    rewrite Hq0. cbn [OrderList.long]. apply in_or_app. right.
    apply filter_In. split; [now left | cbv beta; now rewrite Hside]. }
  assert (Hbooks1 : open_orders (with_current_timestamp (submit_orders NEW [order] st) ts)
                    = open_orders st) by exact Hoo0.
  assert (Hlen1 : length (heap (with_current_timestamp (submit_orders NEW [order] st) ts))
                  = length (heap st)) by exact Hlen0.
  assert (Hcfg1 : config (with_current_timestamp (submit_orders NEW [order] st) ts)
                  = config st) by exact Hc0.
  assert (Hts1 : current_timestamp (with_current_timestamp (submit_orders NEW [order] st) ts)
                 = ts) by reflexivity.
  remember (with_current_timestamp (submit_orders NEW [order] st) ts) as st1 eqn:Hst1.
  clear Hst1 Hq0 Hoo0 Hobj0 Hc0 Ht0 Hlen0.
  unfold execute_exchange_logic. rewrite Hmargin.
  pose proof (match_long_book_well_formed last_candle st1 Hwf1) as Hwfl.
  destruct Hwf1 as [Hclosed1 Hnodup1].
  destruct (match_long_book_closed last_candle st1 Hclosed1) as (Hclosedl & Hql & Hcl & Htl).
  destruct (match_short_book_closed last_candle _ Hclosedl) as (Hclosed2 & Hq2 & Hc2 & Ht2).
  apply NoDup_app in Hnodup1 as (Hndl & _ & Hnds).
  assert (Hobjl : deref (match_long_book last_candle st1) order = deref st1 order).
  { apply match_long_book_outside; trivial.
    - now apply heap_closed_books.
    - now rewrite Hlen1.
    - now rewrite Hbooks1. }
  assert (Hshortl : OrderList.short (open_orders (match_long_book last_candle st1))
                    = OrderList.short (open_orders st)).
  { rewrite <- Hbooks1. unfold match_long_book.
    pose proof (match_long_loop last_candle st1 (heap_closed_books st1 Hclosed1)) as Hloop.
    destruct (fold_left _ _ _) as [st' rm].
    destruct Hloop as [(Hoo & _) _]. cbn. now rewrite Hoo. }
  assert (Hlenl : length (heap st1) <= length (heap (match_long_book last_candle st1))).
  { unfold match_long_book.
    pose proof (match_long_loop last_candle st1 (heap_closed_books st1 Hclosed1)) as Hloop.
    destruct (fold_left _ _ _) as [st' rm].
    now destruct Hloop as [(_ & _ & _ & _ & Hlen & _) _]. }
  assert (Hobj2 : deref (match_short_book last_candle (match_long_book last_candle st1)) order
                  = stamp NEW st (deref st order)).
  { rewrite match_short_book_outside, Hobjl; trivial.
    - now apply heap_closed_books.
    - destruct Hwfl as [_ Hnd]. now apply NoDup_app in Hnd as (_ & _ & Hnd).
    - lia.
    - now rewrite Hshortl. }
  pose proof (admission_spec last_candle _ Hclosed2) as Hspec. cbv zeta in Hspec.
  remember (match_short_book last_candle (match_long_book last_candle st1)) as st2 eqn:Hst2.
  clear Hst2.
  destruct Hspec as (Hlq & _ & Hev & Hlong & _).
  assert (Hdue : arrived st2 (deref st2 order) = true).
  { rewrite Hobj2. unfold arrived, latency. rewrite Hc2, Hcl, Hcfg1, Ht2, Htl, Hts1.
    exact Harrived. }
  assert (Hcovered : affordable last_candle st2 (deref st2 order) = true).
  { rewrite Hobj2. exact Haffordable. }
  assert (Hadmitted : In (deref st2 order)
                         (admitted last_candle st2
                            (OrderList.long (orders_to_execute st2)
                             ++ OrderList.short (orders_to_execute st2)))).
  { apply admitted_In; trivial. apply in_or_app. left. now rewrite Hq2, Hql. }
  assert (Hcreated : deref st2 order
                     = Order.mk (symbol st) (Order.client_id (deref st order))
                         (Order.price (deref st order)) (Order.stop_price (deref st order))
                         (Order.qty (deref st order)) (Order.type (deref st order))
                         (Order.side (deref st order)) (current_timestamp st) NEW LONG).
  { rewrite Hobj2. unfold stamp. rewrite <- Hside. now destruct (deref st order). }
  rewrite <- Hcreated.
  split; [reflexivity |]. split; [| split].
  - rewrite Hev. apply in_or_app. right. now apply in_map.
  - rewrite Hlong. apply in_or_app. right. apply filter_In. split; [exact Hadmitted |].
    rewrite Hcreated. reflexivity.
  - rewrite Hlq. intros Hstill. apply filter_In in Hstill as [_ Hstill].
    rewrite Hdue in Hstill. discriminate.
Qed.

(** X13, with a latency of 500: an order created at 1000 is open after the
    step at 1500. *)
Lemma created_order_opens_witness :
  let st := mkBot Scenario.settings 1000 Scenario.no_position OrderList.empty
                  OrderList.empty 1000 [Scenario.intent LIMIT BUY LONG 1 100] [] in
  let last_candle := Scenario.candle_99_101 3 in
  let st1 := with_current_timestamp (create_orders [0] st) 1500 in
  (well_formed st /\ 0 < length (heap st) /\
   Order.position_side (deref st 0) = LONG /\
   F.le (@available_margin SpecHelpers.helpers last_candle st1) 0 = false /\
   F.le (F.of_int64 (current_timestamp st) + latency st)%float (F.of_int64 1500) = true) /\
  In (Order.mk "BTCUSDT" 7 100 100 1 LIMIT BUY 1000 NEW LONG)
     (long_orders (snd (@execute_exchange_logic SpecHelpers.helpers last_candle st1))).
Proof.
  cbv zeta.
  assert (Hwf : well_formed
                  (mkBot Scenario.settings 1000 Scenario.no_position OrderList.empty
                         OrderList.empty 1000 [Scenario.intent LIMIT BUY LONG 1 100] [])).
  { split; [constructor | apply NoDup_nil; trivial]. }
  assert (Hin : 0 < length
                      (heap (mkBot Scenario.settings 1000 Scenario.no_position
                                   OrderList.empty OrderList.empty 1000
                                   [Scenario.intent LIMIT BUY LONG 1 100] [])))
    by (cbn; lia).
  assert (Hmargin : F.le (@available_margin SpecHelpers.helpers (Scenario.candle_99_101 3)
                            (with_current_timestamp
                               (create_orders [0]
                                  (mkBot Scenario.settings 1000 Scenario.no_position
                                         OrderList.empty OrderList.empty 1000
                                         [Scenario.intent LIMIT BUY LONG 1 100] []))
                               1500)) 0 = false)
    by (vm_compute; reflexivity).
  assert (Harrived : F.le (F.of_int64 1000 + 500)%float (F.of_int64 1500) = true)
    by (vm_compute; reflexivity).
  split.
  { split; [exact Hwf |]. split; [exact Hin |]. split; [reflexivity |].
    split; [exact Hmargin | exact Harrived]. }
  pose proof (created_order_opens (H := SpecHelpers.helpers) (Scenario.candle_99_101 3)
                _ 0 1500 Hwf Hin (fun H => H) (fun H => H) eq_refl Hmargin Harrived)
    as Hthm.
  cbv zeta in Hthm.
  destruct (execute_exchange_logic _ _) as [cont st'].
  destruct Hthm as (_ & _ & Hlong & _); [vm_compute; reflexivity | exact Hlong].
Defined.

(** ** What a step reports *)





(** X15. The admission reserves no margin. On a well-formed bot, in a step
    that does not liquidate, the margin that a pending order is held
    against is the one available when the matching is done, whatever has
    been admitted before it in the same step: when every pending order has
    arrived and each of them alone is below that margin, all of them are
    handed to [handle_order_update], in the order of the long queue
    followed by the short queue, and both queues are empty after the
    step. *)
Theorem admission_reserves_nothing `{Helpers} (last_candle : Candle.t) (st : BacktestBot) :
  well_formed st ->
  F.le (available_margin last_candle st) 0 = false ->
  let st2 := match_short_book last_candle (match_long_book last_candle st) in
  let queue := OrderList.long (orders_to_execute st)
               ++ OrderList.short (orders_to_execute st) in
  Forall (fun r => arrived st (deref st2 r) = true) queue ->
  Forall (fun r => F.lt (Order.qty (deref st2 r) * Order.price (deref st2 r))%float
                        (available_margin last_candle st2) = true) queue ->
  let st' := snd (execute_exchange_logic last_candle st) in
  events st' = events st2 ++ map (fun r => OrderUpdate (deref st2 r)) queue /\
  orders_to_execute st' = OrderList.empty /\
  balance st' = balance st2 /\ position st' = position st2.
Proof.
  intros [Hclosed Hnodup] Hmargin. cbv zeta. intros Hdue Hcovered.
  unfold execute_exchange_logic. rewrite Hmargin. cbn [snd].
  destruct (match_long_book_closed last_candle st Hclosed) as (Hclosedl & Hql & Hcl & Htl).
  destruct (match_short_book_closed last_candle _ Hclosedl) as (Hclosed2 & Hq2 & Hc2 & Ht2).
  pose proof (admission_spec last_candle _ Hclosed2) as Hspec. cbv zeta in Hspec.
  remember (match_short_book last_candle (match_long_book last_candle st)) as st2 eqn:Hst2.
  clear Hst2.
  destruct Hspec as (Hlq & Hsq & Hev & _ & _ & Hb & Hp & _).
  assert (Harrived : forall o, arrived st2 o = arrived st o).
  { intros o. unfold arrived, latency. now rewrite Hc2, Hcl, Ht2, Htl. }
  rewrite Hq2, Hql in Hlq, Hsq, Hev.
  assert (Hall : forall l,
             Forall (fun r => arrived st (deref st2 r) = true) l ->
             Forall (fun r => F.lt (Order.qty (deref st2 r) * Order.price (deref st2 r))%float
                                   (available_margin last_candle st2) = true) l ->
             admitted last_candle st2 l = map (deref st2) l).
  { unfold admitted. induction l as [| r l IH]; intros Hd Hc; [reflexivity |].
    apply Forall_cons in Hd as [Hr Hd]. apply Forall_cons in Hc as [Hr' Hc].
    cbn [map List.filter]. rewrite Harrived, Hr. cbn [List.filter].
    unfold affordable at 1. rewrite Hr'. now rewrite IH. }
  rewrite Hev, (Hall _ Hdue Hcovered), map_map.
  split; [reflexivity |]. split; [| auto].
  apply Forall_app in Hdue as [Hduel Hdues].
  assert (Hnone : forall l, Forall (fun r => arrived st (deref st2 r) = true) l ->
                            List.filter (fun r => negb (arrived st2 (deref st2 r))) l = []).
  { induction 1 as [| r l Hr _ IH]; [reflexivity |].
    cbn [List.filter]. now rewrite Harrived, Hr. }
  assert (Heta : forall ol, ol = OrderList.mk (OrderList.long ol) (OrderList.short ol))
    by now intros [].
  rewrite (Heta (orders_to_execute _)), Hlq, Hsq.
  now rewrite !Hnone.
Qed.

(** X15, with a margin of 1000 and two pending orders of 6 at 100: each is
    below the margin, the two together are not, and both are handed on. *)
Lemma admission_reserves_nothing_witness :
  let order := Order.mk "BTCUSDT" 7 100 100 6 LIMIT BUY 1000 NEW LONG in
  let st := Scenario.pending 1500 [order; order] []
              (Scenario.bot 1000 Scenario.no_position [] []) in
  let last_candle := Scenario.candle_99_101 3 in
  let st2 := @match_short_book SpecHelpers.helpers last_candle
               (@match_long_book SpecHelpers.helpers last_candle st) in
  let queue := OrderList.long (orders_to_execute st)
               ++ OrderList.short (orders_to_execute st) in
  (well_formed st /\
   F.le (@available_margin SpecHelpers.helpers last_candle st) 0 = false /\
   Forall (fun r => @arrived st (deref st2 r) = true) queue /\
   Forall (fun r => F.lt (Order.qty (deref st2 r) * Order.price (deref st2 r))%float
                         (@available_margin SpecHelpers.helpers last_candle st2) = true)
          queue) /\
  F.lt (6 * 100 + 6 * 100)%float (@available_margin SpecHelpers.helpers last_candle st2)
  = false /\
  events (snd (Scenario.step last_candle st)) = [OrderUpdate order; OrderUpdate order].
Proof.
  cbv zeta.
  set (st := Scenario.pending 1500
               [Order.mk "BTCUSDT" 7 100 100 6 LIMIT BUY 1000 NEW LONG;
                Order.mk "BTCUSDT" 7 100 100 6 LIMIT BUY 1000 NEW LONG] []
               (Scenario.bot 1000 Scenario.no_position [] [])).
  assert (Hwf : well_formed st).
  { split; [unfold heap_closed; cbn; repeat constructor | apply NoDup_nil; trivial]. }
  assert (Hmargin : F.le (@available_margin SpecHelpers.helpers
                            (Scenario.candle_99_101 3) st) 0 = false)
    by (vm_compute; reflexivity).
  assert (Hdue : Forall (fun r => @arrived st
                                    (deref (@match_short_book SpecHelpers.helpers
                                              (Scenario.candle_99_101 3)
                                              (@match_long_book SpecHelpers.helpers
                                                 (Scenario.candle_99_101 3) st)) r) = true)
                        (OrderList.long (orders_to_execute st)
                         ++ OrderList.short (orders_to_execute st))).
  { repeat constructor. }
  assert (Hcovered :
            Forall (fun r =>
                      F.lt (Order.qty (deref (@match_short_book SpecHelpers.helpers
                                                (Scenario.candle_99_101 3)
                                                (@match_long_book SpecHelpers.helpers
                                                   (Scenario.candle_99_101 3) st)) r)
                            * Order.price (deref (@match_short_book SpecHelpers.helpers
                                                    (Scenario.candle_99_101 3)
                                                    (@match_long_book SpecHelpers.helpers
                                                       (Scenario.candle_99_101 3) st)) r))%float
                           (@available_margin SpecHelpers.helpers (Scenario.candle_99_101 3)
                              (@match_short_book SpecHelpers.helpers
                                 (Scenario.candle_99_101 3)
                                 (@match_long_book SpecHelpers.helpers
                                    (Scenario.candle_99_101 3) st))) = true)
                   (OrderList.long (orders_to_execute st)
                    ++ OrderList.short (orders_to_execute st))).
  { repeat constructor. }
  split; [split; [exact Hwf | split; [exact Hmargin | split; [exact Hdue | exact Hcovered]]] |].
  split; [vm_compute; reflexivity |].
  destruct (admission_reserves_nothing (H := SpecHelpers.helpers) _ _ Hwf Hmargin Hdue Hcovered)
    as (Hev & _).
  unfold Scenario.step. rewrite Hev. vm_compute. reflexivity.
Defined.


(** * The HTTP client of [passivbot/utils/httpclient.py]

    The part of [HTTPClient] that is computed without the network: the
    checks of the constructor and the URL of an endpoint. Python strings are
    taken as their UTF-8 bytes; a test for a prefix made of ASCII characters,
    the stripping of "/", concatenation and the equality of keys are the
    same on bytes and on code points. A [dict] is given by its items in
    insertion order, with keys that are distinct. *)

Module HTTPClient.
Import Stdlib.Strings.Ascii.

Inductive exn : Set :=
  | ValueError (msg : string).

(** [s.startswith(prefixes)], for a tuple of prefixes. *)
Definition startswith (s : string) (prefixes : list string) : bool :=
  existsb (fun p => String.prefix p s) prefixes.

Definition schemes : list string := ["wss://"; "http://"; "https://"].

(** [s.rstrip(chars)]: [s] without the characters of [chars] at its end. *)
Fixpoint rstrip (s chars : string) : string :=
  match s with
  | EmptyString => EmptyString
  | String a s' =>
      match rstrip s' chars with
      | EmptyString =>
          if existsb (Ascii.eqb a) (list_ascii_of_string chars) then EmptyString
          else String a EmptyString
      | r => String a r
      end
  end.

(** [key in d] and [d[key]]. *)
Fixpoint lookup (d : list (string * string)) (key : string) : option string :=
  match d with
  | [] => None
  | (k, v) :: d => if k == key then Some v else lookup d key
  end.

(** The fields of the client, less the session, which is a connection. *)
Record t : Set := mk {
  base_url : string;
  api_key : string;
  api_secret : string;
  endpoints : list (string * string);
  session_headers : option (list (string * string))
}.

Definition endpoint_error (name url : string) : exn :=
  ValueError (String.append "The endpoint("
               (String.append name
                 (String.append ") URL("
                   (String.append url ") does not start with '/'")))).

(** The loop of [__init__] over [endpoints.items()]. *)
Fixpoint check_endpoints (items : list (string * string)) : option exn :=
  match items with
  | [] => None
  | (name, url) :: items =>
      if startswith url schemes then check_endpoints items
      else if negb (String.prefix "/" url) then Some (endpoint_error name url)
      else check_endpoints items
  end.

(** [HTTPClient(base_url, api_key, api_secret, endpoints, session_headers)]:
    the client, or the exception raised. *)
Definition init (base_url api_key api_secret : string)
    (endpoints : list (string * string))
    (session_headers : option (list (string * string))) : exn + t :=
  match check_endpoints endpoints with
  | Some e => inl e
  | None => inr (mk (rstrip base_url "/") api_key api_secret endpoints session_headers)
  end.

Definition url_for_endpoint (self : t) (endpoint : string) : string :=
  if startswith endpoint schemes then endpoint
  else
    let url := match lookup (endpoints self) endpoint with
               | Some url => url
               | None => endpoint
               end in
    if negb (startswith url schemes) then String.append (base_url self) url else url.

(** Whether the constructor accepts the URL of an endpoint. *)
Definition accepted (item : string * string) : bool :=
  startswith (snd item) schemes || String.prefix "/" (snd item).

Fixpoint slashes (n : nat) : string :=
  match n with
  | 0 => EmptyString
  | S n => String "/"%char (slashes n)
  end.

Lemma append_nil_r (s : string) : String.append s "" = s.
Proof. induction s as [| a s IH]; [reflexivity |]. cbn. now rewrite IH. Qed.

Lemma append_slash_not_empty (s : string) : String.append s "/" <> "".
Proof. now destruct s. Qed.

Lemma rstrip_slashes (s : string) :
  exists n, s = String.append (rstrip s "/") (slashes n).
Proof.
  induction s as [| a s [n IH]]; [now exists 0 |].
  cbn [rstrip]. destruct (rstrip s "/") as [| b r] eqn:Hr.
  - cbn in IH. cbn [list_ascii_of_string existsb]. rewrite orb_false_r.
    destruct (Ascii.eqb_spec a "/"%char) as [-> | Hne].
    + exists (S n). cbn. now rewrite IH.
    + exists n. cbn. now rewrite IH.
  - exists n. cbn. cbn in IH. now rewrite <- IH.
Qed.

Lemma rstrip_no_slash (s s' : string) : rstrip s "/" <> String.append s' "/".
Proof.
  revert s'. induction s as [| a s IH]; intros s'.
  - cbn. intros Heq. now apply (append_slash_not_empty s').
  - cbn [rstrip]. destruct (rstrip s "/") as [| b r] eqn:Hr.
    + cbn [list_ascii_of_string existsb]. rewrite orb_false_r.
      destruct (Ascii.eqb_spec a "/"%char) as [-> | Hne].
      * intros Heq. now apply (append_slash_not_empty s').
      * destruct s' as [| c s'']; cbn; intros Heq.
        -- injection Heq as Heq. contradiction.
        -- injection Heq as _ Heq. now apply (append_slash_not_empty s'').
    + destruct s' as [| c s'']; cbn; intros Heq.
      * discriminate.
      * injection Heq as _ Heq. now apply (IH s'').
Qed.

Lemma check_endpoints_spec (items : list (string * string)) :
  match check_endpoints items with
  | Some e =>
      exists before name url after,
        items = before ++ (name, url) :: after /\
        Forall (fun item => accepted item = true) before /\
        accepted (name, url) = false /\
        e = endpoint_error name url
  | None => Forall (fun item => accepted item = true) items
  end.
Proof.
  induction items as [| [name url] items IH]; [constructor |].
  cbn [check_endpoints].
  destruct (startswith url schemes) eqn:Hscheme;
    [| destruct (String.prefix "/" url) eqn:Hslash; cbn [negb]].
  - destruct (check_endpoints items) as [e |].
    + destruct IH as (before & n & u & after & -> & Hb & Hbad & ->).
      exists ((name, url) :: before), n, u, after.
      repeat split; trivial. constructor; trivial.
      unfold accepted. cbn [snd]. now rewrite Hscheme.
    + constructor; trivial. unfold accepted. cbn [snd]. now rewrite Hscheme.
  - destruct (check_endpoints items) as [e |].
    + destruct IH as (before & n & u & after & -> & Hb & Hbad & ->).
      exists ((name, url) :: before), n, u, after.
      repeat split; trivial. constructor; trivial.
      unfold accepted. cbn [snd]. now rewrite Hslash, orb_true_r.
    + constructor; trivial. unfold accepted. cbn [snd]. now rewrite Hslash, orb_true_r.
  - exists [], name, url, items. repeat split; trivial.
    unfold accepted. cbn [snd]. now rewrite Hscheme, Hslash.
Qed.

Lemma lookup_accepted (items : list (string * string)) (key url : string) :
  Forall (fun item => accepted item = true) items ->
  lookup items key = Some url -> accepted (key, url) = true.
Proof.
  induction 1 as [| [k v] items Hitem _ IH]; [discriminate |].
  cbn [lookup]. destruct (k == key); [| exact IH].
  intros Heq. injection Heq as <-. exact Hitem.
Qed.

Lemma prefix_append (p s s' : string) :
  String.prefix p s = true -> String.prefix p (String.append s s') = true.
Proof.
  revert s. induction p as [| a p IH]; intros s;
    [intros _; now destruct (String.append s s') |].
  destruct s as [| b s]; [discriminate |]. cbn.
  destruct (ascii_dec a b); [apply IH | discriminate].
Qed.

Lemma startswith_append (s s' : string) (prefixes : list string) :
  startswith s prefixes = true -> startswith (String.append s s') prefixes = true.
Proof.
  unfold startswith. rewrite !existsb_exists.
  intros (p & Hp & Hs). exists p. split; [exact Hp | now apply prefix_append].
Qed.
End HTTPClient.

(** X16. The constructor of [HTTPClient] raises [ValueError] iff some
    endpoint has a URL that starts neither with "wss://", "http://" or
    "https://" nor with "/"; the message names the first such endpoint in
    the order of the dictionary. Otherwise the client holds the endpoints,
    the key and the secret as given, and as base URL the one given without
    the "/" at its end: what was given is the base URL followed by "/" only,
    and the base URL does not end in "/". *)
Theorem client_init (base_url api_key api_secret : string)
    (endpoints : list (string * string))
    (session_headers : option (list (string * string))) :
  match HTTPClient.init base_url api_key api_secret endpoints session_headers with
  | inl e =>
      exists before name url after,
        endpoints = before ++ (name, url) :: after /\
        Forall (fun item => HTTPClient.accepted item = true) before /\
        HTTPClient.accepted (name, url) = false /\
        e = HTTPClient.endpoint_error name url
  | inr self =>
      Forall (fun item => HTTPClient.accepted item = true) endpoints /\
      HTTPClient.endpoints self = endpoints /\
      HTTPClient.api_key self = api_key /\ HTTPClient.api_secret self = api_secret /\
      HTTPClient.session_headers self = session_headers /\
      (exists n, base_url
                 = String.append (HTTPClient.base_url self) (HTTPClient.slashes n)) /\
      forall s, HTTPClient.base_url self <> String.append s "/"
  end.
Proof.
  unfold HTTPClient.init.
  pose proof (HTTPClient.check_endpoints_spec endpoints) as Hcheck.
  destruct (HTTPClient.check_endpoints endpoints) as [e |]; [exact Hcheck |].
  cbn. repeat split; trivial.
  - apply HTTPClient.rstrip_slashes.
  - apply HTTPClient.rstrip_no_slash.
Qed.

(** X17. The URL of an endpoint, on a client that the constructor has
    returned and whose base URL starts with "wss://", "http://" or
    "https://". The URL always starts with one of the three, and asking for
    the URL of a URL gives it back. An endpoint that starts with one of the
    three is its own URL, whether it is a name of the dictionary or not; a
    name whose entry does not start with one of them has the base URL
    followed by the entry, which starts with "/"; a name that is not in the
    dictionary is put behind the base URL as it is. *)
Theorem client_url (base_url api_key api_secret : string)
    (endpoints : list (string * string))
    (session_headers : option (list (string * string)))
    (self : HTTPClient.t) (endpoint : string) :
  HTTPClient.init base_url api_key api_secret endpoints session_headers = inr self ->
  HTTPClient.startswith (HTTPClient.base_url self) HTTPClient.schemes = true ->
  let url := HTTPClient.url_for_endpoint self endpoint in
  HTTPClient.startswith url HTTPClient.schemes = true /\
  HTTPClient.url_for_endpoint self url = url /\
  (HTTPClient.startswith endpoint HTTPClient.schemes = true -> url = endpoint) /\
  (HTTPClient.startswith endpoint HTTPClient.schemes = false ->
   match HTTPClient.lookup endpoints endpoint with
   | Some entry =>
       if HTTPClient.startswith entry HTTPClient.schemes then url = entry
       else url = String.append (HTTPClient.base_url self) entry /\
            String.prefix "/" entry = true
   | None => url = String.append (HTTPClient.base_url self) endpoint
   end).
Proof.
  intros Hinit Hbase. cbv zeta.
  pose proof (Hendpoints := HTTPClient.check_endpoints_spec endpoints).
  unfold HTTPClient.init in Hinit.
  destruct (HTTPClient.check_endpoints endpoints) as [e |]; [discriminate |].
  injection Hinit as <-. cbn [HTTPClient.base_url] in *.
  assert (Habsolute : HTTPClient.startswith
                        (HTTPClient.url_for_endpoint
                           (HTTPClient.mk (HTTPClient.rstrip base_url "/") api_key api_secret
                                          endpoints session_headers) endpoint)
                        HTTPClient.schemes = true).
  { unfold HTTPClient.url_for_endpoint. cbn [HTTPClient.endpoints HTTPClient.base_url].
    destruct (HTTPClient.startswith endpoint HTTPClient.schemes) eqn:He; [exact He |].
    destruct (HTTPClient.lookup endpoints endpoint) as [entry |].
    - destruct (HTTPClient.startswith entry HTTPClient.schemes) eqn:Hentry; cbn [negb];
        [exact Hentry | now apply HTTPClient.startswith_append].
    - rewrite He. cbn [negb]. now apply HTTPClient.startswith_append. }
  split; [exact Habsolute |]. split; [| split].
  - unfold HTTPClient.url_for_endpoint at 1. now rewrite Habsolute.
  - intros He. unfold HTTPClient.url_for_endpoint. now rewrite He.
  - intros He. unfold HTTPClient.url_for_endpoint.
    cbn [HTTPClient.endpoints HTTPClient.base_url]. rewrite He.
    destruct (HTTPClient.lookup endpoints endpoint) as [entry |] eqn:Hentry.
    + pose proof (HTTPClient.lookup_accepted endpoints endpoint entry
                    Hendpoints Hentry) as Hok.
      unfold HTTPClient.accepted in Hok. cbn [snd] in Hok.
      destruct (HTTPClient.startswith entry HTTPClient.schemes); cbn [negb];
        [reflexivity | split; [reflexivity | exact Hok]].
    + rewrite He. reflexivity.
Qed.

(** X17, on a client for "https://fapi.binance.com/" with an endpoint given
    by its path and one given in full. *)
Lemma client_url_witness :
  let endpoints := [("ticker", "/fapi/v1/ticker"); ("stream", "wss://fstream.binance.com/ws")] in
  exists self,
    HTTPClient.init "https://fapi.binance.com/" "key" "secret" endpoints None = inr self /\
    HTTPClient.startswith (HTTPClient.base_url self) HTTPClient.schemes = true /\
    HTTPClient.url_for_endpoint self "ticker" = "https://fapi.binance.com/fapi/v1/ticker" /\
    HTTPClient.url_for_endpoint self "stream" = "wss://fstream.binance.com/ws" /\
    HTTPClient.startswith (HTTPClient.url_for_endpoint self "time") HTTPClient.schemes = true.
Proof.
  cbv zeta. eexists. split; [reflexivity |]. split; [reflexivity |].
  split; [reflexivity |]. split; [reflexivity |].
  apply (client_url "https://fapi.binance.com/" "key" "secret"
           [("ticker", "/fapi/v1/ticker"); ("stream", "wss://fstream.binance.com/ws")]
           None _ "time" eq_refl eq_refl).
Defined.
